(** * Tiko integration: polling coordinator and API client

    A shallow embedding of [custom_components/tiko]: [const.py],
    [tiko_api.py], [coordinator.py] and the [climate.py] properties that read
    the coordinator's maps, followed by the properties of the refresh cycle,
    of the error classification and of the password codec.

    Python values decoded from JSON are an inductive type, Python exceptions
    are a class and the text of [str(err)], and the coroutines are functions
    in a state-and-exception monad over the objects they mutate. *)

From Stdlib Require Import ZArith List String Ascii Bool Lia DecimalString.
From Stdlib Require DecimalPos.
Import ListNotations.
Set Warnings "-register-all".
Local Open Scope Z_scope.
Local Open Scope string_scope.

(* ===================================================================== *)
(** ** Python values, exceptions and the operators the code applies      *)
(* ===================================================================== *)

Module Py.

(** Exception classes that the integration raises, catches or lets through.
    All of them are below [Exception].  The cancellation of the task
    (asyncio.CancelledError, below BaseException only), which no
    [except Exception] of the code catches, is outside this model: every
    run described here is a run that is not cancelled. *)
Inductive exn_class : Type :=
  | ClientError              (* aiohttp.ClientError *)
  | ClientResponseError      (* aiohttp.ClientResponseError, a ClientError *)
  | ContentTypeError         (* aiohttp.ContentTypeError, a ClientResponseError *)
  | TimeoutError             (* asyncio.TimeoutError *)
  | JSONDecodeError
  | TikoAuthenticationError
  | TikoRateLimitError
  | KeyError
  | IndexError
  | TypeError
  | AttributeError
  | ValueError
  | UnicodeEncodeError
  | ConfigEntryAuthFailed
  | UpdateFailed.

(** An exception object: its class and [str(err)]. *)
Record exn : Type := Raise { exn_cls : exn_class; exn_str : string }.

(** [isinstance(err, aiohttp.ClientError)]. *)
Definition is_ClientError (e : exn) : bool :=
  match exn_cls e with
  | ClientError | ClientResponseError | ContentTypeError => true
  | _ => false
  end.

(** The failures of the network, of the HTTP exchange and of the decoding
    of a reply. *)
Definition is_TransportError (e : exn) : bool :=
  match exn_cls e with
  | ClientError | ClientResponseError | ContentTypeError
  | TimeoutError | JSONDecodeError => true
  | _ => false
  end.

Definition is_ConfigEntryAuthFailed (e : exn) : bool :=
  match exn_cls e with ConfigEntryAuthFailed => true | _ => false end.

(** A value decoded from JSON.  A float is carried by its [repr], the
    shortest decimal text that reads back as the same float. *)
Inductive json : Type :=
  | JNull
  | JBool (b : bool)
  | JInt (n : Z)
  | JFloat (repr : string)
  | JStr (s : string)
  | JList (l : list json)
  | JObj (kvs : list (string * json)).

(** A [dict] with string keys, in insertion order, keys unique. *)
Definition pydict (V : Type) : Type := list (string * V).

Fixpoint dict_get {V} (d : pydict V) (k : string) : option V :=
  match d with
  | [] => None
  | (k', v) :: d' => if String.eqb k' k then Some v else dict_get d' k
  end.

(** [d[k] = v]: an existing key keeps its place, a new key goes last. *)
Fixpoint dict_set {V} (d : pydict V) (k : string) (v : V) : pydict V :=
  match d with
  | [] => [(k, v)]
  | (k', v') :: d' =>
      if String.eqb k' k then (k', v) :: d' else (k', v') :: dict_set d' k v
  end.

Definition dict_keys {V} (d : pydict V) : list string := map fst d.

(** [needle in hay] on two strings. *)
Fixpoint str_contains (needle hay : string) : bool :=
  if String.prefix needle hay then true
  else match hay with
       | EmptyString => false
       | String _ t => str_contains needle t
       end.

Definition dquote : string := String (ascii_of_nat 34) EmptyString.

Definition hex_digit (n : nat) : ascii :=
  ascii_of_nat (if Nat.ltb n 10 then 48 + n else 87 + n).

(** [repr(s)] of a string: the quote is chosen as Python does and the
    backslash, the quote and the ASCII control characters are escaped.
    Bytes above 127 belong to the UTF-8 form of non-ASCII characters and
    are kept, which is what Python prints for printable characters. *)
Fixpoint repr_escape (q : ascii) (s : string) : string :=
  match s with
  | EmptyString => EmptyString
  | String c t =>
      let n := nat_of_ascii c in
      let rest := repr_escape q t in
      if Ascii.eqb c "\" then String "\" (String "\" rest)
      else if Ascii.eqb c q then String "\" (String c rest)
      else if Nat.eqb n 10 then String "\" (String "n" rest)
      else if Nat.eqb n 13 then String "\" (String "r" rest)
      else if Nat.eqb n 9 then String "\" (String "t" rest)
      else if Nat.ltb n 32 || Nat.eqb n 127 then
        String "\" (String "x"
          (String (hex_digit (Nat.div n 16)) (String (hex_digit (Nat.modulo n 16)) rest)))
      else String c rest
  end.

Definition repr_str (s : string) : string :=
  if str_contains "'" s && negb (str_contains dquote s)
  then dquote ++ repr_escape (ascii_of_nat 34) s ++ dquote
  else "'" ++ repr_escape "'" s ++ "'".

(** [str(n)] of an int. *)
Definition str_int (n : Z) : string := NilZero.string_of_int (Z.to_int n).

Fixpoint join (sep : string) (l : list string) : string :=
  match l with
  | [] => EmptyString
  | [x] => x
  | x :: t => x ++ sep ++ join sep t
  end.

(** [repr(v)]. *)
Fixpoint py_repr (v : json) : string :=
  match v with
  | JNull => "None"
  | JBool true => "True"
  | JBool false => "False"
  | JInt n => str_int n
  | JFloat r => r
  | JStr s => repr_str s
  | JList l => "[" ++ join ", " (map py_repr l) ++ "]"
  | JObj kvs =>
      "{" ++ join ", " (map (fun kv => repr_str (fst kv) ++ ": " ++ py_repr (snd kv)) kvs) ++ "}"
  end.

(** [str(v)], also what an f-string inserts. *)
Definition py_str (v : json) : string :=
  match v with
  | JStr s => s
  | _ => py_repr v
  end.

Definition type_name (v : json) : string :=
  match v with
  | JNull => "NoneType"
  | JBool _ => "bool"
  | JInt _ => "int"
  | JFloat _ => "float"
  | JStr _ => "str"
  | JList _ => "list"
  | JObj _ => "dict"
  end.

(** [bool(v)]. *)
Definition truthy (v : json) : bool :=
  match v with
  | JNull => false
  | JBool b => b
  | JInt n => negb (Z.eqb n 0)
  | JFloat r => negb (String.eqb r "0.0" || String.eqb r "-0.0")
  | JStr s => negb (String.eqb s EmptyString)
  | JList l => match l with [] => false | _ => true end
  | JObj kvs => match kvs with [] => false | _ => true end
  end.

Definition is_JStr (s : string) (v : json) : bool :=
  match v with JStr s' => String.eqb s' s | _ => false end.

(** [k in v] for a string [k]. *)
Definition contains (k : string) (v : json) : exn + bool :=
  match v with
  | JObj kvs => inr (existsb (String.eqb k) (dict_keys kvs))
  | JList l => inr (existsb (is_JStr k) l)
  | JStr s => inr (str_contains k s)
  | _ => inl (Raise TypeError ("argument of type '" ++ type_name v ++ "' is not iterable"))
  end.

(** [v[k]] for a string [k]. *)
Definition getitem (v : json) (k : string) : exn + json :=
  match v with
  | JObj kvs =>
      match dict_get kvs k with
      | Some x => inr x
      | None => inl (Raise KeyError (repr_str k))
      end
  | JList _ => inl (Raise TypeError "list indices must be integers or slices, not str")
  | JStr _ => inl (Raise TypeError "string indices must be integers, not 'str'")
  | _ => inl (Raise TypeError ("'" ++ type_name v ++ "' object is not subscriptable"))
  end.

Definition is_continuation (c : ascii) : bool :=
  let n := nat_of_ascii c in Nat.leb 128 n && Nat.ltb n 192.

(** The characters of a string held as UTF-8: a byte that is followed by
    continuation bytes forms one character with them. *)
Fixpoint str_chars (s : string) : list string :=
  match s with
  | EmptyString => []
  | String c t =>
      let rest := str_chars t in
      match t with
      | String c2 _ =>
          if is_continuation c2 then
            match rest with
            | h :: r => String c h :: r
            | [] => [String c EmptyString]
            end
          else String c EmptyString :: rest
      | EmptyString => String c EmptyString :: rest
      end
  end.

(** [v[0]]. *)
Definition getitem0 (v : json) : exn + json :=
  match v with
  | JList l =>
      match l with
      | x :: _ => inr x
      | [] => inl (Raise IndexError "list index out of range")
      end
  | JStr s =>
      match str_chars s with
      | c :: _ => inr (JStr c)
      | [] => inl (Raise IndexError "string index out of range")
      end
  | JObj _ => inl (Raise KeyError "0")
  | _ => inl (Raise TypeError ("'" ++ type_name v ++ "' object is not subscriptable"))
  end.

(** [v.get(k, default)]. *)
Definition get (v : json) (k : string) (default : json) : exn + json :=
  match v with
  | JObj kvs =>
      match dict_get kvs k with
      | Some x => inr x
      | None => inr default
      end
  | _ => inl (Raise AttributeError ("'" ++ type_name v ++ "' object has no attribute 'get'"))
  end.

(** The elements that [for x in v] visits. *)
Definition iter (v : json) : exn + list json :=
  match v with
  | JList l => inr l
  | JObj kvs => inr (map JStr (dict_keys kvs))
  | JStr s => inr (map JStr (str_chars s))
  | _ => inl (Raise TypeError ("'" ++ type_name v ++ "' object is not iterable"))
  end.

(** [v[:10]] is evaluated for a log line; only whether it raises matters.
    (A dict raises TypeError up to Python 3.11 and KeyError from 3.12.) *)
Definition slice_prefix (v : json) : exn + unit :=
  match v with
  | JStr _ | JList _ => inr tt
  | JObj _ => inl (Raise TypeError "unhashable type: 'slice'")
  | _ => inl (Raise TypeError ("'" ++ type_name v ++ "' object is not subscriptable"))
  end.

(** [int(s)] of a string of ASCII characters, base 10: blanks around, a
    sign, digits with single underscores between them; the text of the
    error shows at most 200 characters of the [repr] of [s].  [int] also
    reads the decimal digits and the blanks of other scripts and refuses
    more than 4300 digits: strings with characters above 127 or with that
    many digits are outside this model. *)
Definition is_space (c : ascii) : bool :=
  let n := nat_of_ascii c in
  (Nat.leb 9 n && Nat.leb n 13) || (Nat.leb 28 n && Nat.leb n 32).

Definition is_digit (c : ascii) : bool :=
  let n := nat_of_ascii c in Nat.leb 48 n && Nat.leb n 57.

Fixpoint lstrip (l : list ascii) : list ascii :=
  match l with
  | c :: t => if is_space c then lstrip t else l
  | [] => []
  end.

Definition strip (l : list ascii) : list ascii := rev (lstrip (rev (lstrip l))).

Fixpoint parse_digits (acc : Z) (after_digit : bool) (l : list ascii) : option Z :=
  match l with
  | [] => if after_digit then Some acc else None
  | c :: t =>
      if is_digit c then parse_digits (10 * acc + (Z.of_nat (nat_of_ascii c) - 48)) true t
      else if Ascii.eqb c "_" && after_digit then parse_digits acc false t
      else None
  end.

Definition int_of_str (s : string) : exn + Z :=
  let bad :=
    inl (Raise ValueError
           ("invalid literal for int() with base 10: "
            ++ String.substring 0 200 (repr_str s))) in
  match strip (list_ascii_of_string s) with
  | c :: t =>
      if Ascii.eqb c "-" then
        match parse_digits 0 false t with Some n => inr (- n) | None => bad end
      else if Ascii.eqb c "+" then
        match parse_digits 0 false t with Some n => inr n | None => bad end
      else
        match parse_digits 0 false (c :: t) with Some n => inr n | None => bad end
  | [] => bad
  end.

End Py.

(* ===================================================================== *)
(** ** urllib.parse.quote and unquote, with the UTF-8 codec they call      *)
(* ===================================================================== *)

Module Urllib.

Import Py.

(** A [str] that goes through the codec is the list of its code points
    (0 .. 0x10FFFF, surrogates included); [bytes] are values 0 .. 255. *)
Definition pystr : Type := list Z.
Definition bytes : Type := list Z.

Definition is_surrogate (c : Z) : bool := (0xD800 <=? c)%Z && (c <=? 0xDFFF)%Z.

(** The UTF-8 form of one code point that is not a surrogate. *)
Definition utf8_encode_char (c : Z) : bytes :=
  if (c <? 0x80)%Z then [c]
  else if (c <? 0x800)%Z then [0xC0 + c / 64; 0x80 + c mod 64]
  else if (c <? 0x10000)%Z then [0xE0 + c / 4096; 0x80 + (c / 64) mod 64; 0x80 + c mod 64]
  else [0xF0 + c / 262144; 0x80 + (c / 4096) mod 64; 0x80 + (c / 64) mod 64; 0x80 + c mod 64].

Fixpoint surrogate_run (s : pystr) : nat :=
  match s with
  | c :: t => if is_surrogate c then S (surrogate_run t) else O
  | [] => O
  end.

Definition hex_lower (n : Z) : ascii :=
  ascii_of_nat (Z.to_nat (if (n <? 10)%Z then 48 + n else 87 + n)).

Definition surrogate_error (c : Z) (pos : Z) (run : nat) : exn :=
  Raise UnicodeEncodeError
    (if Nat.eqb run 1 then
       "'utf-8' codec can't encode character '\u"
       ++ String (hex_lower (c / 4096)) (String (hex_lower ((c / 256) mod 16))
            (String (hex_lower ((c / 16) mod 16)) (String (hex_lower (c mod 16)) EmptyString)))
       ++ "' in position " ++ str_int pos ++ ": surrogates not allowed"
     else
       "'utf-8' codec can't encode characters in position " ++ str_int pos ++ "-"
       ++ str_int (pos + Z.of_nat run - 1) ++ ": surrogates not allowed").

(** [s.encode('utf-8', 'strict')], [pos] being the index of the head of [s]. *)
Fixpoint utf8_encode_from (pos : Z) (s : pystr) : exn + bytes :=
  match s with
  | [] => inr []
  | c :: t =>
      if is_surrogate c then inl (surrogate_error c pos (surrogate_run s))
      else match utf8_encode_from (pos + 1) t with
           | inl e => inl e
           | inr bs => inr (utf8_encode_char c ++ bs)%list
           end
  end.

Definition utf8_encode (s : pystr) : exn + bytes := utf8_encode_from 0 s.

Definition is_cont (b : Z) : bool := (0x80 <=? b)%Z && (b <? 0xC0)%Z.

Definition REPLACEMENT : Z := 0xFFFD.

(** [bs.decode('utf-8', 'replace')]: an ill-formed sequence gives one
    U+FFFD for its longest well-formed start (one byte at least), and
    decoding resumes after it; a sequence cut by the end gives one U+FFFD. *)
Fixpoint utf8_decode (bs : bytes) : pystr :=
  match bs with
  | [] => []
  | b1 :: t1 =>
      if (b1 <? 0x80)%Z then b1 :: utf8_decode t1
      else if (b1 <? 0xC2)%Z then REPLACEMENT :: utf8_decode t1
      else if (b1 <? 0xE0)%Z then
        match t1 with
        | [] => [REPLACEMENT]
        | b2 :: t2 =>
            if is_cont b2 then ((b1 - 0xC0) * 64 + (b2 - 0x80)) :: utf8_decode t2
            else REPLACEMENT :: utf8_decode t1
        end
      else if (b1 <? 0xF0)%Z then
        match t1 with
        | [] => [REPLACEMENT]
        | b2 :: t2 =>
            if negb (is_cont b2) || (if (b2 <? 0xA0)%Z then (b1 =? 0xE0)%Z else (b1 =? 0xED)%Z)
            then REPLACEMENT :: utf8_decode t1
            else
              match t2 with
              | [] => [REPLACEMENT]
              | b3 :: t3 =>
                  if is_cont b3 then
                    ((b1 - 0xE0) * 4096 + (b2 - 0x80) * 64 + (b3 - 0x80)) :: utf8_decode t3
                  else REPLACEMENT :: utf8_decode t2
              end
        end
      else if (b1 <? 0xF5)%Z then
        match t1 with
        | [] => [REPLACEMENT]
        | b2 :: t2 =>
            if negb (is_cont b2) || (if (b2 <? 0x90)%Z then (b1 =? 0xF0)%Z else (b1 =? 0xF4)%Z)
            then REPLACEMENT :: utf8_decode t1
            else
              match t2 with
              | [] => [REPLACEMENT]
              | b3 :: t3 =>
                  if negb (is_cont b3) then REPLACEMENT :: utf8_decode t2
                  else
                    match t3 with
                    | [] => [REPLACEMENT]
                    | b4 :: t4 =>
                        if is_cont b4 then
                          ((b1 - 0xF0) * 262144 + (b2 - 0x80) * 4096
                           + (b3 - 0x80) * 64 + (b4 - 0x80)) :: utf8_decode t4
                        else REPLACEMENT :: utf8_decode t3
                    end
              end
        end
      else REPLACEMENT :: utf8_decode t1
  end.

(** The bytes [quote] leaves as they are: letters, digits, [_.-~] and the
    default [safe='/']. *)
Definition is_safe (b : Z) : bool :=
  ((65 <=? b)%Z && (b <=? 90)%Z) || ((97 <=? b)%Z && (b <=? 122)%Z)
  || ((48 <=? b)%Z && (b <=? 57)%Z)
  || (b =? 95)%Z || (b =? 46)%Z || (b =? 45)%Z || (b =? 126)%Z || (b =? 47)%Z.

Definition hex_upper (n : Z) : Z := if (n <? 10)%Z then 48 + n else 55 + n.

(** One byte quoted: itself, or a percent sign and two upper-case hex digits. *)
Definition quoter (b : Z) : pystr :=
  if is_safe b then [b] else [37; hex_upper (b / 16); hex_upper (b mod 16)].

Definition quote_from_bytes (bs : bytes) : pystr :=
  match bs with
  | [] => []
  | _ => if forallb is_safe bs then bs else flat_map quoter bs
  end.

(** [urllib.parse.quote(s)] with the defaults of the call in [__init__]. *)
Definition quote (s : pystr) : exn + pystr :=
  match s with
  | [] => inr []
  | _ =>
      match utf8_encode s with
      | inl e => inl e
      | inr bs => inr (quote_from_bytes bs)
      end
  end.

Definition hex_value (c : Z) : option Z :=
  if (48 <=? c)%Z && (c <=? 57)%Z then Some (c - 48)
  else if (65 <=? c)%Z && (c <=? 70)%Z then Some (c - 55)
  else if (97 <=? c)%Z && (c <=? 102)%Z then Some (c - 87)
  else None.

(** [unquote_to_bytes] on an ASCII string: a percent sign followed by two hex
    digits is the byte they spell, everything else stands for itself. *)
Fixpoint unquote_to_bytes (s : pystr) : bytes :=
  match s with
  | [] => []
  | c :: t =>
      if (c =? 37)%Z then
        match t with
        | h1 :: h2 :: t' =>
            match hex_value h1, hex_value h2 with
            | Some a, Some b => (16 * a + b) :: unquote_to_bytes t'
            | _, _ => c :: unquote_to_bytes t
            end
        | _ => c :: unquote_to_bytes t
        end
      else c :: unquote_to_bytes t
  end.

Definition decode_run (run : pystr) : pystr := utf8_decode (unquote_to_bytes run).

(** The loop of [unquote] over the split at runs of ASCII characters: an
    ASCII run is unquoted and decoded, the text between two runs is kept. *)
Fixpoint unquote_parts (run : pystr) (s : pystr) : pystr :=
  match s with
  | [] => decode_run run
  | c :: t =>
      if (c <? 0x80)%Z then unquote_parts (run ++ [c])%list t
      else (decode_run run ++ c :: unquote_parts [] t)%list
  end.

(** [urllib.parse.unquote(s)]. *)
Definition unquote (s : pystr) : pystr :=
  if existsb (Z.eqb 37) s then unquote_parts [] s else s.

(** A code point that UTF-8 encodes: in range and not a surrogate. *)
Definition encodable (c : Z) : Prop :=
  (0 <= c <= 0x10FFFF)%Z /\ is_surrogate c = false.

Definition is_byte (b : Z) : Prop := (0 <= b < 256)%Z.

Definition all_ascii (s : pystr) : Prop := Forall (fun c => (c < 0x80)%Z) s.

(** The code points of an ASCII literal. *)
Definition of_ascii (s : string) : pystr :=
  map (fun c => Z.of_nat (nat_of_ascii c)) (list_ascii_of_string s).

End Urllib.

(* ===================================================================== *)
(** ** const.py                                                           *)
(* ===================================================================== *)

Module Const.

Import Py.

Definition DOMAIN : string := "tiko".

Definition MODE_NORMAL : string := "on".
Definition MODE_OFF : string := "off".
Definition MODE_FROST : string := "frost".
Definition MODE_ABSENCE : string := "absence".

(** A dict display: the items are inserted from left to right. *)
Definition dict_of_items {V} (items : list (string * V)) : pydict V :=
  fold_left (fun d kv => dict_set d (fst kv) (snd kv)) items [].

Definition HA_MODE_MAP : pydict string :=
  dict_of_items
    [ (MODE_NORMAL, "heat");
      (MODE_OFF, "off");
      (MODE_FROST, "eco");
      (MODE_ABSENCE, "away") ].

(** [{v: k for k, v in HA_MODE_MAP.items()}]. *)
Definition TIKO_MODE_MAP : pydict string :=
  fold_left (fun d kv => dict_set d (snd kv) (fst kv)) HA_MODE_MAP [].

End Const.

(* ===================================================================== *)
(** ** The objects, the remote service and the monad of the coroutines    *)
(* ===================================================================== *)

Module Runtime.

Import Py.

(** The [variables] of the five operations; the query text of an operation
    is a constant and is left out. *)
Inductive payload : Type :=
  | LogIn (email : string) (password : Urllib.pystr) (langCode : string) (retainSession : bool)
  | GetRooms (propertyId : json)
  | SetRoomAdjustTemperature (propertyId : json) (roomId : Z) (temperature : json)
  | SetMode (propertyId : json) (mode : string)
  | GetDevices (propertyId : json).

(** One call of [session.request]: [authorization] is the Authorization
    entry of [self.headers] at the time of the call, the other headers are
    constants. *)
Record request : Type := {
  method : string;
  url : string;
  authorization : option string;
  body : option payload
}.

(** What aiohttp itself raises, from [session.request] or from
    [response.json()]: an exception of the transport. *)
Definition transport_exn : Type := { e : exn | is_TransportError e = true }.

Definition from_transport {A} (r : transport_exn + A) : exn + A :=
  match r with
  | inl f => inl (proj1_sig f)
  | inr x => inr x
  end.

(** What the client reads of a reply: [json_body] is what
    [await response.json()] returns or raises. *)
Record response : Type := {
  status : Z;
  reason : string;
  content_type : option string;
  json_body : transport_exn + json
}.

Inductive event : Type :=
  | Sent (r : request)
  | RefreshRequested.

(** The attributes of a [TikoAPI] object; [token], [user_id] and
    [property_id] do not exist before [authenticate] assigns them. *)
Record TikoAPI : Type := {
  email : string;
  password : Urllib.pystr;
  headers_Authorization : option string;
  token : option json;
  user_id : option json;
  property_id : option json
}.

(** The coordinator with its API client, and the trace of what it did. *)
Record world : Type := {
  api : TikoAPI;
  rooms : pydict json;
  devices : pydict json;
  trace : list event
}.

(** The remote service and the event loop: the outcome of a request may
    depend on everything done before it; when both coroutines of a
    [gather] fail, [second_fails_first] tells whose exception came first. *)
Record server : Type := {
  respond : list event -> request -> transport_exn + response;
  second_fails_first : list event -> bool
}.

(** A coroutine: it ends with a value or an exception, and the mutations
    it made stay in both cases. *)
Definition M (A : Type) : Type := world -> (exn + A) * world.

Definition ret {A} (x : A) : M A := fun w => (inr x, w).

Definition raise {A} (e : exn) : M A := fun w => (inl e, w).

Definition bind {A B} (m : M A) (k : A -> M B) : M B :=
  fun w =>
    match m w with
    | (inr x, w') => k x w'
    | (inl e, w') => (inl e, w')
    end.

(** [try: m  except Exception as err: h err], in a run that is not
    cancelled. *)
Definition try_except {A} (m : M A) (h : exn -> M A) : M A :=
  fun w =>
    match m w with
    | (inr x, w') => (inr x, w')
    | (inl e, w') => h e w'
    end.

Definition lift {A} (r : exn + A) : M A := fun w => (r, w).

Definition get_world : M world := fun w => (inr w, w).

Definition set_api (a : TikoAPI) : M unit :=
  fun w => (inr tt, {| api := a; rooms := rooms w; devices := devices w; trace := trace w |}).

Definition set_rooms (r : pydict json) : M unit :=
  fun w => (inr tt, {| api := api w; rooms := r; devices := devices w; trace := trace w |}).

Definition set_devices (d : pydict json) : M unit :=
  fun w => (inr tt, {| api := api w; rooms := rooms w; devices := d; trace := trace w |}).

Definition emit (ev : event) : M unit :=
  fun w =>
    (inr tt, {| api := api w; rooms := rooms w; devices := devices w;
                trace := (trace w ++ [ev])%list |}).

End Runtime.

Declare Scope coroutine_scope.
Delimit Scope coroutine_scope with co.
Notation "x <- m ;; k" := (Runtime.bind m (fun x => k))
  (at level 61, m at next level, right associativity) : coroutine_scope.
Notation "m ;; k" := (Runtime.bind m (fun _ => k))
  (at level 61, right associativity) : coroutine_scope.

(* ===================================================================== *)
(** ** tiko_api.py                                                        *)
(* ===================================================================== *)

Module TikoApi.

Import Py Runtime.
Local Open Scope coroutine_scope.

Definition base_url : string := "https://particuliers-tiko.fr".
Definition api_url : string := base_url ++ "/api/v3/graphql/".

(** [TikoAPI.__init__] (tiko_api.py, lines 25-60): the password is stored
    quoted. *)
Definition __init__ (email' : string) (password' : Urllib.pystr) : exn + TikoAPI :=
  match Urllib.quote password' with
  | inl e => inl e
  | inr q =>
      inr {| email := email'; password := q; headers_Authorization := None;
             token := None; user_id := None; property_id := None |}
  end.

Definition set_token (v : json) : M unit :=
  fun w =>
    let a := api w in
    set_api {| email := email a; password := password a;
               headers_Authorization := headers_Authorization a;
               token := Some v; user_id := user_id a; property_id := property_id a |} w.

Definition set_user_id (v : json) : M unit :=
  fun w =>
    let a := api w in
    set_api {| email := email a; password := password a;
               headers_Authorization := headers_Authorization a;
               token := token a; user_id := Some v; property_id := property_id a |} w.

Definition set_property_id (v : json) : M unit :=
  fun w =>
    let a := api w in
    set_api {| email := email a; password := password a;
               headers_Authorization := headers_Authorization a;
               token := token a; user_id := user_id a; property_id := Some v |} w.

Definition set_headers_Authorization (h : string) : M unit :=
  fun w =>
    let a := api w in
    set_api {| email := email a; password := password a;
               headers_Authorization := Some h;
               token := token a; user_id := user_id a; property_id := property_id a |} w.

(** Reading an attribute that was never assigned raises AttributeError. *)
Definition get_token : M json :=
  fun w =>
    match token (api w) with
    | Some v => (inr v, w)
    | None => (inl (Raise AttributeError "'TikoAPI' object has no attribute 'token'"), w)
    end.

Definition get_property_id : M json :=
  fun w =>
    match property_id (api w) with
    | Some v => (inr v, w)
    | None => (inl (Raise AttributeError "'TikoAPI' object has no attribute 'property_id'"), w)
    end.

Section Service.

Variable srv : server.

(** [self.session.request(method, url, headers=self.headers, **kwargs)]
    (line 70): the request goes into the trace and the service decides
    what comes back. *)
Definition session_request (method' url' : string) (body' : option payload) : M response :=
  fun w =>
    let req := {| method := method'; url := url';
                  authorization := headers_Authorization (api w); body := body' |} in
    bind (emit (Sent req)) (fun _ => lift (from_transport (respond srv (trace w) req))) w.

(** [response.raise_for_status()] (line 76): a status from 400 on raises
    ClientResponseError, whose text holds the status, the reason phrase and
    the URL. *)
Definition raise_for_status (url' : string) (r : response) : M unit :=
  if (400 <=? status r)%Z then
    raise (Raise ClientResponseError
             (str_int (status r) ++ ", message=" ++ repr_str (reason r)
              ++ ", url=" ++ repr_str url'))
  else ret tt.

(** The inspection of a decoded reply for an application-level error
    (lines 96-106). *)
Definition check_errors (result : json) : M json :=
  has_errors <- lift (contains "errors" result) ;;
  if has_errors : bool then
    errors <- lift (getitem result "errors") ;;
    first <- lift (getitem0 errors) ;;
    error_msg <- lift (getitem first "message") ;;
    rate <- lift (contains "Limite de taux atteinte" error_msg) ;;
    if rate : bool then raise (Raise TikoRateLimitError (py_str error_msg))
    else
      cred <- lift (contains "Invalid credentials" error_msg) ;;
      if cred : bool then raise (Raise TikoAuthenticationError (py_str error_msg))
      else raise (Raise ClientError (py_str error_msg))
  else ret result.

(** [_make_request] (lines 62-110).  Its handler of aiohttp.ClientError
    logs and raises the same exception again. *)
Definition _make_request (method' url' : string) (body' : option payload) : M json :=
  resp <- session_request method' url' body' ;;
  raise_for_status url' resp ;;
  if String.eqb method' "GET" && String.eqb url' base_url then ret (JObj [])
  else
    let content_type' :=
      match content_type resp with Some c => c | None => EmptyString end in
    if negb (str_contains "application/json" content_type') then
      raise (Raise ClientError ("Unexpected content type: " ++ content_type'))
    else
      result <- lift (from_transport (json_body resp)) ;;
      check_errors result.

(** [authenticate] (lines 112-215). *)
Definition authenticate : M unit :=
  _make_request "GET" base_url None ;;
  w <- get_world ;;
  let variables :=
    LogIn (email (api w)) (Urllib.unquote (password (api w))) "fr" true in
  result <- _make_request "POST" api_url (Some variables) ;;
  data0 <- lift (get result "data" (JObj [])) ;;
  login <- lift (get data0 "logIn" JNull) ;;
  if negb (truthy login) then
    raise (Raise TikoAuthenticationError "Authentication failed")
  else
    data1 <- lift (getitem result "data") ;;
    data <- lift (getitem data1 "logIn") ;;
    tok <- lift (getitem data "token") ;;
    set_token tok ;;
    user <- lift (getitem data "user") ;;
    uid <- lift (getitem user "id") ;;
    set_user_id uid ;;
    user' <- lift (getitem data "user") ;;
    properties <- lift (getitem user' "properties") ;;
    property0 <- lift (getitem0 properties) ;;
    pid <- lift (getitem property0 "id") ;;
    set_property_id pid ;;
    tok' <- get_token ;;
    set_headers_Authorization ("Token " ++ py_str tok') ;;
    (* the arguments of the debug line *)
    tok'' <- get_token ;;
    lift (slice_prefix tok'') ;;
    ret tt.

Definition get_rooms : M json :=
  pid <- get_property_id ;;
  _make_request "POST" api_url (Some (GetRooms pid)).

Definition set_temperature (room_id : Z) (temperature : json) : M json :=
  pid <- get_property_id ;;
  _make_request "POST" api_url (Some (SetRoomAdjustTemperature pid room_id temperature)).

Definition set_heating_mode (mode : string) : M json :=
  pid <- get_property_id ;;
  _make_request "POST" api_url (Some (SetMode pid mode)).

Definition get_devices : M json :=
  pid <- get_property_id ;;
  _make_request "POST" api_url (Some (GetDevices pid)).

End Service.

End TikoApi.

(* ===================================================================== *)
(** ** coordinator.py                                                     *)
(* ===================================================================== *)

Module Coordinator.

Import Py Runtime.
Local Open Scope coroutine_scope.

(** [TikoUpdateCoordinator.__init__] (coordinator.py, lines 25-47). *)
Definition __init__ (email' : string) (password' : Urllib.pystr) : exn + world :=
  match TikoApi.__init__ email' password' with
  | inl e => inl e
  | inr a => inr {| api := a; rooms := []; devices := []; trace := [] |}
  end.

(** [{str(x["id"]): x for x in items}], started from [acc]. *)
Fixpoint dict_by_id (items : list json) (acc : pydict json) : exn + pydict json :=
  match items with
  | [] => inr acc
  | x :: t =>
      match getitem x "id" with
      | inl e => inl e
      | inr i => dict_by_id t (dict_set acc (py_str i) x)
      end
  end.

(** [hasattr(self.api, 'token')]. *)
Definition hasattr_token : M bool :=
  fun w => (inr (match token (api w) with Some _ => true | None => false end), w).

(** [self.async_request_refresh()], a method of the base class: the
    request is recorded; the base class reports a failing refresh to the
    listeners and does not raise it here. *)
Definition async_request_refresh : M unit := emit RefreshRequested.

Section Service.

Variable srv : server.

(** [asyncio.gather(a, b)]: both coroutines are started, [a] first, and
    both run to their end; the first exception raised is the one the
    caller gets. *)
Definition gather {A B} (a : M A) (b : M B) : M (A * B) :=
  fun w =>
    let (ra, w1) := a w in
    let (rb, w2) := b w1 in
    match ra, rb with
    | inr x, inr y => (inr (x, y), w2)
    | inl e, inr _ => (inl e, w2)
    | inr _, inl e => (inl e, w2)
    | inl e1, inl e2 => (inl (if second_fails_first srv (trace w) then e2 else e1), w2)
    end.

Definition fetch_both : M (json * json) :=
  gather (TikoApi.get_rooms srv) (TikoApi.get_devices srv).

(** ["data" in result and "property" in result["data"]]. *)
Definition has_property (result : json) : M bool :=
  has_data <- lift (contains "data" result) ;;
  if has_data : bool then
    data <- lift (getitem result "data") ;;
    lift (contains "property" data)
  else ret false.

(** Lines 77-85. *)
Definition process_rooms (rooms_result : json) : M unit :=
  ok <- has_property rooms_result ;;
  if ok : bool then
    data <- lift (getitem rooms_result "data") ;;
    property <- lift (getitem data "property") ;;
    rooms' <- lift (getitem property "rooms") ;;
    items <- lift (iter rooms') ;;
    d <- lift (dict_by_id items []) ;;
    set_rooms d
  else raise (Raise UpdateFailed "Invalid rooms response").

(** Lines 87-98. *)
Definition process_devices (devices_result : json) : M unit :=
  ok <- has_property devices_result ;;
  if ok : bool then
    data <- lift (getitem devices_result "data") ;;
    property <- lift (getitem data "property") ;;
    devices' <- lift (getitem property "devices") ;;
    items <- lift (iter devices') ;;
    d <- lift (dict_by_id items []) ;;
    set_devices d
  else raise (Raise UpdateFailed "Invalid devices response").

(** The body of the outer [try] of [_async_update_data] (lines 52-103).
    [raise ConfigEntryAuthFailed from err] has no message of its own, and
    the [str] of such an error of Home Assistant is the text of its
    cause. *)
Definition update_body : M json :=
  has <- hasattr_token ;;
  (if has : bool then ret tt
   else try_except (TikoApi.authenticate srv)
          (fun err => raise (Raise ConfigEntryAuthFailed (exn_str err)))) ;;
  results <-
    try_except fetch_both
      (fun err =>
         if negb (str_contains "Authentication failed" (exn_str err)) then raise err
         else
           TikoApi.authenticate srv ;;
           fetch_both) ;;
  process_rooms (fst results) ;;
  process_devices (snd results) ;;
  w <- get_world ;;
  ret (JObj [("rooms", JObj (rooms w)); ("devices", JObj (devices w))]).

(** [_async_update_data] (lines 49-109): ConfigEntryAuthFailed passes, any
    other exception becomes UpdateFailed. *)
Definition _async_update_data : M json :=
  try_except update_body
    (fun err =>
       if is_ConfigEntryAuthFailed err then raise err
       else raise (Raise UpdateFailed ("Error communicating with API: " ++ exn_str err))).

(** [set_temperature] (lines 111-118): the handler logs and raises the
    same exception again. *)
Definition set_temperature (room_id : string) (temperature : json) : M unit :=
  try_except
    (n <- lift (int_of_str room_id) ;;
     TikoApi.set_temperature srv n temperature ;;
     async_request_refresh)
    (fun err => raise err).

(** [set_mode] (lines 120-127). *)
Definition set_mode (mode : string) : M unit :=
  try_except
    (TikoApi.set_heating_mode srv mode ;;
     async_request_refresh)
    (fun err => raise err).

End Service.

End Coordinator.

(* ===================================================================== *)
(** ** climate.py: what an entity reads of the coordinator                *)
(* ===================================================================== *)

Module Climate.

Import Py Runtime.

Inductive HVACAction : Type := HEATING | IDLE.
Inductive HVACMode : Type := HEAT | OFF.

(** The values of the two enumerations of the climate platform. *)
Definition HVACAction_value (a : HVACAction) : string :=
  match a with HEATING => "heating" | IDLE => "idle" end.

Definition HVACMode_value (m : HVACMode) : string :=
  match m with HEAT => "heat" | OFF => "off" end.

(** [room_data] (climate.py, lines 71-74):
    [self.coordinator.rooms.get(self._room_id, {})]. *)
Definition room_data (w : world) (room_id : string) : json :=
  match dict_get (rooms w) room_id with
  | Some r => r
  | None => JObj []
  end.

Definition current_temperature (w : world) (room_id : string) : exn + json :=
  get (room_data w room_id) "currentTemperatureDegrees" JNull.

Definition target_temperature (w : world) (room_id : string) : exn + json :=
  get (room_data w room_id) "targetTemperatureDegrees" JNull.

Definition heating_operating (w : world) (room_id : string) : exn + json :=
  match get (room_data w room_id) "status" (JObj []) with
  | inl e => inl e
  | inr st => get st "heatingOperating" JNull
  end.

Definition hvac_mode (w : world) (room_id : string) : exn + HVACMode :=
  match heating_operating w room_id with
  | inl e => inl e
  | inr h => inr (if truthy h then HEAT else OFF)
  end.

Definition hvac_action (w : world) (room_id : string) : exn + HVACAction :=
  match heating_operating w room_id with
  | inl e => inl e
  | inr h => inr (if truthy h then HEATING else IDLE)
  end.

End Climate.

(* ===================================================================== *)
(** ** What the properties below observe                                  *)
(* ===================================================================== *)

Module Observe.

Import Py Runtime.

Definition is_login (ev : event) : bool :=
  match ev with
  | Sent r => match body r with Some (LogIn _ _ _ _) => true | _ => false end
  | RefreshRequested => false
  end.

(** How many login calls a trace holds. *)
Definition logins (t : list event) : nat := List.length (filter is_login t).

Definition same_maps (w w' : world) : Prop :=
  rooms w' = rooms w /\ devices w' = devices w.

Definition same_objects (w w' : world) : Prop :=
  api w' = api w /\ rooms w' = rooms w /\ devices w' = devices w.

Definition same_trace (w w' : world) : Prop := trace w' = trace w.

(** Every run of [m] relates the world it starts in to the one it leaves. *)
Definition frame (P : world -> world -> Prop) {A} (m : M A) : Prop :=
  forall w r w', m w = (r, w') -> P w w'.

(** Every exception that a run of [m] raises satisfies [Q]. *)
Definition raises_only (Q : exn -> Prop) {A} (m : M A) : Prop :=
  forall w e w', m w = (inl e, w') -> Q e.

(** The exceptions that come from the API client and from the processing
    of a reply: any class but ConfigEntryAuthFailed. *)
Definition from_below (e : exn) : Prop :=
  match exn_cls e with
  | ConfigEntryAuthFailed => False
  | _ => True
  end.

(** The request that [_make_request] issues from [w]. *)
Definition request_of (w : world) (method' url' : string) (body' : option payload) : request :=
  {| method := method'; url := url';
     authorization := headers_Authorization (api w); body := body' |}.

(** The errors that the operators of [Py] raise. *)
Definition builtin_error (e : exn) : Prop :=
  match exn_cls e with
  | KeyError | IndexError | TypeError | AttributeError => True
  | _ => False
  end.

(** The login request of the handshake. *)
Definition login_request (w : world) : request :=
  request_of w "POST" TikoApi.api_url
    (Some (LogIn (email (api w)) (Urllib.unquote (password (api w))) "fr" true)).

(** The first request of the handshake. *)
Definition prime_request (w : world) : request :=
  request_of w "GET" TikoApi.base_url None.

Definition add_events (w : world) (evs : list event) : world :=
  {| api := api w; rooms := rooms w; devices := devices w;
     trace := (trace w ++ evs)%list |}.

(** A reply that [_make_request] decodes: no error status, a JSON content
    type and a body that decodes to [v]. *)
Definition decodes_to (resp : response) (v : json) : Prop :=
  (status resp < 400)%Z
  /\ str_contains "application/json"
       match content_type resp with Some c => c | None => EmptyString end = true
  /\ json_body resp = inr v.

(** The service answers every GetRooms call with [v]. *)
Definition answers_rooms (srv : server) (v : json) : Prop :=
  forall hist req pid,
    body req = Some (GetRooms pid) ->
    exists resp, respond srv hist req = inr resp /\ decodes_to resp v.

(** The map that the cycle makes of a reply (coordinator.py, lines 79-82
    and 92-95): [{str(x["id"]): x for x in reply["data"]["property"][key]}]. *)
Definition map_of_reply (reply : json) (key : string) : exn + pydict json :=
  match getitem reply "data" with
  | inl e => inl e
  | inr data =>
      match getitem data "property" with
      | inl e => inl e
      | inr property =>
          match getitem property key with
          | inl e => inl e
          | inr l =>
              match iter l with
              | inl e => inl e
              | inr items => Coordinator.dict_by_id items []
              end
          end
      end
  end.

(** One step of the cycle that issues requests other than a login: the
    objects stay as they are and the trace gains no login. *)
Definition quiet (w w' : world) : Prop :=
  same_objects w w' /\ logins (trace w') = logins (trace w).

End Observe.

(* ===================================================================== *)
(** ** Replies and services used as concrete instances                    *)
(* ===================================================================== *)

Module Scenario.

Import Py Runtime.

Definition ok_json (v : json) : transport_exn + response :=
  inr {| status := 200; reason := "OK";
         content_type := Some "application/json"; json_body := inr v |}.

(** A page that is no JSON. *)
Definition html_page : response :=
  {| status := 200; reason := "OK";
     content_type := Some "text/html; charset=utf-8";
     json_body := inl (exist _ (Raise ContentTypeError "unexpected mimetype: text/html")
                         eq_refl) |}.

Definition ok_empty : transport_exn + response := inr html_page.

Definition lounge : json :=
  JObj [ ("id", JInt 42); ("name", JStr "Lounge");
         ("currentTemperatureDegrees", JFloat "19.5");
         ("targetTemperatureDegrees", JFloat "21.0");
         ("status", JObj [("heatingOperating", JBool true)]) ].

Definition kitchen : json :=
  JObj [ ("id", JInt 7); ("name", JStr "Kitchen");
         ("currentTemperatureDegrees", JFloat "18.0");
         ("targetTemperatureDegrees", JFloat "18.0");
         ("humidity", JNull);
         ("status", JObj [("heatingOperating", JBool false); ("disconnected", JBool false)]) ].

Definition heater : json :=
  JObj [ ("id", JInt 3); ("code", JStr "H3"); ("type", JStr "heater");
         ("name", JStr "Heater"); ("mac", JStr "00:11:22:33:44:55") ].

Definition rooms_reply (l : list json) : json :=
  JObj [("data", JObj [("property", JObj [("rooms", JList l)])])].

Definition devices_reply (l : list json) : json :=
  JObj [("data", JObj [("property", JObj [("devices", JList l); ("externalDevices", JList [])])])].

Definition login_reply (properties : list json) : json :=
  JObj [("data", JObj [("logIn",
    JObj [ ("user", JObj [("id", JInt 11); ("properties", JList properties)]);
           ("token", JStr "0123456789abcdef"); ("firstLogin", JBool false) ])])].

Definition error_reply (message : string) : json :=
  JObj [("errors", JList [JObj [("message", JStr message)]]); ("data", JNull)].

(** A service that answers each operation with a fixed reply. *)
Definition service (login rooms' devices' command : transport_exn + response) : server :=
  {| respond := fun _ req =>
       match body req with
       | None => ok_empty
       | Some (LogIn _ _ _ _) => login
       | Some (GetRooms _) => rooms'
       | Some (GetDevices _) => devices'
       | Some _ => command
       end;
     second_fails_first := fun _ => false |}.

Definition one_property : json := login_reply [JObj [("id", JInt 5)]].

(** The service of the account with the single room Lounge. *)
Definition lounge_service : server :=
  service (ok_json one_property) (ok_json (rooms_reply [lounge]))
    (ok_json (devices_reply [heater])) (ok_json (JObj [("data", JObj [])])).

(** A service that rejects the fetches made before the next login of the
    trace with the given reply, and answers the later ones. *)
Definition service_after_login (before : transport_exn + response)
    (rooms' devices' : json) : server :=
  {| respond := fun hist req =>
       match body req with
       | None => ok_empty
       | Some (LogIn _ _ _ _) => ok_json one_property
       | Some (GetRooms _) =>
           if existsb Observe.is_login hist then ok_json rooms' else before
       | Some (GetDevices _) =>
           if existsb Observe.is_login hist then ok_json devices' else before
       | Some _ => ok_json (JObj [("data", JObj [])])
       end;
     second_fails_first := fun _ => false |}.

(** A client that has logged in, and a coordinator after a good cycle. *)
Definition logged_in : TikoAPI :=
  {| email := "user@example.org"; password := Urllib.of_ascii "secret";
     headers_Authorization := Some "Token 0123456789abcdef";
     token := Some (JStr "0123456789abcdef");
     user_id := Some (JInt 11); property_id := Some (JInt 5) |}.

Definition after_good_cycle : world :=
  {| api := logged_in;
     rooms := [("7", kitchen)];
     devices := [("3", heater)];
     trace := [] |}.

(** A service whose fetches fail for good with the given reply. *)
Definition rejecting_service (reply : transport_exn + response) : server :=
  service (ok_json one_property) reply reply (ok_json (JObj [("data", JObj [])])).

(** The host cannot be reached. *)
Definition unreachable : transport_exn + response :=
  inl (exist _ (Raise ClientError "Cannot connect to host particuliers-tiko.fr:443") eq_refl).

(** The reply of an expired token, as an application-level error. *)
Definition expired : transport_exn + response := ok_json (error_reply "Authentication failed").

(** A devices reply without the property entry. *)
Definition no_property : json := JObj [("data", JObj [])].

(** The account of the login reply owns no property. *)
Definition no_property_service : server :=
  service (ok_json (login_reply [])) (ok_json (rooms_reply [lounge]))
    (ok_json (devices_reply [heater])) (ok_json (JObj [("data", JObj [])])).

(** The rooms reply is accepted and the devices reply is not. *)
Definition torn_service : server :=
  service (ok_json one_property) (ok_json (rooms_reply [lounge]))
    (ok_json no_property) (ok_json (JObj [("data", JObj [])])).

Definition fresh : world :=
  {| api := {| email := "user@example.org"; password := Urllib.of_ascii "secret";
               headers_Authorization := None; token := None;
               user_id := None; property_id := None |};
     rooms := []; devices := []; trace := [] |}.

End Scenario.


(* ===================================================================== *)
(** ** climate.py: the entities and their commands                        *)
(* ===================================================================== *)

Module ClimateEntity.

Import Py Runtime.
Local Open Scope coroutine_scope.

Definition ATTR_TEMPERATURE : string := "temperature".

(** The attributes that [TikoClimate.__init__] assigns. *)
Record TikoClimate : Type := {
  _room_id : string;
  _attr_unique_id : string;
  _attr_name : json
}.

(** [TikoClimate.__init__] (climate.py, lines 60-69): the name is read
    from [coordinator.rooms[room_id]["name"]]. *)
Definition __init__ (w : world) (room_id : string) : exn + TikoClimate :=
  match dict_get (rooms w) room_id with
  | None => inl (Raise KeyError (repr_str room_id))
  | Some room =>
      match getitem room "name" with
      | inl e => inl e
      | inr name =>
          inr {| _room_id := room_id;
                 _attr_unique_id := Const.DOMAIN ++ "_" ++ room_id;
                 _attr_name := name |}
      end
  end.

(** The list comprehension of [async_setup_entry] (lines 41-44) over the
    keys [ids] of the rooms map: it stops at the first constructor that
    raises. *)
Fixpoint entities_of (w : world) (ids : list string) : exn + list TikoClimate :=
  match ids with
  | [] => inr []
  | room_id :: t =>
      match __init__ w room_id with
      | inl e => inl e
      | inr entity =>
          match entities_of w t with
          | inl e => inl e
          | inr es => inr (entity :: es)
          end
      end
  end.

(** The entities that [async_setup_entry] (lines 33-45) hands to the
    platform. *)
Definition async_setup_entry (w : world) : exn + list TikoClimate :=
  entities_of w (dict_keys (rooms w)).

(** [preset_mode] (lines 100-103). *)
Definition preset_mode (self : TikoClimate) : json := JNull.

Section Service.

Variable srv : server.

(** [async_set_temperature] (lines 105-113), [kwargs] being its keyword
    arguments. *)
Definition async_set_temperature (self : TikoClimate) (kwargs : pydict json) : M unit :=
  match dict_get kwargs ATTR_TEMPERATURE with
  | None => ret tt
  | Some JNull => ret tt
  | Some temperature => Coordinator.set_temperature srv (_room_id self) temperature
  end.

(** [async_set_hvac_mode(hvac_mode)] (lines 115-119); a member of the
    HVACMode enumeration is the string of its value. *)
Definition async_set_hvac_mode (self : TikoClimate) (hvac_mode : string) : M unit :=
  match dict_get Const.TIKO_MODE_MAP hvac_mode with
  | Some tiko_mode => Coordinator.set_mode srv tiko_mode
  | None => ret tt
  end.

(** [async_set_preset_mode(preset_mode)] (lines 121-128). *)
Definition async_set_preset_mode (self : TikoClimate) (preset_mode' : string) : M unit :=
  if String.eqb preset_mode' "eco" then Coordinator.set_mode srv "frost"
  else if String.eqb preset_mode' "away" then Coordinator.set_mode srv "absence"
  else Coordinator.set_mode srv "faux".

End Service.

End ClimateEntity.

(* ===================================================================== *)
(** ** config_flow.py: the test of the credentials                        *)
(* ===================================================================== *)

Module ConfigFlow.

Import Py Runtime.
Local Open Scope coroutine_scope.

Section Service.

Variable srv : server.

(** The statements of the [try] of [_test_credentials] after the client
    was built (config_flow.py, lines 49-67). *)
Definition test_body : M (bool * option string) :=
  TikoApi.authenticate srv ;;
  result <- TikoApi.get_rooms srv ;;
  has_errors <- lift (contains "errors" result) ;;
  if has_errors : bool then
    errors <- lift (getitem result "errors") ;;
    first <- lift (getitem0 errors) ;;
    error_msg <- lift (getitem first "message") ;;
    rate <- lift (contains "Limite de taux atteinte" error_msg) ;;
    if rate : bool then ret (false, Some "rate_limit")
    else
      cred <- lift (contains "Invalid credentials" error_msg) ;;
      if cred : bool then ret (false, Some "invalid_auth")
      else ret (false, Some "cannot_connect")
  else
    data <- lift (get result "data" (JObj [])) ;;
    property <- lift (get data "property" (JObj [])) ;;
    rooms' <- lift (get property "rooms" JNull) ;;
    if negb (truthy rooms') then ret (false, Some "no_rooms")
    else ret (true, None).

(** [_test_credentials] (lines 32-71): the client is built inside the
    [try], and every exception gives the error [unknown].  The flow has no
    coordinator: the two maps of the world stay empty. *)
Definition _test_credentials (email' : string) (password' : Urllib.pystr)
  : bool * option string :=
  match TikoApi.__init__ email' password' with
  | inl _ => (false, Some "unknown")
  | inr a =>
      match test_body {| api := a; rooms := []; devices := []; trace := [] |} with
      | (inr r, _) => r
      | (inl _, _) => (false, Some "unknown")
      end
  end.

End Service.

End ConfigFlow.

(* ===================================================================== *)
(** ** What the further properties observe                                *)
(* ===================================================================== *)

Module Coverage.

Import Py Runtime.

(** The value that the digits [d] continue from [acc]. *)
Fixpoint uint_value (acc : Z) (d : Decimal.uint) : Z :=
  match d with
  | Decimal.Nil => acc
  | Decimal.D0 l => uint_value (10 * acc) l
  | Decimal.D1 l => uint_value (10 * acc + 1) l
  | Decimal.D2 l => uint_value (10 * acc + 2) l
  | Decimal.D3 l => uint_value (10 * acc + 3) l
  | Decimal.D4 l => uint_value (10 * acc + 4) l
  | Decimal.D5 l => uint_value (10 * acc + 5) l
  | Decimal.D6 l => uint_value (10 * acc + 6) l
  | Decimal.D7 l => uint_value (10 * acc + 7) l
  | Decimal.D8 l => uint_value (10 * acc + 8) l
  | Decimal.D9 l => uint_value (10 * acc + 9) l
  end.

(** The request of a fetch or of a command, as [_make_request] sends it. *)
Definition post (w : world) (p : payload) : event :=
  Sent (Observe.request_of w "POST" TikoApi.api_url (Some p)).

(** The service answers every GetDevices call with [v]. *)
Definition answers_devices (srv : server) (v : json) : Prop :=
  forall hist req pid,
    body req = Some (GetDevices pid) ->
    exists resp, respond srv hist req = inr resp /\ Observe.decodes_to resp v.


(** The classes that a refresh cycle lets out. *)
Definition cycle_error (e : exn) : Prop :=
  exn_cls e = ConfigEntryAuthFailed \/ exn_cls e = UpdateFailed.

(** Every value of the map is one of [items], stored under the text of its
    id. *)
Definition keyed_by_id (items : list json) (d : pydict json) : Prop :=
  forall k v, dict_get d k = Some v ->
    In v items /\ exists i, getitem v "id" = inr i /\ py_str i = k.

End Coverage.
(* ===================================================================== *)
(** ** The operators of Python on sample values                           *)
(* ===================================================================== *)

Example str_of_int :
  Py.str_int 42 = "42" /\ Py.str_int (-7) = "-7" /\ Py.str_int 0 = "0".
Proof. repeat split. Qed.

Example int_of_padded_literal : Py.int_of_str " +4_2 " = inr 42.
Proof. reflexivity. Qed.

Example int_of_doubled_underscore :
  Py.int_of_str "4__2"
  = inl (Py.Raise Py.ValueError "invalid literal for int() with base 10: '4__2'").
Proof. reflexivity. Qed.

Example str_of_list :
  Py.py_str (Py.JList [Py.JFloat "1.5"; Py.JStr "a'b"; Py.JNull;
                       Py.JObj [("k", Py.JBool true)]])
  = "[1.5, " ++ Py.dquote ++ "a'b" ++ Py.dquote ++ ", None, {'k': True}]".
Proof. reflexivity. Qed.

Example quote_mixed :
  Urllib.quote (Urllib.of_ascii "p%ss w" ++ [0xF6; 0x20AC; 0x1F600] ++ Urllib.of_ascii "/~")%list
  = inr (Urllib.of_ascii "p%25ss%20w%C3%B6%E2%82%AC%F0%9F%98%80/~").
Proof. reflexivity. Qed.

Example quote_ascii_table :
  Urllib.quote (Urllib.of_ascii "AZaz09_.-~/ !#$%&'()*+,:;<=>?@[\]^`{|}" ++ [0; 127])%list
  = inr (Urllib.of_ascii
      "AZaz09_.-~/%20%21%23%24%25%26%27%28%29%2A%2B%2C%3A%3B%3C%3D%3E%3F%40%5B%5C%5D%5E%60%7B%7C%7D%00%7F").
Proof. vm_compute. reflexivity. Qed.

Example quote_one_surrogate :
  Urllib.quote (Urllib.of_ascii "ab" ++ [0xDC00])%list
  = inl (Py.Raise Py.UnicodeEncodeError
      "'utf-8' codec can't encode character '\udc00' in position 2: surrogates not allowed").
Proof. reflexivity. Qed.

Example quote_two_surrogates :
  Urllib.quote (Urllib.of_ascii "ab" ++ [0xDC00; 0xD800; 99; 0xDFFF])%list
  = inl (Py.Raise Py.UnicodeEncodeError
      "'utf-8' codec can't encode characters in position 2-3: surrogates not allowed").
Proof. reflexivity. Qed.

(** Ill-formed sequences under [errors='replace']. *)
Example unquote_ill_formed :
  Urllib.unquote (Urllib.of_ascii "%F0%9F%98") = [0xFFFD]
  /\ Urllib.unquote (Urllib.of_ascii "%F0%9F%98x") = [0xFFFD; 120]
  /\ Urllib.unquote (Urllib.of_ascii "%F0%9Fx") = [0xFFFD; 120]
  /\ Urllib.unquote (Urllib.of_ascii "%F0%80%80%80") = [0xFFFD; 0xFFFD; 0xFFFD; 0xFFFD]
  /\ Urllib.unquote (Urllib.of_ascii "%ED%A0%80") = [0xFFFD; 0xFFFD; 0xFFFD]
  /\ Urllib.unquote (Urllib.of_ascii "%E0%80%80") = [0xFFFD; 0xFFFD; 0xFFFD]
  /\ Urllib.unquote (Urllib.of_ascii "%F4%90%80%80") = [0xFFFD; 0xFFFD; 0xFFFD; 0xFFFD]
  /\ Urllib.unquote (Urllib.of_ascii "%C0%80%FF%80") = [0xFFFD; 0xFFFD; 0xFFFD; 0xFFFD]
  /\ Urllib.unquote (Urllib.of_ascii "%E2") = [0xFFFD].
Proof. repeat split. Qed.

Example unquote_samples :
  Urllib.unquote (Urllib.of_ascii "%e2%82%ac%2") = [0x20AC; 37; 50]
  /\ Urllib.unquote (Urllib.of_ascii "a%zzb%4") = Urllib.of_ascii "a%zzb%4"
  /\ Urllib.unquote (0xE9 :: Urllib.of_ascii "%41") = [0xE9; 65].
Proof. repeat split. Qed.

(* ===================================================================== *)
(** ** The mode maps                                                      *)
(* ===================================================================== *)

Lemma HA_MODE_MAP_items :
  Const.HA_MODE_MAP = [("on", "heat"); ("off", "off"); ("frost", "eco"); ("absence", "away")].
Proof. reflexivity. Qed.

Lemma TIKO_MODE_MAP_items :
  Const.TIKO_MODE_MAP = [("heat", "on"); ("off", "off"); ("eco", "frost"); ("away", "absence")].
Proof. reflexivity. Qed.

Ltac case_key :=
  match goal with
  | |- context [String.eqb ?a ?b] => destruct (String.eqb_spec a b); subst
  | H : context [String.eqb ?a ?b] |- _ => destruct (String.eqb_spec a b); subst
  end.

Lemma mode_maps_inverse (m h : string) :
  Py.dict_get Const.HA_MODE_MAP m = Some h <-> Py.dict_get Const.TIKO_MODE_MAP h = Some m.
Proof.
  rewrite HA_MODE_MAP_items, TIKO_MODE_MAP_items. cbn [Py.dict_get].
  split; intros H; repeat case_key; try discriminate;
    try (injection H as <-); try reflexivity; try congruence.
Qed.

(** C5 (amended). The keys of HA_MODE_MAP are on, off, frost and absence,
    those of TIKO_MODE_MAP are heat, off, eco and away, each map is the
    inverse of the other, and frost goes to eco and back. *)
Theorem mode_maps_bijection :
  Py.dict_keys Const.HA_MODE_MAP = ["on"; "off"; "frost"; "absence"]
  /\ Py.dict_keys Const.TIKO_MODE_MAP = ["heat"; "off"; "eco"; "away"]
  /\ (forall m h : string,
        Py.dict_get Const.HA_MODE_MAP m = Some h <-> Py.dict_get Const.TIKO_MODE_MAP h = Some m)
  /\ Py.dict_get Const.HA_MODE_MAP "frost" = Some "eco"
  /\ Py.dict_get Const.TIKO_MODE_MAP "eco" = Some "frost".
Proof.
  repeat split; try reflexivity; apply mode_maps_inverse.
Qed.

(** The service-side token of the normal mode is on: normal is no key of
    HA_MODE_MAP, and no round trip starts from it. *)
Lemma normal_is_not_a_service_mode :
  Py.dict_get Const.HA_MODE_MAP "normal" = None
  /\ Py.dict_get Const.HA_MODE_MAP "on" = Some "heat"
  /\ ~ (exists h, Py.dict_get Const.HA_MODE_MAP "normal" = Some h
                  /\ Py.dict_get Const.TIKO_MODE_MAP h = Some "normal").
Proof.
  repeat split. intros (h & H & _). discriminate H.
Qed.

(* ===================================================================== *)
(** ** Rules for the coroutine monad                                      *)
(* ===================================================================== *)

Import Py Runtime Observe.
Local Open Scope coroutine_scope.

Section Frame.

Variable P : world -> world -> Prop.
Hypothesis P_refl : forall w, P w w.
Hypothesis P_trans : forall a b c, P a b -> P b c -> P a c.

Lemma frame_ret {A} (x : A) : frame P (ret x).
Proof. intros w r w' H. inversion H; subst. apply P_refl. Qed.

Lemma frame_raise {A} (e : exn) : frame P (@raise A e).
Proof. intros w r w' H. inversion H; subst. apply P_refl. Qed.

Lemma frame_lift {A} (x : exn + A) : frame P (lift x).
Proof. intros w r w' H. inversion H; subst. apply P_refl. Qed.

Lemma frame_get_world : frame P get_world.
Proof. intros w r w' H. inversion H; subst. apply P_refl. Qed.

Lemma frame_bind {A B} (m : M A) (k : A -> M B) :
  frame P m -> (forall x, frame P (k x)) -> frame P (bind m k).
Proof.
  intros Hm Hk w r w' H. unfold bind in H.
  destruct (m w) as [[e | x] w1] eqn:E.
  - inversion H; subst. eapply Hm; eassumption.
  - eapply P_trans; [eapply Hm; eassumption | eapply Hk; eassumption].
Qed.

Lemma frame_try_except {A} (m : M A) (h : exn -> M A) :
  frame P m -> (forall e, frame P (h e)) -> frame P (try_except m h).
Proof.
  intros Hm Hh w r w' H. unfold try_except in H.
  destruct (m w) as [[e | x] w1] eqn:E.
  - eapply P_trans; [eapply Hm; eassumption | eapply Hh; eassumption].
  - inversion H; subst. eapply Hm; eassumption.
Qed.

Lemma frame_if {A} (b : bool) (m1 m2 : M A) :
  frame P m1 -> frame P m2 -> frame P (if b then m1 else m2).
Proof. destruct b; auto. Qed.

End Frame.

Lemma same_objects_refl w : same_objects w w.
Proof. repeat split. Qed.

Lemma same_objects_trans a b c : same_objects a b -> same_objects b c -> same_objects a c.
Proof. unfold same_objects. intros (?&?&?) (?&?&?). repeat split; congruence. Qed.

Lemma same_maps_refl w : same_maps w w.
Proof. split; reflexivity. Qed.

Lemma same_maps_trans a b c : same_maps a b -> same_maps b c -> same_maps a c.
Proof. unfold same_maps. intros (?&?) (?&?). split; congruence. Qed.

Lemma same_trace_refl w : same_trace w w.
Proof. reflexivity. Qed.

Lemma same_trace_trans a b c : same_trace a b -> same_trace b c -> same_trace a c.
Proof. unfold same_trace. congruence. Qed.

Lemma same_objects_maps w w' : same_objects w w' -> same_maps w w'.
Proof. intros (?&?&?). split; assumption. Qed.

Create HintDb frame.
#[local] Hint Resolve same_objects_refl same_objects_trans same_maps_refl same_maps_trans
  same_trace_refl same_trace_trans : frame.
#[local] Hint Resolve frame_ret frame_raise frame_lift frame_get_world : frame.

(** Splits a computation along its binds, handlers and branches. *)
Ltac frame_side := solve [eauto with frame | intros; congruence].

Ltac frame_step :=
  match goal with
  | |- frame _ (bind _ _) => apply frame_bind; [frame_side | | intros ]
  | |- frame _ (try_except _ _) => apply frame_try_except; [frame_side | | intros ]
  | |- frame _ (if ?b then _ else _) => destruct b
  | |- frame _ (let (_, _) := ?p in _) => destruct p
  | |- frame _ (match ?x with _ => _ end) => destruct x
  | |- frame _ _ => solve [eauto with frame]
  end.

Ltac frame_auto := repeat frame_step.

(** Evaluates the run named by [H] and names its outcome. *)
Ltac eval_run H :=
  let H' := fresh in
  pose proof H as H'; vm_compute in H'; inversion H'; subst; clear H'.

Lemma emit_objects ev : frame same_objects (emit ev).
Proof. intros w r w' H. inversion H; subst. repeat split. Qed.

Lemma set_api_maps a : frame same_maps (set_api a).
Proof. intros w r w' H. inversion H; subst. split; reflexivity. Qed.

Lemma set_api_trace a : frame same_trace (set_api a).
Proof. intros w r w' H. inversion H; subst. reflexivity. Qed.

Lemma set_rooms_trace d : frame same_trace (set_rooms d).
Proof. intros w r w' H. inversion H; subst. reflexivity. Qed.

Lemma set_devices_trace d : frame same_trace (set_devices d).
Proof. intros w r w' H. inversion H; subst. reflexivity. Qed.

#[local] Hint Resolve emit_objects set_api_maps set_api_trace set_rooms_trace
  set_devices_trace : frame.

Lemma frame_weaken (P Q : world -> world -> Prop) {A} (m : M A) :
  (forall w w', P w w' -> Q w w') -> frame P m -> frame Q m.
Proof. intros HPQ Hm w r w' H. apply HPQ. eapply Hm; eassumption. Qed.

(* ===================================================================== *)
(** ** The API client: what a call does to the objects and to the trace   *)
(* ===================================================================== *)

Section ApiFacts.

Variable srv : server.

Lemma session_request_run m u b w :
  TikoApi.session_request srv m u b w
  = (from_transport (respond srv (trace w) (request_of w m u b)),
     add_events w [Sent (request_of w m u b)]).
Proof. reflexivity. Qed.

Lemma raise_for_status_pure u r : frame eq (TikoApi.raise_for_status u r).
Proof. unfold TikoApi.raise_for_status. frame_auto. Qed.

Lemma check_errors_pure result : frame eq (TikoApi.check_errors result).
Proof.
  unfold TikoApi.check_errors.
  frame_auto.
Qed.

(** A call of [_make_request] adds one request to the trace and changes
    nothing else, whatever its outcome. *)
Lemma make_request_world m u b w r w' :
  TikoApi._make_request srv m u b w = (r, w') ->
  w' = add_events w [Sent (request_of w m u b)].
Proof.
  unfold TikoApi._make_request. unfold bind at 1.
  rewrite session_request_run.
  destruct (respond srv (trace w) (request_of w m u b)) as [e | resp]; cbn [from_transport].
  - intros H. inversion H. reflexivity.
  - intros H. symmetry.
    revert H. generalize (add_events w [Sent (request_of w m u b)]). intros w1 H.
    assert (F : frame eq
      (TikoApi.raise_for_status u resp ;;
       if String.eqb m "GET" && String.eqb u TikoApi.base_url then ret (JObj [])
       else
         if negb (str_contains "application/json"
                    match content_type resp with Some c => c | None => EmptyString end)
         then raise (Raise ClientError ("Unexpected content type: "
                    ++ match content_type resp with Some c => c | None => EmptyString end))
         else result <- lift (from_transport (json_body resp)) ;;
              TikoApi.check_errors result)).
    { pose proof raise_for_status_pure. pose proof check_errors_pure. frame_auto. }
    eapply F. exact H.
Qed.

End ApiFacts.

Section FetchFacts.

Variable srv : server.

Lemma quiet_refl w : quiet w w.
Proof. split; [apply same_objects_refl | reflexivity]. Qed.

Lemma quiet_trans a b c : quiet a b -> quiet b c -> quiet a c.
Proof.
  intros [O1 L1] [O2 L2]. split; [eapply same_objects_trans; eassumption | congruence].
Qed.

Lemma logins_app t1 t2 : logins (t1 ++ t2)%list = (logins t1 + logins t2)%nat.
Proof. unfold logins. rewrite filter_app, length_app. reflexivity. Qed.

Lemma make_request_quiet m u b :
  (match b with Some (LogIn _ _ _ _) => False | _ => True end) ->
  frame quiet (TikoApi._make_request srv m u b).
Proof.
  intros Hb w r w' H. apply make_request_world in H. subst w'.
  split; [repeat split | ].
  cbn [trace add_events]. rewrite logins_app.
  unfold logins at 2. cbn [filter is_login request_of body].
  destruct b as [[] | ]; cbn; try contradiction; lia.
Qed.

Lemma get_property_id_pure : frame eq TikoApi.get_property_id.
Proof.
  intros w r w' H. unfold TikoApi.get_property_id in H.
  destruct (property_id (api w)); inversion H; reflexivity.
Qed.

Lemma get_property_id_quiet : frame quiet TikoApi.get_property_id.
Proof.
  eapply frame_weaken; [ | apply get_property_id_pure].
  intros w w' <-. apply quiet_refl.
Qed.

Lemma get_rooms_quiet : frame quiet (TikoApi.get_rooms srv).
Proof.
  unfold TikoApi.get_rooms.
  apply frame_bind; [apply quiet_trans | apply get_property_id_quiet | intros pid].
  apply make_request_quiet. exact I.
Qed.

Lemma get_devices_quiet : frame quiet (TikoApi.get_devices srv).
Proof.
  unfold TikoApi.get_devices.
  apply frame_bind; [apply quiet_trans | apply get_property_id_quiet | intros pid].
  apply make_request_quiet. exact I.
Qed.

Lemma gather_frame (P : world -> world -> Prop) {A B} (a : M A) (b : M B) :
  (forall x y z, P x y -> P y z -> P x z) ->
  frame P a -> frame P b -> frame P (Coordinator.gather srv a b).
Proof.
  intros Ptrans Ha Hb w r w' H. unfold Coordinator.gather in H.
  destruct (a w) as [ra w1] eqn:Ea. destruct (b w1) as [rb w2] eqn:Eb.
  assert (P w w2) by (eapply Ptrans; [eapply Ha | eapply Hb]; eassumption).
  destruct ra, rb; inversion H; subst; assumption.
Qed.

Lemma fetch_both_quiet : frame quiet (Coordinator.fetch_both srv).
Proof.
  apply gather_frame; [apply quiet_trans | apply get_rooms_quiet | apply get_devices_quiet].
Qed.

(** [authenticate] never touches the two maps. *)
Lemma setters_maps :
  (forall v, frame same_maps (TikoApi.set_token v))
  /\ (forall v, frame same_maps (TikoApi.set_user_id v))
  /\ (forall v, frame same_maps (TikoApi.set_property_id v))
  /\ (forall h, frame same_maps (TikoApi.set_headers_Authorization h))
  /\ frame same_maps TikoApi.get_token.
Proof.
  assert (T : frame same_maps TikoApi.get_token).
  { intros w r w' H. unfold TikoApi.get_token in H.
    destruct (token (api w)); inversion H; split; reflexivity. }
  repeat (apply conj); try exact T;
    intros v w r w' H; inversion H; subst; split; reflexivity.
Qed.

Lemma make_request_maps m u b : frame same_maps (TikoApi._make_request srv m u b).
Proof.
  intros w r w' H. apply make_request_world in H. subst w'. split; reflexivity.
Qed.

Lemma authenticate_maps : frame same_maps (TikoApi.authenticate srv).
Proof.
  destruct setters_maps as (S1 & S2 & S3 & S4 & S5).
  pose proof make_request_maps as MR.
  unfold TikoApi.authenticate. frame_auto.
Qed.

End FetchFacts.

(* ===================================================================== *)
(** ** Which exceptions come from below the cycle                         *)
(* ===================================================================== *)

Section Raises.

Variable Q : exn -> Prop.

Lemma raises_ret {A} (x : A) : raises_only Q (ret x).
Proof. intros w e w' H. inversion H. Qed.

Lemma raises_get_world : raises_only Q get_world.
Proof. intros w e w' H. inversion H. Qed.

Lemma raises_raise {A} (e : exn) : Q e -> raises_only Q (@raise A e).
Proof. intros HQ w e' w' H. inversion H; subst. exact HQ. Qed.

Lemma raises_lift {A} (r : exn + A) :
  (forall e, r = inl e -> Q e) -> raises_only Q (lift r).
Proof. intros HQ w e w' H. inversion H; subst. apply HQ. reflexivity. Qed.

Lemma raises_bind {A B} (m : M A) (k : A -> M B) :
  raises_only Q m -> (forall x, raises_only Q (k x)) -> raises_only Q (bind m k).
Proof.
  intros Hm Hk w e w' H. unfold bind in H.
  destruct (m w) as [[e0 | x] w1] eqn:E.
  - inversion H; subst. eapply Hm; eassumption.
  - eapply Hk; eassumption.
Qed.

End Raises.

Lemma builtin_from_below e : builtin_error e -> from_below e.
Proof. unfold builtin_error, from_below. destruct (exn_cls e); tauto. Qed.

Lemma transport_from_below {A} (r : transport_exn + A) e :
  from_transport r = inl e -> from_below e.
Proof.
  destruct r as [[e0 He0] | x]; cbn; intros H; inversion H; subst.
  unfold is_TransportError in He0. unfold from_below.
  destruct (exn_cls e); try exact I; discriminate He0.
Qed.

Lemma contains_error k v e : contains k v = inl e -> builtin_error e.
Proof. destruct v; cbn; intros H; inversion H; exact I. Qed.

Lemma getitem_error v k e : getitem v k = inl e -> builtin_error e.
Proof.
  destruct v; cbn; try (intros H; inversion H; exact I).
  destruct (dict_get kvs k); intros H; inversion H; exact I.
Qed.

Lemma getitem0_error v e : getitem0 v = inl e -> builtin_error e.
Proof.
  destruct v; cbn; try (intros H; inversion H; exact I).
  - destruct (str_chars s); intros H; inversion H; exact I.
  - destruct l; intros H; inversion H; exact I.
Qed.

Lemma iter_error v e : iter v = inl e -> builtin_error e.
Proof. destruct v; cbn; intros H; inversion H; exact I. Qed.

Lemma dict_by_id_error items acc e :
  Coordinator.dict_by_id items acc = inl e -> builtin_error e.
Proof.
  revert acc. induction items as [ | x t IH]; intros acc; cbn.
  - discriminate.
  - destruct (getitem x "id") eqn:G.
    + intros H; inversion H; subst. eapply getitem_error; eassumption.
    + apply IH.
Qed.

Create HintDb raises.
#[local] Hint Resolve raises_ret raises_get_world : raises.
#[local] Hint Extern 1 (from_below _) => exact I : raises.

(** Splits a computation along its binds and branches, down to the
    operators whose exceptions are known. *)
Ltac raises_step :=
  match goal with
  | |- raises_only _ (bind _ _) => apply raises_bind; [ | intros ]
  | |- raises_only _ (if ?b then _ else _) => destruct b
  | |- raises_only _ (raise _) => apply raises_raise; exact I
  | |- raises_only _ (lift (from_transport _)) =>
      apply raises_lift; intros ? ?; eapply transport_from_below; eassumption
  | |- raises_only _ (lift _) =>
      apply raises_lift; intros ? ?; apply builtin_from_below;
      first [ eapply contains_error; eassumption
            | eapply getitem_error; eassumption
            | eapply getitem0_error; eassumption
            | eapply iter_error; eassumption
            | eapply dict_by_id_error; eassumption ]
  | |- raises_only _ _ => solve [eauto with raises]
  end.

Ltac raises_auto := repeat raises_step.

Section RaisedBelow.

Variable srv : server.

Lemma check_errors_raises result : raises_only from_below (TikoApi.check_errors result).
Proof. unfold TikoApi.check_errors. raises_auto. Qed.

Lemma session_request_raises m u b :
  raises_only from_below (TikoApi.session_request srv m u b).
Proof.
  intros w e w' H. rewrite session_request_run in H. inversion H.
  eapply transport_from_below; eassumption.
Qed.

Lemma make_request_raises m u b : raises_only from_below (TikoApi._make_request srv m u b).
Proof.
  pose proof check_errors_raises. pose proof session_request_raises.
  unfold TikoApi._make_request, TikoApi.raise_for_status.
  raises_auto.
Qed.

Lemma get_property_id_raises : raises_only from_below TikoApi.get_property_id.
Proof.
  intros w e w' H. unfold TikoApi.get_property_id in H.
  destruct (property_id (api w)); inversion H. exact I.
Qed.

Lemma gather_raises {A B} (a : M A) (b : M B) :
  raises_only from_below a -> raises_only from_below b ->
  raises_only from_below (Coordinator.gather srv a b).
Proof.
  intros Ha Hb w e w' H. unfold Coordinator.gather in H.
  destruct (a w) as [ra w1] eqn:Ea. destruct (b w1) as [rb w2] eqn:Eb.
  destruct ra as [ea | xa], rb as [eb | xb]; inversion H; subst.
  - destruct (second_fails_first srv (trace w)); [eapply Hb | eapply Ha]; eassumption.
  - eapply Ha; eassumption.
  - eapply Hb; eassumption.
Qed.

(** A fetch never raises ConfigEntryAuthFailed. *)
Lemma fetch_both_raises : raises_only from_below (Coordinator.fetch_both srv).
Proof.
  pose proof make_request_raises. pose proof get_property_id_raises.
  apply gather_raises; unfold TikoApi.get_rooms, TikoApi.get_devices; raises_auto.
Qed.

Lemma has_property_raises r : raises_only from_below (Coordinator.has_property r).
Proof. unfold Coordinator.has_property. raises_auto. Qed.

Lemma process_devices_raises_below d :
  raises_only from_below (Coordinator.process_devices d).
Proof.
  pose proof has_property_raises.
  unfold Coordinator.process_devices. raises_auto.
  intros w e w' H0. inversion H0.
Qed.

End RaisedBelow.

Lemma from_below_not_auth_failed e : from_below e -> is_ConfigEntryAuthFailed e = false.
Proof. unfold from_below, is_ConfigEntryAuthFailed. destruct (exn_cls e); tauto. Qed.


(* ===================================================================== *)
(** ** The refresh cycle                                                  *)
(* ===================================================================== *)

Section CycleFacts.

Variable srv : server.

Lemma has_property_pure result : frame eq (Coordinator.has_property result).
Proof. unfold Coordinator.has_property. frame_auto. Qed.

(** Processing a reply fails before it assigns. *)
Lemma process_rooms_raises r w e w' :
  Coordinator.process_rooms r w = (inl e, w') -> w' = w.
Proof.
  unfold Coordinator.process_rooms, bind, lift, raise, set_rooms.
  destruct (Coordinator.has_property r w) as [[e0 | ok] w0] eqn:E.
  - apply has_property_pure in E. intros H; inversion H; congruence.
  - apply has_property_pure in E. subst w0. destruct ok.
    + repeat match goal with
             | |- context [match ?x with inl _ => _ | inr _ => _ end] => destruct x
             end; intros H; inversion H; reflexivity.
    + intros H; inversion H; reflexivity.
Qed.

Lemma process_devices_raises r w e w' :
  Coordinator.process_devices r w = (inl e, w') -> w' = w.
Proof.
  unfold Coordinator.process_devices, bind, lift, raise, set_devices.
  destruct (Coordinator.has_property r w) as [[e0 | ok] w0] eqn:E.
  - apply has_property_pure in E. intros H; inversion H; congruence.
  - apply has_property_pure in E. subst w0. destruct ok.
    + repeat match goal with
             | |- context [match ?x with inl _ => _ | inr _ => _ end] => destruct x
             end; intros H; inversion H; reflexivity.
    + intros H; inversion H; reflexivity.
Qed.

(** Processing a reply that is accepted assigns one map and nothing else. *)
Lemma process_rooms_returns r w w' :
  Coordinator.process_rooms r w = (inr tt, w') ->
  api w' = api w /\ devices w' = devices w /\ trace w' = trace w.
Proof.
  unfold Coordinator.process_rooms, bind, lift, raise, set_rooms.
  destruct (Coordinator.has_property r w) as [[e0 | ok] w0] eqn:E.
  - intros H; inversion H.
  - apply has_property_pure in E. subst w0. destruct ok.
    + repeat match goal with
             | |- context [match ?x with inl _ => _ | inr _ => _ end] => destruct x
             end; intros H; inversion H; repeat split.
    + intros H; inversion H.
Qed.

Lemma process_devices_returns r w w' :
  Coordinator.process_devices r w = (inr tt, w') ->
  api w' = api w /\ rooms w' = rooms w /\ trace w' = trace w.
Proof.
  unfold Coordinator.process_devices, bind, lift, raise, set_devices.
  destruct (Coordinator.has_property r w) as [[e0 | ok] w0] eqn:E.
  - intros H; inversion H.
  - apply has_property_pure in E. subst w0. destruct ok.
    + repeat match goal with
             | |- context [match ?x with inl _ => _ | inr _ => _ end] => destruct x
             end; intros H; inversion H; repeat split.
    + intros H; inversion H.
Qed.

(** The cycle of a client that holds a token starts with the fetch. *)
Lemma cycle_with_token w :
  token (api w) <> None ->
  Coordinator.update_body srv w
  = (results <-
       try_except (Coordinator.fetch_both srv)
         (fun err =>
            if negb (str_contains "Authentication failed" (exn_str err)) then raise err
            else TikoApi.authenticate srv ;; Coordinator.fetch_both srv) ;;
     Coordinator.process_rooms (fst results) ;;
     Coordinator.process_devices (snd results) ;;
     w' <- get_world ;;
     ret (JObj [("rooms", JObj (rooms w')); ("devices", JObj (devices w'))])) w.
Proof.
  intros Htok. unfold Coordinator.update_body.
  unfold bind at 1. unfold Coordinator.hasattr_token.
  destruct (token (api w)); [ | congruence].
  unfold bind at 1. reflexivity.
Qed.

(** A fetch that fails with an error that is not read as an expired token
    ends the cycle: UpdateFailed, both maps as before. *)
Lemma cycle_fetch_failure w e w1 :
  token (api w) <> None ->
  Coordinator.fetch_both srv w = (inl e, w1) ->
  str_contains "Authentication failed" (exn_str e) = false ->
  is_ConfigEntryAuthFailed e = false ->
  Coordinator._async_update_data srv w
  = (inl (Raise UpdateFailed ("Error communicating with API: " ++ exn_str e)), w1)
  /\ same_objects w w1.
Proof.
  intros Htok Hf Hs Hc. split.
  - unfold Coordinator._async_update_data. unfold try_except at 1.
    rewrite cycle_with_token by assumption.
    unfold bind at 1. unfold try_except at 1. rewrite Hf, Hs. cbn [negb].
    unfold raise. rewrite Hc. reflexivity.
  - apply fetch_both_quiet in Hf. apply Hf.
Qed.

End CycleFacts.

Lemma transport_error_is_not_auth_failed e :
  is_TransportError e = true -> is_ConfigEntryAuthFailed e = false.
Proof.
  unfold is_TransportError, is_ConfigEntryAuthFailed. destruct (exn_cls e); congruence.
Qed.

(** C4. After a cycle whose dual fetch fails with a transport error that is
    not read as an expired token, the cycle has raised UpdateFailed and the
    rooms map and the devices map are the ones it started with. *)
Theorem transport_failure_keeps_snapshot
    (srv : server) (w : world) (e : exn) (w1 : world) :
  token (api w) <> None ->
  Coordinator.fetch_both srv w = (inl e, w1) ->
  is_TransportError e = true ->
  str_contains "Authentication failed" (exn_str e) = false ->
  exists w',
    Coordinator._async_update_data srv w
    = (inl (Raise UpdateFailed ("Error communicating with API: " ++ exn_str e)), w')
    /\ rooms w' = rooms w /\ devices w' = devices w.
Proof.
  intros Htok Hf Ht Hs. exists w1.
  destruct (cycle_fetch_failure srv w e w1 Htok Hf Hs
              (transport_error_is_not_auth_failed e Ht)) as [Hrun (_ & Hr & Hd)].
  auto.
Qed.

Lemma transport_failure_keeps_snapshot_witness :
  let run :=
    Coordinator._async_update_data (Scenario.rejecting_service Scenario.unreachable)
      Scenario.after_good_cycle in
  fst run = inl (Raise UpdateFailed
      "Error communicating with API: Cannot connect to host particuliers-tiko.fr:443")
  /\ rooms (snd run) = rooms Scenario.after_good_cycle
  /\ devices (snd run) = devices Scenario.after_good_cycle.
Proof.
  set (srv := Scenario.rejecting_service _). intros run.
  assert (Htok : token (api Scenario.after_good_cycle) <> None) by discriminate.
  destruct (Coordinator.fetch_both srv Scenario.after_good_cycle) as [[e | rd] w1] eqn:F;
    [ | vm_compute in F; discriminate].
  assert (He : e = Raise ClientError "Cannot connect to host particuliers-tiko.fr:443").
  { pose proof F as F'. vm_compute in F'. inversion F'. reflexivity. }
  destruct (transport_failure_keeps_snapshot srv Scenario.after_good_cycle e w1 Htok F)
    as (w' & Hrun & Hr & Hd).
  - rewrite He. reflexivity.
  - rewrite He. reflexivity.
  - subst run. rewrite Hrun. cbn [fst snd]. rewrite He. repeat split; assumption.
Defined.

Example fresh_is_init : Coordinator.__init__ "user@example.org" (Urllib.of_ascii "secret") = inr Scenario.fresh.
Proof. reflexivity. Qed.

Example good_cycle_from_fresh :
  exists w,
    Coordinator._async_update_data
      (Scenario.service (Scenario.ok_json (Scenario.login_reply [JObj [("id", JInt 5)]]))
         (Scenario.ok_json (Scenario.rooms_reply [Scenario.kitchen]))
         (Scenario.ok_json (Scenario.devices_reply [Scenario.heater]))
         (Scenario.ok_json (JObj [])))
      Scenario.fresh
    = (inr (JObj [("rooms", JObj (rooms Scenario.after_good_cycle));
                  ("devices", JObj (devices Scenario.after_good_cycle))]), w)
    /\ api w = Scenario.logged_in
    /\ rooms w = rooms Scenario.after_good_cycle
    /\ devices w = devices Scenario.after_good_cycle
    /\ List.length (trace w) = 4%nat.
Proof. eexists. vm_compute. repeat split. Qed.

(** A reply whose errors list is empty fails on the index, and a login
    reply whose data is null fails on the attribute. *)
Example empty_errors_list :
  fst (TikoApi._make_request
         (Scenario.rejecting_service
            (Scenario.ok_json (JObj [("errors", JList [])])))
         "POST" TikoApi.api_url (Some (GetRooms (JInt 5))) Scenario.after_good_cycle)
  = inl (Raise IndexError "list index out of range").
Proof. reflexivity. Qed.

Example null_login_data :
  fst (TikoApi.authenticate
         (Scenario.service (Scenario.ok_json (JObj [("data", JNull)]))
            Scenario.expired Scenario.expired Scenario.expired)
         Scenario.fresh)
  = inl (Raise AttributeError "'NoneType' object has no attribute 'get'").
Proof. reflexivity. Qed.

(** A login reply without the logIn entry is an authentication error and
    leaves the client without a token. *)
Example missing_login_entry :
  let run :=
    TikoApi.authenticate
      (Scenario.service (Scenario.ok_json (JObj [("data", JObj [("logIn", JNull)])]))
         Scenario.expired Scenario.expired Scenario.expired)
      Scenario.fresh in
  fst run = inl (Raise TikoAuthenticationError "Authentication failed")
  /\ token (api (snd run)) = None.
Proof. vm_compute. split; reflexivity. Qed.

Section DecodedReplies.

Variable srv : server.

(** A request whose reply is decoded ends as the inspection of the decoded
    value for an application-level error. *)
Lemma make_request_decoded m u b w resp v :
  respond srv (trace w) (request_of w m u b) = inr resp ->
  decodes_to resp v ->
  String.eqb m "GET" && String.eqb u TikoApi.base_url = false ->
  TikoApi._make_request srv m u b w
  = TikoApi.check_errors v (add_events w [Sent (request_of w m u b)]).
Proof.
  intros Hr (Hs & Hc & Hj) Hm.
  unfold TikoApi._make_request. unfold bind at 1. rewrite session_request_run, Hr.
  cbn [from_transport].
  unfold bind at 1. unfold TikoApi.raise_for_status.
  replace (400 <=? status resp)%Z with false by (symmetry; apply Z.leb_gt; exact Hs).
  unfold ret at 1. rewrite Hm, Hc. cbn [negb]. rewrite Hj. cbn [from_transport].
  unfold bind at 1. unfold lift at 1. reflexivity.
Qed.

Lemma get_rooms_answer v w r w' :
  answers_rooms srv v ->
  (forall w0, TikoApi.check_errors v w0 = (inr v, w0)) ->
  TikoApi.get_rooms srv w = (inr r, w') -> r = v.
Proof.
  intros Ha Hv. unfold TikoApi.get_rooms. unfold bind at 1.
  unfold TikoApi.get_property_id. destruct (property_id (api w)) as [pid | ].
  - destruct (Ha (trace w) (request_of w "POST" TikoApi.api_url (Some (GetRooms pid))) pid
                eq_refl) as (resp & Hr & Hd).
    rewrite (make_request_decoded _ _ _ _ _ _ Hr Hd eq_refl), Hv.
    intros H. inversion H. reflexivity.
  - intros H. inversion H.
Qed.

Lemma fetch_both_rooms_answer v w r d w' :
  answers_rooms srv v ->
  (forall w0, TikoApi.check_errors v w0 = (inr v, w0)) ->
  Coordinator.fetch_both srv w = (inr (r, d), w') -> r = v.
Proof.
  intros Ha Hv. unfold Coordinator.fetch_both, Coordinator.gather.
  destruct (TikoApi.get_rooms srv w) as [[e | r0] w1] eqn:E1;
    destruct (TikoApi.get_devices srv w1) as [[e' | d0] w2]; intros H; inversion H; subst.
  eapply get_rooms_answer; eassumption.
Qed.

(** A cycle that returns has processed the two replies of one fetch. *)
Lemma cycle_returns_inv w snap w2 :
  Coordinator._async_update_data srv w = (inr snap, w2) ->
  exists wf r d w1,
    Coordinator.fetch_both srv wf = (inr (r, d), w1)
    /\ (Coordinator.process_rooms r ;;
        Coordinator.process_devices d ;;
        w' <- get_world ;;
        ret (JObj [("rooms", JObj (rooms w')); ("devices", JObj (devices w'))])) w1
       = (inr snap, w2).
Proof.
  unfold Coordinator._async_update_data. unfold try_except at 1.
  destruct (Coordinator.update_body srv w) as [[e | snap0] w0] eqn:E.
  { destruct (is_ConfigEntryAuthFailed e); intros H; inversion H. }
  intros H; inversion H; subst snap0 w0; clear H.
  revert E. unfold Coordinator.update_body. unfold bind at 1.
  unfold Coordinator.hasattr_token.
  set (rest := fun results : json * json => _).
  assert (K : forall wa,
    bind (try_except (Coordinator.fetch_both srv)
            (fun err =>
               if negb (str_contains "Authentication failed" (exn_str err)) then raise err
               else TikoApi.authenticate srv ;; Coordinator.fetch_both srv)) rest wa
    = (inr snap, w2) ->
    exists wf r d w1,
      Coordinator.fetch_both srv wf = (inr (r, d), w1) /\ rest (r, d) w1 = (inr snap, w2)).
  { intros wa. unfold bind at 1. unfold try_except at 1.
    destruct (Coordinator.fetch_both srv wa) as [[e | [r d]] w1] eqn:F.
    - destruct (negb (str_contains "Authentication failed" (exn_str e))).
      + unfold raise. intros H; inversion H.
      + unfold bind at 1.
        destruct (TikoApi.authenticate srv w1) as [[e' | []] w1'].
        * intros H; inversion H.
        * destruct (Coordinator.fetch_both srv w1') as [[e' | [r d]] w1''] eqn:F2.
          -- intros H; inversion H.
          -- intros H. exists w1', r, d, w1''. split; assumption.
    - intros H. exists wa, r, d, w1. split; assumption. }
  destruct (token (api w)).
  - unfold bind at 1. unfold ret at 1. apply K.
  - unfold bind at 1. unfold try_except at 1.
    destruct (TikoApi.authenticate srv w) as [[e' | []] wa].
    + unfold raise. intros H; inversion H.
    + apply K.
Qed.

End DecodedReplies.

(** C9. In a cycle that returns, with GetRooms answered by the one room
    42 Lounge 19.5 / 21.0 heating, the rooms map has the single key 42, the
    entity of that room reads 19.5 and 21.0 and its action is heating. *)
Theorem lounge_snapshot (srv : server) (w : world) (snap : json) (w' : world) :
  answers_rooms srv (Scenario.rooms_reply [Scenario.lounge]) ->
  Coordinator._async_update_data srv w = (inr snap, w') ->
  rooms w' = [("42", Scenario.lounge)]
  /\ dict_keys (rooms w') = ["42"]
  /\ snap = JObj [("rooms", JObj (rooms w')); ("devices", JObj (devices w'))]
  /\ Climate.current_temperature w' "42" = inr (JFloat "19.5")
  /\ Climate.target_temperature w' "42" = inr (JFloat "21.0")
  /\ Climate.hvac_action w' "42" = inr Climate.HEATING
  /\ Climate.HVACAction_value Climate.HEATING = "heating".
Proof.
  intros Ha Hrun.
  destruct (cycle_returns_inv srv w snap w' Hrun) as (wf & r & d & w1 & Hf & Hp).
  assert (r = Scenario.rooms_reply [Scenario.lounge]) as ->.
  { eapply fetch_both_rooms_answer; [exact Ha | reflexivity | exact Hf]. }
  unfold bind at 1 in Hp.
  change (Coordinator.process_rooms (Scenario.rooms_reply [Scenario.lounge]) w1)
    with (@inr exn unit tt,
          {| api := api w1; rooms := [("42", Scenario.lounge)];
             devices := devices w1; trace := trace w1 |}) in Hp.
  cbv beta iota in Hp. unfold bind at 1 in Hp.
  match type of Hp with
  | context [Coordinator.process_devices d ?w0] =>
      destruct (Coordinator.process_devices d w0) as [[e | []] w2] eqn:D
  end; [inversion Hp | ].
  apply process_devices_returns in D. destruct D as (_ & Hrooms & _).
  cbn [rooms] in Hrooms.
  unfold bind, get_world, ret in Hp. inversion Hp; subst w2 snap; clear Hp.
  assert (Hget : Climate.room_data w' "42" = Scenario.lounge).
  { unfold Climate.room_data. rewrite Hrooms. reflexivity. }
  unfold Climate.current_temperature, Climate.target_temperature, Climate.hvac_action,
    Climate.heating_operating.
  rewrite Hget, Hrooms. repeat split.
Qed.

Lemma lounge_service_answers :
  answers_rooms Scenario.lounge_service (Scenario.rooms_reply [Scenario.lounge]).
Proof.
  intros hist req pid Hb. eexists. split.
  - cbn [respond Scenario.lounge_service Scenario.service]. rewrite Hb. reflexivity.
  - repeat split; reflexivity.
Qed.

Lemma lounge_snapshot_witness :
  let run := Coordinator._async_update_data Scenario.lounge_service Scenario.fresh in
  (exists snap, fst run = inr snap)
  /\ rooms (snd run) = [("42", Scenario.lounge)]
  /\ Climate.current_temperature (snd run) "42" = inr (JFloat "19.5")
  /\ Climate.target_temperature (snd run) "42" = inr (JFloat "21.0")
  /\ Climate.hvac_action (snd run) "42" = inr Climate.HEATING.
Proof.
  intros run.
  destruct run as [[e | snap] w'] eqn:R; [vm_compute in R; discriminate | ].
  destruct (lounge_snapshot Scenario.lounge_service Scenario.fresh snap w'
              lounge_service_answers R) as (H1 & _ & _ & H4 & H5 & H6 & _).
  cbn [fst snd]. split; [exists snap; reflexivity | auto].
Defined.

(* ===================================================================== *)
(** ** Authentication                                                     *)
(* ===================================================================== *)

Lemma bind_inv {A B} (m : M A) (k : A -> M B) w r w' :
  bind m k w = (r, w') ->
  (exists e, m w = (inl e, w') /\ r = inl e)
  \/ (exists x w1, m w = (inr x, w1) /\ k x w1 = (r, w')).
Proof.
  unfold bind. destruct (m w) as [[e | x] w1].
  - intros H; inversion H; subst. left. exists e. split; reflexivity.
  - intros H. right. exists x, w1. split; [reflexivity | exact H].
Qed.

(** Inverts the first bind of a run that returned. *)
Tactic Notation "returned_step" hyp(H) ident(x) ident(w1) ident(Hs) :=
  let e := fresh "e" in
  let Hr := fresh "Hr" in
  apply bind_inv in H;
  destruct H as [(e & _ & Hr) | (x & w1 & Hs & H)]; [discriminate Hr | ].

Section LoginRequest.

Variable srv : server.

Lemma setters_trace :
  (forall v, frame same_trace (TikoApi.set_token v))
  /\ (forall v, frame same_trace (TikoApi.set_user_id v))
  /\ (forall v, frame same_trace (TikoApi.set_property_id v))
  /\ (forall h, frame same_trace (TikoApi.set_headers_Authorization h))
  /\ frame same_trace TikoApi.get_token.
Proof.
  assert (T : frame same_trace TikoApi.get_token).
  { intros w r w' H. unfold TikoApi.get_token in H.
    destruct (token (api w)); inversion H; reflexivity. }
  repeat (apply conj); try exact T;
    intros v w r w' H; inversion H; subst; reflexivity.
Qed.

(** Once the first request of the handshake has returned, the second one
    is the login request built from the stored password. *)
Lemma authenticate_sends_login w x w1 r w' :
  TikoApi._make_request srv "GET" TikoApi.base_url None w = (inr x, w1) ->
  TikoApi.authenticate srv w = (r, w') ->
  trace w' = (trace w ++ [Sent (prime_request w); Sent (login_request w)])%list.
Proof.
  intros H1 H. pose proof (make_request_world _ _ _ _ _ _ _ H1) as E1.
  unfold TikoApi.authenticate in H. unfold bind at 1 in H. rewrite H1 in H.
  unfold bind at 1 in H. unfold get_world at 1 in H.
  apply bind_inv in H.
  assert (T2 : forall r2 w2,
            TikoApi._make_request srv "POST" TikoApi.api_url
              (Some (LogIn (email (api w1)) (Urllib.unquote (password (api w1))) "fr" true))
              w1 = (r2, w2) ->
            trace w2 = (trace w ++ [Sent (prime_request w); Sent (login_request w)])%list).
  { intros r2 w2 H2. apply make_request_world in H2. subst w2 w1.
    cbn. rewrite <- app_assoc. reflexivity. }
  destruct H as [(e & H2 & _) | (result & w2 & H2 & H)].
  - eapply T2. exact H2.
  - rewrite <- (T2 _ _ H2).
    destruct setters_trace as (S1 & S2 & S3 & S4 & S5).
    match type of H with
    | ?m w2 = _ => assert (F : frame same_trace m) by frame_auto
    end.
    exact (F _ _ _ H).
Qed.

End LoginRequest.

(** A login that returns has sent one login request. *)
Lemma authenticate_logins srv w w' :
  TikoApi.authenticate srv w = (inr tt, w') ->
  logins (trace w') = S (logins (trace w)).
Proof.
  intros H.
  destruct (TikoApi._make_request srv "GET" TikoApi.base_url None w) as [[e | x] w1] eqn:H1.
  - unfold TikoApi.authenticate in H. unfold bind at 1 in H. rewrite H1 in H. discriminate H.
  - rewrite (authenticate_sends_login srv _ _ _ _ _ H1 H).
    rewrite logins_app. cbn. lia.
Qed.

(* ===================================================================== *)
(** ** Expired token: one new login, one new fetch                        *)
(* ===================================================================== *)

(** What an accepted rooms reply assigns. *)
Lemma process_rooms_assigns r w w' :
  Coordinator.process_rooms r w = (inr tt, w') ->
  exists data property rs items,
    getitem r "data" = inr data /\ getitem data "property" = inr property
    /\ getitem property "rooms" = inr rs /\ iter rs = inr items
    /\ Coordinator.dict_by_id items [] = inr (rooms w').
Proof.
  intros H. unfold Coordinator.process_rooms in H.
  returned_step H ok w0 Hs. apply has_property_pure in Hs. subst w0.
  destruct ok; [ | discriminate H].
  returned_step H data w0 G1. unfold lift in G1. inversion G1 as [[G1' Ew]]; subst w0; clear G1.
  returned_step H property w0 G2. unfold lift in G2. inversion G2 as [[G2' Ew]]; subst w0; clear G2.
  returned_step H rs w0 G3. unfold lift in G3. inversion G3 as [[G3' Ew]]; subst w0; clear G3.
  returned_step H items w0 G4. unfold lift in G4. inversion G4 as [[G4' Ew]]; subst w0; clear G4.
  returned_step H d w0 G5. unfold lift in G5. inversion G5 as [[G5' Ew]]; subst w0; clear G5.
  unfold set_rooms in H. inversion H; subst w'; clear H.
  exists data, property, rs, items. cbn [rooms]. repeat split; assumption.
Qed.

Lemma process_devices_assigns r w w' :
  Coordinator.process_devices r w = (inr tt, w') ->
  exists data property ds items,
    getitem r "data" = inr data /\ getitem data "property" = inr property
    /\ getitem property "devices" = inr ds /\ iter ds = inr items
    /\ Coordinator.dict_by_id items [] = inr (devices w').
Proof.
  intros H. unfold Coordinator.process_devices in H.
  returned_step H ok w0 Hs. apply has_property_pure in Hs. subst w0.
  destruct ok; [ | discriminate H].
  returned_step H data w0 G1. unfold lift in G1. inversion G1 as [[G1' Ew]]; subst w0; clear G1.
  returned_step H property w0 G2. unfold lift in G2. inversion G2 as [[G2' Ew]]; subst w0; clear G2.
  returned_step H ds w0 G3. unfold lift in G3. inversion G3 as [[G3' Ew]]; subst w0; clear G3.
  returned_step H items w0 G4. unfold lift in G4. inversion G4 as [[G4' Ew]]; subst w0; clear G4.
  returned_step H d w0 G5. unfold lift in G5. inversion G5 as [[G5' Ew]]; subst w0; clear G5.
  unfold set_devices in H. inversion H; subst w'; clear H.
  exists data, property, ds, items. cbn [devices]. repeat split; assumption.
Qed.

(** The map that an accepted reply leaves is the map of that reply. *)
Lemma process_rooms_map r w w' :
  Coordinator.process_rooms r w = (inr tt, w') -> map_of_reply r "rooms" = inr (rooms w').
Proof.
  intros H. destruct (process_rooms_assigns _ _ _ H) as (a & b & c & l & H1 & H2 & H3 & H4 & H5).
  unfold map_of_reply. rewrite H1, H2, H3, H4. exact H5.
Qed.

Lemma process_devices_map r w w' :
  Coordinator.process_devices r w = (inr tt, w') ->
  map_of_reply r "devices" = inr (devices w').
Proof.
  intros H.
  destruct (process_devices_assigns _ _ _ H) as (a & b & c & l & H1 & H2 & H3 & H4 & H5).
  unfold map_of_reply. rewrite H1, H2, H3, H4. exact H5.
Qed.

Section RetryFacts.

Variable srv : server.

Lemma cycle_retry w e w1 w2 :
  token (api w) <> None ->
  Coordinator.fetch_both srv w = (inl e, w1) ->
  str_contains "Authentication failed" (exn_str e) = true ->
  TikoApi.authenticate srv w1 = (inr tt, w2) ->
  Coordinator.update_body srv w
  = (results <- Coordinator.fetch_both srv ;;
     Coordinator.process_rooms (fst results) ;;
     Coordinator.process_devices (snd results) ;;
     w' <- get_world ;;
     ret (JObj [("rooms", JObj (rooms w')); ("devices", JObj (devices w'))])) w2.
Proof.
  intros Htok Hf Hs Ha. rewrite cycle_with_token by assumption.
  unfold bind at 1. unfold try_except at 1. rewrite Hf, Hs. cbn [negb].
  unfold bind at 1. rewrite Ha. unfold bind at 4. reflexivity.
Qed.

End RetryFacts.

(** C3. A client that holds a token and whose fetch fails with an error
    read as an expired token logs in again once; when the second fetch
    returns two accepted replies the cycle returns their data: the rooms
    map and the devices map that it leaves and returns are the maps of the
    two replies of the second fetch; and when the second fetch fails the
    cycle raises UpdateFailed with the maps as they were, in both cases
    with exactly one login in the cycle. *)
Theorem expired_token_retry
    (srv : server) (w : world) (e : exn) (w1 w2 : world) :
  token (api w) <> None ->
  Coordinator.fetch_both srv w = (inl e, w1) ->
  str_contains "Authentication failed" (exn_str e) = true ->
  TikoApi.authenticate srv w1 = (inr tt, w2) ->
  (forall r d w3 w4 w5,
      Coordinator.fetch_both srv w2 = (inr (r, d), w3) ->
      Coordinator.process_rooms r w3 = (inr tt, w4) ->
      Coordinator.process_devices d w4 = (inr tt, w5) ->
      Coordinator._async_update_data srv w
      = (inr (JObj [("rooms", JObj (rooms w5)); ("devices", JObj (devices w5))]), w5)
      /\ logins (trace w5) = S (logins (trace w))
      /\ map_of_reply r "rooms" = inr (rooms w5)
      /\ map_of_reply d "devices" = inr (devices w5))
  /\ (forall e2 w3,
      Coordinator.fetch_both srv w2 = (inl e2, w3) ->
      Coordinator._async_update_data srv w
      = (inl (Raise UpdateFailed ("Error communicating with API: " ++ exn_str e2)), w3)
      /\ logins (trace w3) = S (logins (trace w))
      /\ rooms w3 = rooms w /\ devices w3 = devices w).
Proof.
  intros Htok Hf Hs Ha.
  pose proof (cycle_retry srv w e w1 w2 Htok Hf Hs Ha) as Hbody.
  pose proof (fetch_both_quiet srv _ _ _ Hf) as [_ L1].
  pose proof (authenticate_logins srv _ _ Ha) as L2.
  pose proof (fetch_both_quiet srv _ _ _ Hf) as [(_ & R1 & D1) _].
  pose proof (authenticate_maps srv _ _ _ Ha) as [R2 D2].
  split.
  - intros r d w3 w4 w5 Hf2 Hr Hd.
    pose proof (fetch_both_quiet srv _ _ _ Hf2) as [_ L3].
    pose proof (process_rooms_returns _ _ _ Hr) as (_ & _ & T4).
    pose proof (process_devices_returns _ _ _ Hd) as (_ & R5 & T5).
    split; [ | split; [congruence | split]];
      [ | rewrite R5; exact (process_rooms_map _ _ _ Hr)
        | exact (process_devices_map _ _ _ Hd)].
    unfold Coordinator._async_update_data. unfold try_except at 1. rewrite Hbody.
    unfold bind at 1. rewrite Hf2. cbn [fst snd].
    unfold bind at 1. rewrite Hr. unfold bind at 1. rewrite Hd.
    reflexivity.
  - intros e2 w3 Hf2.
    pose proof (from_below_not_auth_failed _ (fetch_both_raises srv _ _ _ Hf2)) as Hc.
    pose proof (fetch_both_quiet srv _ _ _ Hf2) as [(_ & R3 & D3) L3].
    repeat split; try congruence.
    unfold Coordinator._async_update_data. unfold try_except at 1. rewrite Hbody.
    unfold bind at 1. rewrite Hf2, Hc. reflexivity.
Qed.

Lemma expired_token_retry_witness :
  (let valve :=
     JObj [("id", JInt 9); ("code", JStr "V9"); ("type", JStr "valve");
           ("name", JStr "Valve"); ("mac", JStr "00:11:22:33:44:99")] in
   let run :=
     Coordinator._async_update_data
       (Scenario.service_after_login Scenario.expired
          (Scenario.rooms_reply [Scenario.lounge]) (Scenario.devices_reply [valve]))
       Scenario.after_good_cycle in
   fst run = inr (JObj [("rooms", JObj [("42", Scenario.lounge)]);
                        ("devices", JObj [("9", valve)])])
   /\ rooms (snd run) = [("42", Scenario.lounge)]
   /\ devices (snd run) = [("9", valve)]
   /\ rooms Scenario.after_good_cycle = [("7", Scenario.kitchen)]
   /\ devices Scenario.after_good_cycle = [("3", Scenario.heater)]
   /\ logins (trace (snd run)) = 1%nat)
  /\ (let run :=
        Coordinator._async_update_data (Scenario.rejecting_service Scenario.expired)
          Scenario.after_good_cycle in
      fst run = inl (Raise UpdateFailed "Error communicating with API: Authentication failed")
      /\ logins (trace (snd run)) = 1%nat
      /\ rooms (snd run) = rooms Scenario.after_good_cycle
      /\ devices (snd run) = devices Scenario.after_good_cycle).
Proof.
  assert (Htok : token (api Scenario.after_good_cycle) <> None) by discriminate.
  split.
  - intros valve. set (srv := Scenario.service_after_login _ _ _). intros run.
    destruct (Coordinator.fetch_both srv Scenario.after_good_cycle) as [[e | rd] w1] eqn:F1;
      [ | vm_compute in F1; discriminate].
    destruct (TikoApi.authenticate srv w1) as [[e' | []] w2] eqn:A;
      [eval_run F1; vm_compute in A; discriminate | ].
    destruct (Coordinator.fetch_both srv w2) as [[e2 | [r d]] w3] eqn:F2;
      [eval_run F1; eval_run A; vm_compute in F2; discriminate | ].
    destruct (Coordinator.process_rooms r w3) as [[e3 | []] w4] eqn:P1;
      [eval_run F1; eval_run A; eval_run F2; vm_compute in P1; discriminate | ].
    destruct (Coordinator.process_devices d w4) as [[e4 | []] w5] eqn:P2;
      [eval_run F1; eval_run A; eval_run F2; eval_run P1; vm_compute in P2; discriminate | ].
    assert (Hs : str_contains "Authentication failed" (exn_str e) = true)
      by (eval_run F1; reflexivity).
    destruct (expired_token_retry srv _ e w1 w2 Htok F1 Hs A) as [Hok _].
    destruct (Hok r d w3 w4 w5 F2 P1 P2) as (Hrun & Hl & Mr & Md).
    subst run. rewrite Hrun. cbn [fst snd].
    assert (Er : rooms w5 = [("42", Scenario.lounge)]).
    { eval_run F1. eval_run A. eval_run F2. vm_compute in Mr.
      injection Mr as Mr. symmetry. exact Mr. }
    assert (Ed : devices w5 = [("9", valve)]).
    { eval_run F1. eval_run A. eval_run F2. vm_compute in Md.
      injection Md as Md. symmetry. exact Md. }
    rewrite Er, Ed. repeat split. exact Hl.
  - set (srv := Scenario.rejecting_service _). intros run.
    destruct (Coordinator.fetch_both srv Scenario.after_good_cycle) as [[e | rd] w1] eqn:F1;
      [ | vm_compute in F1; discriminate].
    destruct (TikoApi.authenticate srv w1) as [[e' | []] w2] eqn:A;
      [eval_run F1; vm_compute in A; discriminate | ].
    destruct (Coordinator.fetch_both srv w2) as [[e2 | rd] w3] eqn:F2;
      [ | eval_run F1; eval_run A; vm_compute in F2; discriminate].
    assert (Hs : str_contains "Authentication failed" (exn_str e) = true)
      by (eval_run F1; reflexivity).
    destruct (expired_token_retry srv _ e w1 w2 Htok F1 Hs A) as [_ Hko].
    destruct (Hko e2 w3 F2) as (Hrun & Hl & Hr & Hd).
    subst run. rewrite Hrun. cbn [fst snd]. repeat split; try assumption.
    eval_run F1. eval_run A. eval_run F2. reflexivity.
Defined.

(* ===================================================================== *)
(** ** A cycle that fails after the rooms were assigned                   *)
(* ===================================================================== *)

(** When the devices reply is rejected after the rooms reply was accepted,
    the cycle ends in the world that the assignment of the rooms left. *)
Lemma cycle_fails_after_rooms srv w r d w1 w2 e w3 :
  token (api w) <> None ->
  Coordinator.fetch_both srv w = (inr (r, d), w1) ->
  Coordinator.process_rooms r w1 = (inr tt, w2) ->
  Coordinator.process_devices d w2 = (inl e, w3) ->
  Coordinator._async_update_data srv w
  = (inl (Raise UpdateFailed ("Error communicating with API: " ++ exn_str e)), w2)
  /\ devices w2 = devices w.
Proof.
  intros Htok Hf Hr Hd.
  pose proof (from_below_not_auth_failed _
                (process_devices_raises_below d _ _ _ Hd)) as Hc.
  pose proof (process_devices_raises _ _ _ _ Hd) as ->.
  pose proof (fetch_both_quiet srv _ _ _ Hf) as [(_ & _ & D1) _].
  pose proof (process_rooms_returns _ _ _ Hr) as (_ & D2 & _).
  split; [ | congruence].
  unfold Coordinator._async_update_data. unfold try_except at 1.
  rewrite cycle_with_token by assumption.
  unfold bind at 1. unfold try_except at 1. rewrite Hf. cbn [fst snd].
  unfold bind at 1. rewrite Hr. unfold bind at 1. rewrite Hd, Hc. reflexivity.
Qed.

(** When the rooms reply is rejected, nothing was assigned. *)
Lemma cycle_fails_at_rooms srv w r d w1 e w2 :
  token (api w) <> None ->
  Coordinator.fetch_both srv w = (inr (r, d), w1) ->
  Coordinator.process_rooms r w1 = (inl e, w2) ->
  exists e', Coordinator._async_update_data srv w = (inl e', w1)
             /\ rooms w1 = rooms w /\ devices w1 = devices w.
Proof.
  intros Htok Hf Hr.
  pose proof (process_rooms_raises _ _ _ _ Hr) as ->.
  pose proof (fetch_both_quiet srv _ _ _ Hf) as [(_ & R1 & D1) _].
  unfold Coordinator._async_update_data. unfold try_except at 1.
  rewrite cycle_with_token by assumption.
  unfold bind at 1. unfold try_except at 1. rewrite Hf. cbn [fst snd].
  unfold bind at 1. rewrite Hr.
  destruct (is_ConfigEntryAuthFailed e); eexists; repeat split; assumption.
Qed.

(** C1. After a good cycle (rooms: Kitchen, devices: Heater), a cycle in
    which the rooms reply is well-formed (Lounge) and the devices reply has
    no property entry raises UpdateFailed and leaves the rooms of the new
    cycle beside the devices of the old one. *)
Theorem rejected_devices_reply_tears_maps :
  let run := Coordinator._async_update_data Scenario.torn_service Scenario.after_good_cycle in
  fst run = inl (Raise UpdateFailed "Error communicating with API: Invalid devices response")
  /\ rooms Scenario.after_good_cycle = [("7", Scenario.kitchen)]
  /\ rooms (snd run) = [("42", Scenario.lounge)]
  /\ devices (snd run) = devices Scenario.after_good_cycle.
Proof. vm_compute. repeat split. Qed.

Lemma getitem_truthy v k x : getitem v k = inr x -> truthy v = true.
Proof.
  destruct v; cbn; try discriminate.
  destruct kvs; [discriminate | reflexivity].
Qed.

Lemma getitem_get v k x default : getitem v k = inr x -> get v k default = inr x.
Proof.
  destruct v; cbn; try discriminate.
  destruct (dict_get kvs k); intros H; inversion H; reflexivity.
Qed.

(** A client without a property id fails every fetch before it sends. *)
Lemma cycle_without_property_id srv w :
  token (api w) <> None ->
  property_id (api w) = None ->
  Coordinator._async_update_data srv w
  = (inl (Raise UpdateFailed
            "Error communicating with API: 'TikoAPI' object has no attribute 'property_id'"),
     w).
Proof.
  intros Htok Hpid.
  unfold Coordinator._async_update_data. unfold try_except at 1.
  rewrite cycle_with_token by assumption.
  unfold bind at 1. unfold try_except at 1.
  unfold Coordinator.fetch_both, Coordinator.gather, TikoApi.get_rooms, TikoApi.get_devices.
  unfold bind at 1. unfold TikoApi.get_property_id at 1. rewrite Hpid.
  unfold bind at 1. unfold TikoApi.get_property_id at 1. rewrite Hpid.
  destruct (second_fails_first srv (trace w)); reflexivity.
Qed.

(** C2. For every login reply whose user has an empty list of properties,
    [authenticate] raises IndexError after it stored the token of the
    reply; a client that had no property id then holds a token, and each
    later cycle finds it, sends nothing, does not log in again and fails on
    the missing property id. *)
Theorem empty_properties_leaves_token
    (srv : server) (w : world) (x : json) (w1 : world) (result : json) (w2 : world)
    (data login tok user uid : json) :
  TikoApi._make_request srv "GET" TikoApi.base_url None w = (inr x, w1) ->
  TikoApi._make_request srv "POST" TikoApi.api_url
    (Some (LogIn (email (api w1)) (Urllib.unquote (password (api w1))) "fr" true)) w1
  = (inr result, w2) ->
  getitem result "data" = inr data ->
  getitem data "logIn" = inr login ->
  getitem login "token" = inr tok ->
  getitem login "user" = inr user ->
  getitem user "id" = inr uid ->
  getitem user "properties" = inr (JList []) ->
  property_id (api w) = None ->
  exists w',
    TikoApi.authenticate srv w = (inl (Raise IndexError "list index out of range"), w')
    /\ token (api w') = Some tok
    /\ forall srv',
         Coordinator._async_update_data srv' w'
         = (inl (Raise UpdateFailed
              "Error communicating with API: 'TikoAPI' object has no attribute 'property_id'"),
            w').
Proof.
  intros H1 H2 Gd Gl Gt Gu Gi Gp Hpid.
  pose proof (getitem_truthy _ _ _ Gt) as Ht.
  pose proof (make_request_world _ _ _ _ _ _ _ H1) as E1.
  pose proof (make_request_world _ _ _ _ _ _ _ H2) as E2.
  exists {| api := {| email := email (api w2); password := password (api w2);
                      headers_Authorization := headers_Authorization (api w2);
                      token := Some tok; user_id := Some uid;
                      property_id := property_id (api w2) |};
            rooms := rooms w2; devices := devices w2; trace := trace w2 |}.
  split; [ | split].
  - unfold TikoApi.authenticate.
    unfold bind at 1. rewrite H1.
    unfold bind at 1. unfold get_world at 1.
    unfold bind at 1. rewrite H2.
    unfold bind at 1. rewrite (getitem_get _ _ _ _ Gd). unfold lift at 1.
    unfold bind at 1. rewrite (getitem_get _ _ _ _ Gl). unfold lift at 1.
    rewrite Ht. cbn [negb].
    unfold bind at 1. rewrite Gd. unfold lift at 1.
    unfold bind at 1. rewrite Gl. unfold lift at 1.
    unfold bind at 1. rewrite Gt. unfold lift at 1.
    unfold bind at 1. unfold TikoApi.set_token at 1. unfold set_api at 1.
    unfold bind at 1. rewrite Gu at 1. unfold lift at 1.
    unfold bind at 1. rewrite Gi. unfold lift at 1.
    unfold bind at 1. unfold TikoApi.set_user_id at 1. unfold set_api at 1.
    unfold bind at 1. rewrite Gu at 1. unfold lift at 1.
    unfold bind at 1. rewrite Gp. unfold lift at 1.
    unfold bind at 1. unfold getitem0 at 1. unfold lift at 1.
    reflexivity.
  - reflexivity.
  - intros srv'. apply cycle_without_property_id.
    + discriminate.
    + cbn. rewrite E2, E1. exact Hpid.
Qed.

Lemma empty_properties_leaves_token_witness :
  let first := TikoApi.authenticate Scenario.no_property_service Scenario.fresh in
  let next := Coordinator._async_update_data Scenario.no_property_service (snd first) in
  fst first = inl (Raise IndexError "list index out of range")
  /\ token (api (snd first)) = Some (JStr "0123456789abcdef")
  /\ fst next = inl (Raise UpdateFailed
        "Error communicating with API: 'TikoAPI' object has no attribute 'property_id'")
  /\ trace (snd next) = trace (snd first).
Proof.
  set (srv := Scenario.no_property_service). intros first next.
  destruct (TikoApi._make_request srv "GET" TikoApi.base_url None Scenario.fresh)
    as [[e | x] w1] eqn:H1; [vm_compute in H1; discriminate | ].
  destruct (TikoApi._make_request srv "POST" TikoApi.api_url
              (Some (LogIn (email (api w1)) (Urllib.unquote (password (api w1))) "fr" true)) w1)
    as [[e | result] w2] eqn:H2; [eval_run H1; vm_compute in H2; discriminate | ].
  assert (R : result = Scenario.login_reply []) by (eval_run H1; eval_run H2; reflexivity).
  destruct (empty_properties_leaves_token srv Scenario.fresh x w1 result w2
              (JObj [("logIn",
                 JObj [ ("user", JObj [("id", JInt 11); ("properties", JList [])]);
                        ("token", JStr "0123456789abcdef"); ("firstLogin", JBool false) ])])
              (JObj [ ("user", JObj [("id", JInt 11); ("properties", JList [])]);
                      ("token", JStr "0123456789abcdef"); ("firstLogin", JBool false) ])
              (JStr "0123456789abcdef")
              (JObj [("id", JInt 11); ("properties", JList [])])
              (JInt 11) H1 H2)
    as (w' & Hrun & Htok & Hnext); try (rewrite R; reflexivity); try reflexivity.
  subst first next. rewrite Hrun. cbn [fst snd]. rewrite (Hnext srv). cbn [fst snd].
  repeat split. exact Htok.
Defined.

(** The same run, evaluated: the cycle that wraps the failed login raises
    ConfigEntryAuthFailed, whose text is that of the IndexError, and the
    client keeps the token. *)
Example empty_properties_first_cycle :
  let run := Coordinator._async_update_data Scenario.no_property_service Scenario.fresh in
  fst run = inl (Raise ConfigEntryAuthFailed "list index out of range")
  /\ token (api (snd run)) = Some (JStr "0123456789abcdef")
  /\ property_id (api (snd run)) = None.
Proof. vm_compute. repeat split. Qed.

(* ===================================================================== *)
(** ** The classification of replies by [_make_request]                   *)
(* ===================================================================== *)

Lemma dict_get_keys {V} (d : pydict V) k x :
  dict_get d k = Some x -> existsb (String.eqb k) (dict_keys d) = true.
Proof.
  unfold dict_keys. induction d as [ | [k' v] d IH]; cbn; [discriminate | ].
  destruct (String.eqb_spec k' k) as [-> | Hne].
  - intros _. rewrite String.eqb_refl. reflexivity.
  - intros H. rewrite (IH H). apply orb_true_r.
Qed.

Lemma getitem_contains v k x : getitem v k = inr x -> contains k v = inr true.
Proof.
  destruct v; cbn; try discriminate.
  destruct (dict_get kvs k) eqn:G; [ | discriminate].
  intros _. rewrite (dict_get_keys _ _ _ G). reflexivity.
Qed.

(** C6. A decoded reply that carries an errors list whose first message
    contains the rate-limit text makes [_make_request] raise
    TikoRateLimitError with that message, whatever the request is, a login
    call included. *)
Theorem rate_limit_is_classified
    (srv : server) (w : world) (m u : string) (b : option payload)
    (resp : response) (result errors first error_msg : json) :
  respond srv (trace w) (request_of w m u b) = inr resp ->
  decodes_to resp result ->
  String.eqb m "GET" && String.eqb u TikoApi.base_url = false ->
  getitem result "errors" = inr errors ->
  getitem0 errors = inr first ->
  getitem first "message" = inr error_msg ->
  contains "Limite de taux atteinte" error_msg = inr true ->
  TikoApi._make_request srv m u b w
  = (inl (Raise TikoRateLimitError (py_str error_msg)),
     add_events w [Sent (request_of w m u b)])
  /\ exn_cls (Raise TikoRateLimitError (py_str error_msg)) <> TikoAuthenticationError.
Proof.
  intros Hr Hd Hm Ge G0 Gm Hc. split; [ | discriminate].
  rewrite (make_request_decoded srv m u b w resp result Hr Hd Hm).
  unfold TikoApi.check_errors.
  unfold bind at 1. rewrite (getitem_contains _ _ _ Ge). unfold lift at 1.
  unfold bind at 1. rewrite Ge. unfold lift at 1.
  unfold bind at 1. rewrite G0. unfold lift at 1.
  unfold bind at 1. rewrite Gm. unfold lift at 1.
  unfold bind at 1. rewrite Hc. unfold lift at 1.
  reflexivity.
Qed.

Lemma rate_limit_is_classified_witness :
  let srv :=
    Scenario.service
      (Scenario.ok_json (Scenario.error_reply "Limite de taux atteinte, veuillez patienter"))
      Scenario.expired Scenario.expired Scenario.expired in
  fst (TikoApi._make_request srv "POST" TikoApi.api_url
         (Some (LogIn "user@example.org" (Urllib.of_ascii "secret") "fr" true)) Scenario.fresh)
  = inl (Raise TikoRateLimitError "Limite de taux atteinte, veuillez patienter")
  /\ fst (TikoApi.authenticate srv Scenario.fresh)
     = inl (Raise TikoRateLimitError "Limite de taux atteinte, veuillez patienter").
Proof.
  intros srv. split; [ | vm_compute; reflexivity].
  pose (msg := "Limite de taux atteinte, veuillez patienter").
  pose (resp := {| status := 200; reason := "OK";
                   content_type := Some "application/json";
                   json_body := inr (Scenario.error_reply msg) |}).
  assert (Hd : decodes_to resp (Scenario.error_reply msg)) by (repeat split; reflexivity).
  pose proof (rate_limit_is_classified srv Scenario.fresh "POST" TikoApi.api_url
                (Some (LogIn "user@example.org" (Urllib.of_ascii "secret") "fr" true))
                resp (Scenario.error_reply msg)
                (JList [JObj [("message", JStr msg)]])
                (JObj [("message", JStr msg)]) (JStr msg)
                eq_refl Hd eq_refl eq_refl eq_refl eq_refl eq_refl) as [Hrun _].
  rewrite Hrun. reflexivity.
Defined.

(** C8. A POST whose reply has a 2xx status and a Content-Type without
    application/json raises aiohttp.ClientError, a transport error, and
    returns no result; the GET of the root URL returns the empty dict
    without a look at the content type or the body. *)
Theorem unexpected_content_type_is_refused
    (srv : server) (w : world) (u : string) (b : option payload) (resp : response) :
  respond srv (trace w) (request_of w "POST" u b) = inr resp ->
  (200 <= status resp < 300)%Z ->
  str_contains "application/json"
    match content_type resp with Some c => c | None => EmptyString end = false ->
  (exists e,
     TikoApi._make_request srv "POST" u b w
     = (inl e, add_events w [Sent (request_of w "POST" u b)])
     /\ e = Raise ClientError
              ("Unexpected content type: "
               ++ match content_type resp with Some c => c | None => EmptyString end)
     /\ is_ClientError e = true /\ is_TransportError e = true)
  /\ (forall w0 b0 resp0,
        respond srv (trace w0) (request_of w0 "GET" TikoApi.base_url b0) = inr resp0 ->
        (status resp0 < 400)%Z ->
        TikoApi._make_request srv "GET" TikoApi.base_url b0 w0
        = (inr (JObj []), add_events w0 [Sent (request_of w0 "GET" TikoApi.base_url b0)])).
Proof.
  intros Hr Hs Hc. split.
  - eexists. split; [ | split; [reflexivity | split; reflexivity]].
    unfold TikoApi._make_request. unfold bind at 1. rewrite session_request_run, Hr.
    cbn [from_transport].
    unfold bind at 1. unfold TikoApi.raise_for_status.
    replace (400 <=? status resp)%Z with false by (symmetry; apply Z.leb_gt; lia).
    unfold ret at 1. cbn [String.eqb Ascii.eqb Bool.eqb andb]. rewrite Hc. reflexivity.
  - intros w0 b0 resp0 Hr0 Hs0.
    unfold TikoApi._make_request. unfold bind at 1. rewrite session_request_run, Hr0.
    cbn [from_transport].
    unfold bind at 1. unfold TikoApi.raise_for_status.
    replace (400 <=? status resp0)%Z with false by (symmetry; apply Z.leb_gt; lia).
    reflexivity.
Qed.

Lemma unexpected_content_type_is_refused_witness :
  let html := Scenario.html_page in
  let srv := Scenario.service (inr html) (inr html) (inr html) (inr html) in
  fst (TikoApi._make_request srv "POST" TikoApi.api_url (Some (GetRooms (JInt 5)))
         Scenario.after_good_cycle)
  = inl (Raise ClientError "Unexpected content type: text/html; charset=utf-8")
  /\ fst (TikoApi._make_request srv "GET" TikoApi.base_url None Scenario.after_good_cycle)
     = inr (JObj []).
Proof.
  intros html srv.
  assert (Hs : (200 <= status html < 300)%Z) by (cbn; lia).
  destruct (unexpected_content_type_is_refused srv Scenario.after_good_cycle TikoApi.api_url
              (Some (GetRooms (JInt 5))) html eq_refl Hs eq_refl)
    as [(e & Hrun & He & _) Hget].
  split.
  - rewrite Hrun, He. reflexivity.
  - assert (Hs0 : (status html < 400)%Z) by (cbn; lia).
    rewrite (Hget Scenario.after_good_cycle None html eq_refl Hs0). reflexivity.
Defined.

(* ===================================================================== *)
(** ** The command methods of the coordinator                             *)
(* ===================================================================== *)

Lemma add_events_twice w a b : add_events (add_events w a) b = add_events w (a ++ b)%list.
Proof. unfold add_events. cbn. rewrite app_assoc. reflexivity. Qed.

Section CommandFacts.

Variable srv : server.

(** A command of a client that has a property id is one request. *)
Lemma set_temperature_world w pid n temperature r w1 :
  property_id (api w) = Some pid ->
  TikoApi.set_temperature srv n temperature w = (r, w1) ->
  w1 = add_events w [Sent (request_of w "POST" TikoApi.api_url
                             (Some (SetRoomAdjustTemperature pid n temperature)))].
Proof.
  intros Hpid. unfold TikoApi.set_temperature. unfold bind at 1.
  unfold TikoApi.get_property_id. rewrite Hpid. apply make_request_world.
Qed.

Lemma set_heating_mode_world w pid mode r w1 :
  property_id (api w) = Some pid ->
  TikoApi.set_heating_mode srv mode w = (r, w1) ->
  w1 = add_events w [Sent (request_of w "POST" TikoApi.api_url (Some (SetMode pid mode)))].
Proof.
  intros Hpid. unfold TikoApi.set_heating_mode. unfold bind at 1.
  unfold TikoApi.get_property_id. rewrite Hpid. apply make_request_world.
Qed.

Lemma refresh_after w evs :
  Coordinator.async_request_refresh (add_events w evs)
  = (inr tt, add_events w (evs ++ [RefreshRequested])%list).
Proof.
  unfold Coordinator.async_request_refresh, emit. cbn.
  rewrite <- app_assoc. reflexivity.
Qed.

End CommandFacts.




(* ===================================================================== *)
(** ** The password codec                                                 *)
(* ===================================================================== *)

Module CodecFacts.

Import Urllib.
Local Open Scope list_scope.

Ltac arith := Z.div_mod_to_equations; lia.

(** Settles the comparisons of the goal that arithmetic decides. *)
Ltac decide_tests :=
  repeat match goal with
    | |- context [(?a <? ?b)%Z] =>
        first [ rewrite (proj2 (Z.ltb_lt a b)) by arith
              | rewrite (proj2 (Z.ltb_ge a b)) by arith ]
    | |- context [(?a <=? ?b)%Z] =>
        first [ rewrite (proj2 (Z.leb_le a b)) by arith
              | rewrite (proj2 (Z.leb_gt a b)) by arith ]
    | |- context [(?a =? ?b)%Z] =>
        first [ rewrite (proj2 (Z.eqb_eq a b)) by arith
              | rewrite (proj2 (Z.eqb_neq a b)) by arith ]
    end.

Lemma encodable_not_surrogate c :
  encodable c -> (c < 0xD800 \/ 0xDFFF < c)%Z.
Proof.
  intros [_ H]. unfold is_surrogate in H.
  apply andb_false_iff in H. destruct H as [H | H].
  - apply Z.leb_gt in H. lia.
  - apply Z.leb_gt in H. lia.
Qed.

Lemma encode_char_bytes c : encodable c -> Forall is_byte (utf8_encode_char c).
Proof.
  intros [Hr _]. unfold utf8_encode_char, is_byte.
  destruct (Z.ltb_spec c 0x80); [ | destruct (Z.ltb_spec c 0x800);
    [ | destruct (Z.ltb_spec c 0x10000)]];
    repeat constructor; arith.
Qed.

(** Decoding reads back the code point that was encoded. *)
Lemma decode_encode_char c rest :
  encodable c ->
  utf8_decode (utf8_encode_char c ++ rest) = c :: utf8_decode rest.
Proof.
  intros Hc. pose proof (encodable_not_surrogate c Hc) as Hs. destruct Hc as [Hr _].
  unfold utf8_encode_char.
  destruct (Z.ltb_spec c 0x80); [ | destruct (Z.ltb_spec c 0x800);
    [ | destruct (Z.ltb_spec c 0x10000)]];
    cbn [app utf8_decode]; unfold is_cont; decide_tests; cbn [negb orb andb];
    repeat match goal with
      | |- context [if (?a <? ?b)%Z then _ else _] => destruct (Z.ltb_spec a b)
      end;
    decide_tests; f_equal; arith.
Qed.

Lemma encode_from_encodable s pos :
  Forall encodable s -> utf8_encode_from pos s = inr (flat_map utf8_encode_char s).
Proof.
  intros H. revert pos. induction H as [ | c s Hc Hs IH]; intros pos; cbn.
  - reflexivity.
  - destruct Hc as [_ ->]. rewrite IH. reflexivity.
Qed.

Lemma decode_encode s :
  Forall encodable s -> utf8_decode (flat_map utf8_encode_char s) = s.
Proof.
  induction 1 as [ | c s Hc Hs IH]; cbn [flat_map].
  - reflexivity.
  - rewrite decode_encode_char by assumption. rewrite IH. reflexivity.
Qed.

Lemma encode_bytes s : Forall encodable s -> Forall is_byte (flat_map utf8_encode_char s).
Proof.
  induction 1 as [ | c s Hc Hs IH]; cbn [flat_map].
  - constructor.
  - apply Forall_app. split; [apply encode_char_bytes; assumption | exact IH].
Qed.

Lemma hex_value_upper n : (0 <= n < 16)%Z -> hex_value (hex_upper n) = Some n.
Proof.
  intros Hn. unfold hex_value, hex_upper.
  destruct (Z.ltb_spec n 10); decide_tests; cbn [andb]; f_equal; lia.
Qed.

Lemma safe_is_not_percent b : is_safe b = true -> (b =? 37)%Z = false.
Proof.
  unfold is_safe. intros H. apply Z.eqb_neq. intros ->. discriminate H.
Qed.

Lemma unquote_plain c t :
  (c =? 37)%Z = false -> unquote_to_bytes (c :: t) = c :: unquote_to_bytes t.
Proof. intros H. cbn [unquote_to_bytes]. rewrite H. reflexivity. Qed.

Lemma unquote_escape h1 h2 t a b :
  hex_value h1 = Some a -> hex_value h2 = Some b ->
  unquote_to_bytes (37 :: h1 :: h2 :: t) = (16 * a + b) :: unquote_to_bytes t.
Proof.
  intros H1 H2. change (unquote_to_bytes (37 :: h1 :: h2 :: t))
    with (match hex_value h1, hex_value h2 with
          | Some a, Some b => (16 * a + b) :: unquote_to_bytes t
          | _, _ => 37 :: unquote_to_bytes (h1 :: h2 :: t)
          end).
  rewrite H1, H2. reflexivity.
Qed.

(** Unquoting reads back the bytes that were quoted. *)
Lemma unquote_quoter bs rest :
  Forall is_byte bs ->
  unquote_to_bytes (flat_map quoter bs ++ rest) = (bs ++ unquote_to_bytes rest)%list.
Proof.
  induction 1 as [ | b bs Hb Hbs IH]; cbn [flat_map app].
  - reflexivity.
  - unfold quoter at 1. destruct (is_safe b) eqn:S.
    + cbn [app]. rewrite (unquote_plain _ _ (safe_is_not_percent b S)), IH. reflexivity.
    + unfold is_byte in Hb. cbn [app].
      rewrite (unquote_escape _ _ _ (b / 16) (b mod 16))
        by (apply hex_value_upper; arith).
      rewrite IH. f_equal. arith.
Qed.

Lemma quote_from_bytes_map bs : quote_from_bytes bs = flat_map quoter bs.
Proof.
  unfold quote_from_bytes. destruct bs as [ | b bs]; [reflexivity | ].
  destruct (forallb is_safe (b :: bs)) eqn:F; [ | reflexivity].
  rewrite forallb_forall in F. generalize dependent (b :: bs). clear.
  induction l as [ | x l IH]; intros F; cbn [flat_map]; [reflexivity | ].
  unfold quoter at 1. rewrite (F x (or_introl eq_refl)).
  cbn [app]. f_equal. apply IH. intros y Hy. apply F. right. exact Hy.
Qed.

Lemma hex_upper_ascii n : (0 <= n < 16)%Z -> (hex_upper n < 0x80)%Z.
Proof. intros H. unfold hex_upper. destruct (Z.ltb_spec n 10); lia. Qed.

Lemma quoted_ascii bs : Forall is_byte bs -> all_ascii (flat_map quoter bs).
Proof.
  induction 1 as [ | b bs Hb Hbs IH]; cbn [flat_map]; [constructor | ].
  apply Forall_app. split; [ | exact IH].
  unfold quoter at 1. destruct (is_safe b) eqn:S.
  - constructor; [ | constructor]. unfold is_safe in S.
    repeat (apply orb_true_iff in S; destruct S as [S | S]);
      try (apply andb_true_iff in S; destruct S as [_ S]; apply Z.leb_le in S; lia);
      apply Z.eqb_eq in S; lia.
  - unfold is_byte in Hb.
    repeat constructor; try apply hex_upper_ascii; try lia; arith.
Qed.

Lemma unquote_parts_ascii s run :
  all_ascii s -> unquote_parts run s = decode_run (run ++ s)%list.
Proof.
  intros H. revert run. induction H as [ | c s Hc Hs IH]; intros run; cbn [unquote_parts].
  - rewrite app_nil_r. reflexivity.
  - rewrite (proj2 (Z.ltb_lt c 0x80) Hc), IH, <- app_assoc. reflexivity.
Qed.

Lemma unquote_to_bytes_plain s :
  existsb (Z.eqb 37) s = false -> unquote_to_bytes s = s.
Proof.
  induction s as [ | c s IH]; cbn [existsb unquote_to_bytes]; [reflexivity | ].
  intros H. apply orb_false_iff in H. destruct H as [Hc Hs].
  rewrite Z.eqb_sym in Hc. rewrite Hc, IH by assumption. reflexivity.
Qed.

Lemma decode_ascii s : all_ascii s -> utf8_decode s = s.
Proof.
  induction 1 as [ | c s Hc Hs IH]; cbn [utf8_decode]; [reflexivity | ].
  rewrite (proj2 (Z.ltb_lt c 0x80) Hc), IH. reflexivity.
Qed.

(** [unquote(quote(s)) == s] for every string that UTF-8 encodes. *)
Lemma unquote_quote s :
  Forall encodable s ->
  exists q, quote s = inr q /\ unquote q = s.
Proof.
  intros Hs. destruct s as [ | c s']; [exists []; split; reflexivity | ].
  remember (c :: s') as s eqn:Es.
  exists (flat_map quoter (flat_map utf8_encode_char s)). split.
  - unfold quote. rewrite Es at 1. unfold utf8_encode.
    rewrite (encode_from_encodable s 0 Hs), quote_from_bytes_map. reflexivity.
  - pose proof (encode_bytes s Hs) as Hb. pose proof (quoted_ascii _ Hb) as Ha.
    assert (D : decode_run (flat_map quoter (flat_map utf8_encode_char s)) = s).
    { unfold decode_run.
      rewrite <- (app_nil_r (flat_map quoter _)), unquote_quoter by assumption.
      cbn [unquote_to_bytes]. rewrite app_nil_r. apply decode_encode. assumption. }
    unfold unquote.
    destruct (existsb (Z.eqb 37) (flat_map quoter (flat_map utf8_encode_char s))) eqn:P.
    + rewrite unquote_parts_ascii by assumption. exact D.
    + unfold decode_run in D. rewrite unquote_to_bytes_plain in D by assumption.
      rewrite decode_ascii in D by assumption. exact D.
Qed.

End CodecFacts.


(** C10. For every password that UTF-8 encodes, the constructor succeeds,
    unquoting the stored password gives the password back, and the login
    request that [authenticate] sends after the first request has returned
    carries the password itself. *)
Theorem password_reaches_login_unchanged (email' : string) (p : Urllib.pystr) :
  Forall Urllib.encodable p ->
  exists w,
    Coordinator.__init__ email' p = inr w
    /\ Urllib.quote p = inr (password (api w))
    /\ Urllib.unquote (password (api w)) = p
    /\ body (login_request w) = Some (LogIn email' p "fr" true)
    /\ forall srv x w1 r w',
         TikoApi._make_request srv "GET" TikoApi.base_url None w = (inr x, w1) ->
         TikoApi.authenticate srv w = (r, w') ->
         In (Sent (login_request w)) (trace w').
Proof.
  intros Hp. destruct (CodecFacts.unquote_quote p Hp) as (q & Hq & Hu).
  unfold Coordinator.__init__, TikoApi.__init__. rewrite Hq.
  eexists. split; [reflexivity | ]. cbn [api password].
  split; [reflexivity | ]. split; [exact Hu | ]. split.
  - unfold login_request, request_of. cbn. rewrite Hu. reflexivity.
  - intros srv x w1 r w' H1 H.
    rewrite (authenticate_sends_login srv _ _ _ _ _ H1 H).
    apply in_or_app. right. right. left. reflexivity.
Qed.

Lemma password_reaches_login_unchanged_witness :
  let p := (Urllib.of_ascii "p%ss w/~" ++ [0xF6; 0x20AC; 0x1F600])%list in
  exists w,
    Coordinator.__init__ "user@example.org" p = inr w
    /\ password (api w) = Urllib.of_ascii "p%25ss%20w/~%C3%B6%E2%82%AC%F0%9F%98%80"
    /\ body (login_request w) = Some (LogIn "user@example.org" p "fr" true).
Proof.
  intros p.
  assert (Hp : Forall Urllib.encodable p).
  { repeat constructor; cbn; try lia; discriminate. }
  destruct (password_reaches_login_unchanged "user@example.org" p Hp)
    as (w & Hw & Hq & _ & Hb & _).
  exists w. split; [exact Hw | ]. split; [ | exact Hb].
  assert (E : Urllib.quote p
              = inr (Urllib.of_ascii "p%25ss%20w/~%C3%B6%E2%82%AC%F0%9F%98%80"))
    by (vm_compute; reflexivity).
  congruence.
Defined.

(** A password with a lone surrogate does not pass the constructor: no
    client exists and no login request carries it. *)
Lemma lone_surrogate_password_is_refused :
  Urllib.quote [0xD800]
  = inl (Raise UnicodeEncodeError
           "'utf-8' codec can't encode character '\ud800' in position 0: surrogates not allowed")
  /\ Coordinator.__init__ "user@example.org" [0xD800]
  = inl (Raise UnicodeEncodeError
           "'utf-8' codec can't encode character '\ud800' in position 0: surrogates not allowed").
Proof. split; reflexivity. Qed.

(* ===================================================================== *)
(** ** Further properties of the API client                               *)
(* ===================================================================== *)

Import Coverage.

(** X1. Whatever its outcome, a call of [_make_request] sends exactly one
    request, with the method, the URL and the body it was given and the
    Authorization header the client holds at that time, and it changes
    neither the client nor the maps of the coordinator. *)
Theorem make_request_sends_one_request
    (srv : server) (m u : string) (b : option payload)
    (w : world) (r : exn + json) (w' : world) :
  TikoApi._make_request srv m u b w = (r, w') ->
  trace w'
  = (trace w ++ [Sent {| method := m; url := u;
                         authorization := headers_Authorization (api w);
                         body := b |}])%list
  /\ api w' = api w /\ rooms w' = rooms w /\ devices w' = devices w.
Proof.
  intros H. apply make_request_world in H. subst w'. repeat split.
Qed.

Lemma make_request_sends_one_request_witness :
  let run :=
    TikoApi._make_request Scenario.lounge_service "POST" TikoApi.api_url
      (Some (GetRooms (JInt 5))) Scenario.after_good_cycle in
  fst run = inr (Scenario.rooms_reply [Scenario.lounge])
  /\ trace (snd run)
     = [Sent {| method := "POST"; url := TikoApi.api_url;
                authorization := Some "Token 0123456789abcdef";
                body := Some (GetRooms (JInt 5)) |}]
  /\ api (snd run) = Scenario.logged_in.
Proof.
  intros run. destruct run as [r w'] eqn:R.
  destruct (make_request_sends_one_request _ _ _ _ _ _ _ R) as (T & A & _).
  cbn [fst snd]. split; [ | split; [exact T | exact A]].
  eval_run R. reflexivity.
Defined.

(** X2. A reply with a status from 400 on makes [_make_request] raise
    ClientResponseError for every request, the first GET of the handshake
    included; the content type and the body of the reply are not read. *)
Theorem error_status_raises_before_decoding
    (srv : server) (m u : string) (b : option payload) (w : world) (resp : response) :
  respond srv (trace w) (request_of w m u b) = inr resp ->
  (400 <= status resp)%Z ->
  TikoApi._make_request srv m u b w
  = (inl (Raise ClientResponseError
            (str_int (status resp) ++ ", message=" ++ repr_str (reason resp)
             ++ ", url=" ++ repr_str u)),
     add_events w [Sent (request_of w m u b)])
  /\ is_TransportError
       (Raise ClientResponseError
          (str_int (status resp) ++ ", message=" ++ repr_str (reason resp)
           ++ ", url=" ++ repr_str u)) = true.
Proof.
  intros Hr Hs. split; [ | reflexivity].
  unfold TikoApi._make_request. unfold bind at 1. rewrite session_request_run, Hr.
  cbn [from_transport]. unfold bind at 1. unfold TikoApi.raise_for_status.
  rewrite (proj2 (Z.leb_le 400 (status resp)) Hs). reflexivity.
Qed.

Lemma error_status_raises_before_decoding_witness :
  let too_many :=
    {| status := 429; reason := "Too Many Requests";
       content_type := Some "application/json";
       json_body := inr (Scenario.error_reply "Limite de taux atteinte") |} in
  let srv := Scenario.service (inr too_many) (inr too_many) (inr too_many) (inr too_many) in
  fst (TikoApi._make_request srv "POST" TikoApi.api_url (Some (GetRooms (JInt 5)))
         Scenario.after_good_cycle)
  = inl (Raise ClientResponseError
           "429, message='Too Many Requests', url='https://particuliers-tiko.fr/api/v3/graphql/'").
Proof.
  intros too_many srv.
  assert (Hs : (400 <= status too_many)%Z) by (cbn; lia).
  destruct (error_status_raises_before_decoding srv "POST" TikoApi.api_url
              (Some (GetRooms (JInt 5))) Scenario.after_good_cycle too_many eq_refl Hs)
    as [Hrun _].
  rewrite Hrun. reflexivity.
Defined.

(** X3. For a decoded reply whose errors list starts with a message that
    is a string, the exception of [_make_request] carries that message and
    its class is decided in this order: TikoRateLimitError when the message
    contains the rate-limit text, else TikoAuthenticationError when it
    contains Invalid credentials, else aiohttp.ClientError. *)
Theorem application_error_classes
    (srv : server) (w : world) (m u : string) (b : option payload)
    (resp : response) (result errors first : json) (msg : string) :
  respond srv (trace w) (request_of w m u b) = inr resp ->
  decodes_to resp result ->
  String.eqb m "GET" && String.eqb u TikoApi.base_url = false ->
  getitem result "errors" = inr errors ->
  getitem0 errors = inr first ->
  getitem first "message" = inr (JStr msg) ->
  TikoApi._make_request srv m u b w
  = (inl (Raise (if str_contains "Limite de taux atteinte" msg then TikoRateLimitError
                 else if str_contains "Invalid credentials" msg then TikoAuthenticationError
                 else ClientError) msg),
     add_events w [Sent (request_of w m u b)]).
Proof.
  intros Hr Hd Hm Ge G0 Gm.
  rewrite (make_request_decoded srv m u b w resp result Hr Hd Hm).
  unfold TikoApi.check_errors.
  unfold bind at 1. rewrite (getitem_contains _ _ _ Ge). unfold lift at 1.
  unfold bind at 1. rewrite Ge. unfold lift at 1.
  unfold bind at 1. rewrite G0. unfold lift at 1.
  unfold bind at 1. rewrite Gm. unfold lift at 1.
  unfold bind at 1. cbn [contains]. unfold lift at 1.
  destruct (str_contains "Limite de taux atteinte" msg); [reflexivity | ].
  unfold bind at 1. unfold lift at 1.
  destruct (str_contains "Invalid credentials" msg); reflexivity.
Qed.

Lemma application_error_classes_witness :
  let run msg :=
    fst (TikoApi._make_request
           (Scenario.rejecting_service (Scenario.ok_json (Scenario.error_reply msg)))
           "POST" TikoApi.api_url (Some (GetRooms (JInt 5))) Scenario.after_good_cycle) in
  run "Invalid credentials supplied" = inl (Raise TikoAuthenticationError "Invalid credentials supplied")
  /\ run "Internal error" = inl (Raise ClientError "Internal error")
  /\ run "Invalid credentials. Limite de taux atteinte"
     = inl (Raise TikoRateLimitError "Invalid credentials. Limite de taux atteinte").
Proof.
  intros run.
  assert (K : forall msg,
            run msg
            = inl (Raise (if str_contains "Limite de taux atteinte" msg then TikoRateLimitError
                          else if str_contains "Invalid credentials" msg
                               then TikoAuthenticationError
                               else ClientError) msg)).
  { intros msg. unfold run.
    assert (Hd : decodes_to
                   {| status := 200; reason := "OK";
                      content_type := Some "application/json";
                      json_body := inr (Scenario.error_reply msg) |}
                   (Scenario.error_reply msg)) by (repeat split; reflexivity).
    rewrite (application_error_classes
               (Scenario.rejecting_service (Scenario.ok_json (Scenario.error_reply msg)))
               Scenario.after_good_cycle "POST" TikoApi.api_url
               (Some (GetRooms (JInt 5)))
               {| status := 200; reason := "OK";
                  content_type := Some "application/json";
                  json_body := inr (Scenario.error_reply msg) |}
               (Scenario.error_reply msg)
               (JList [JObj [("message", JStr msg)]]) (JObj [("message", JStr msg)]) msg
               eq_refl Hd eq_refl eq_refl eq_refl eq_refl).
    reflexivity. }
  rewrite !K. repeat split.
Defined.

Lemma dict_get_none_keys {V} (d : pydict V) k :
  dict_get d k = None -> existsb (String.eqb k) (dict_keys d) = false.
Proof.
  unfold dict_keys. induction d as [ | [k' v] d IH]; cbn; [reflexivity | ].
  rewrite (String.eqb_sym k k'). destruct (String.eqb k' k); [discriminate | ].
  cbn. exact IH.
Qed.

(** X4. A decoded reply that is a dict without the key errors is what
    [_make_request] returns. *)
Theorem reply_without_errors_is_returned
    (srv : server) (w : world) (m u : string) (b : option payload)
    (resp : response) (kvs : list (string * json)) :
  respond srv (trace w) (request_of w m u b) = inr resp ->
  decodes_to resp (JObj kvs) ->
  String.eqb m "GET" && String.eqb u TikoApi.base_url = false ->
  dict_get kvs "errors" = None ->
  TikoApi._make_request srv m u b w
  = (inr (JObj kvs), add_events w [Sent (request_of w m u b)]).
Proof.
  intros Hr Hd Hm Hk.
  rewrite (make_request_decoded srv m u b w resp (JObj kvs) Hr Hd Hm).
  unfold TikoApi.check_errors. unfold bind at 1. cbn [contains]. unfold lift at 1.
  rewrite (dict_get_none_keys _ _ Hk). reflexivity.
Qed.

Lemma reply_without_errors_is_returned_witness :
  fst (TikoApi._make_request Scenario.lounge_service "POST" TikoApi.api_url
         (Some (GetDevices (JInt 5))) Scenario.after_good_cycle)
  = inr (Scenario.devices_reply [Scenario.heater]).
Proof.
  assert (Hd : decodes_to
                 {| status := 200; reason := "OK";
                    content_type := Some "application/json";
                    json_body := inr (Scenario.devices_reply [Scenario.heater]) |}
                 (Scenario.devices_reply [Scenario.heater])) by (repeat split; reflexivity).
  unfold Scenario.devices_reply in *.
  rewrite (reply_without_errors_is_returned Scenario.lounge_service Scenario.after_good_cycle
             "POST" TikoApi.api_url (Some (GetDevices (JInt 5)))
             {| status := 200; reason := "OK";
                content_type := Some "application/json";
                json_body := inr (Scenario.devices_reply [Scenario.heater]) |}
             _ eq_refl Hd eq_refl eq_refl).
  reflexivity.
Defined.


(** X5. When [authenticate] returns, the client holds the token, the user
    id and the id of the first property of the login reply, its
    Authorization header is the word Token followed by the token, its email
    and stored password are as before, the two maps are untouched, and the
    trace has gained the first GET and the login request, in this order. *)
Theorem authenticate_establishes_session (srv : server) (w w' : world) :
  TikoApi.authenticate srv w = (inr tt, w') ->
  exists x w1 result w2 data login tok user uid properties first pid,
    TikoApi._make_request srv "GET" TikoApi.base_url None w = (inr x, w1)
    /\ TikoApi._make_request srv "POST" TikoApi.api_url (body (login_request w)) w1
       = (inr result, w2)
    /\ getitem result "data" = inr data
    /\ getitem data "logIn" = inr login
    /\ getitem login "token" = inr tok
    /\ getitem login "user" = inr user
    /\ getitem user "id" = inr uid
    /\ getitem user "properties" = inr properties
    /\ getitem0 properties = inr first
    /\ getitem first "id" = inr pid
    /\ api w' = {| email := email (api w); password := password (api w);
                   headers_Authorization := Some ("Token " ++ py_str tok);
                   token := Some tok; user_id := Some uid; property_id := Some pid |}
    /\ rooms w' = rooms w /\ devices w' = devices w
    /\ trace w' = (trace w ++ [Sent (prime_request w); Sent (login_request w)])%list.
Proof.
  intros H. pose proof H as Hall. unfold TikoApi.authenticate in H.
  returned_step H x w1 H1. pose proof (make_request_world _ _ _ _ _ _ _ H1) as E1.
  returned_step H w1' w1'' Hg. unfold get_world in Hg. inversion Hg; subst w1' w1''; clear Hg.
  returned_step H result w2 H2. pose proof (make_request_world _ _ _ _ _ _ _ H2) as E2.
  returned_step H data0 w3 Hs. unfold lift in Hs. inversion Hs as [[Hd0 Ew]]; subst w3; clear Hs.
  returned_step H login0 w3 Hs. unfold lift in Hs. inversion Hs as [[Hl0 Ew]]; subst w3; clear Hs.
  destruct (negb (truthy login0)); [discriminate H | ].
  returned_step H data w3 Gd. unfold lift in Gd. inversion Gd as [[Gd' Ew]]; subst w3; clear Gd.
  returned_step H login w3 Gl. unfold lift in Gl. inversion Gl as [[Gl' Ew]]; subst w3; clear Gl.
  returned_step H tok w3 Gt. unfold lift in Gt. inversion Gt as [[Gt' Ew]]; subst w3; clear Gt.
  returned_step H u0 w3 Hs. inversion Hs; subst u0 w3; clear Hs.
  returned_step H user w3 Gu. unfold lift in Gu. inversion Gu as [[Gu' Ew]]; subst w3; clear Gu.
  returned_step H uid w3 Gi. unfold lift in Gi. inversion Gi as [[Gi' Ew]]; subst w3; clear Gi.
  returned_step H u0 w3 Hs. inversion Hs; subst u0 w3; clear Hs.
  returned_step H user' w3 Gu2. unfold lift in Gu2. inversion Gu2 as [[Gu2' Ew]]; subst w3; clear Gu2.
  assert (user' = user) by congruence. subst user'.
  returned_step H properties w3 Gp. unfold lift in Gp. inversion Gp as [[Gp' Ew]]; subst w3; clear Gp.
  returned_step H first w3 Gf. unfold lift in Gf. inversion Gf as [[Gf' Ew]]; subst w3; clear Gf.
  returned_step H pid w3 Gpid. unfold lift in Gpid. inversion Gpid as [[Gpid' Ew]]; subst w3; clear Gpid.
  returned_step H u0 w3 Hs. inversion Hs; subst u0 w3; clear Hs.
  returned_step H tok' w3 Hs. unfold TikoApi.get_token in Hs. cbn in Hs.
  inversion Hs; subst tok' w3; clear Hs.
  returned_step H u0 w3 Hs. inversion Hs; subst u0 w3; clear Hs.
  returned_step H tok'' w3 Hs. unfold TikoApi.get_token in Hs. cbn in Hs.
  inversion Hs; subst tok'' w3; clear Hs.
  returned_step H u0 w3 Hs. unfold lift in Hs. inversion Hs as [[Hsl Ew]]; subst w3; clear Hs.
  unfold ret in H. inversion H; subst w'; clear H.
  exists x, w1, result, w2, data, login, tok, user, uid, properties, first, pid.
  assert (A1 : api w1 = api w) by (rewrite E1; reflexivity).
  assert (A2 : api w2 = api w) by (rewrite E2, E1; reflexivity).
  split; [exact H1 | ].
  split; [unfold login_request, request_of; cbn [body]; rewrite <- A1; exact H2 | ].
  repeat (split; [assumption | ]).
  cbn [api rooms devices trace email password]. rewrite A2.
  split; [reflexivity | ].
  rewrite E2, E1. cbn. rewrite <- app_assoc.
  unfold login_request, prime_request, request_of. cbn. repeat split.
Qed.

Lemma authenticate_establishes_session_witness :
  let run := TikoApi.authenticate Scenario.lounge_service Scenario.fresh in
  fst run = inr tt
  /\ api (snd run) = Scenario.logged_in
  /\ List.length (trace (snd run)) = 2%nat.
Proof.
  intros run. destruct run as [[e | []] w'] eqn:R; [vm_compute in R; discriminate | ].
  destruct (authenticate_establishes_session _ _ _ R)
    as (x & w1 & result & w2 & data & login & tok & user & uid & properties & first & pid
        & _ & _ & _ & _ & _ & _ & _ & _ & _ & _ & _ & _ & _ & T).
  cbn [fst snd]. split; [reflexivity | ]. split.
  - eval_run R. reflexivity.
  - rewrite T. reflexivity.
Defined.

(** X6. When the login reply has no truthy [data.logIn], [authenticate]
    raises TikoAuthenticationError with the text Authentication failed, and
    the client is as it was: no token, no property id, no header is set. *)
Theorem login_without_data_is_refused
    (srv : server) (w : world) (x : json) (w1 : world) (result : json) (w2 : world)
    (data login : json) :
  TikoApi._make_request srv "GET" TikoApi.base_url None w = (inr x, w1) ->
  TikoApi._make_request srv "POST" TikoApi.api_url (body (login_request w)) w1
  = (inr result, w2) ->
  get result "data" (JObj []) = inr data ->
  get data "logIn" JNull = inr login ->
  truthy login = false ->
  TikoApi.authenticate srv w
  = (inl (Raise TikoAuthenticationError "Authentication failed"), w2)
  /\ api w2 = api w /\ rooms w2 = rooms w /\ devices w2 = devices w.
Proof.
  intros H1 H2 Gd Gl Ht.
  pose proof (make_request_world _ _ _ _ _ _ _ H1) as E1.
  pose proof (make_request_world _ _ _ _ _ _ _ H2) as E2.
  split; [ | rewrite E2, E1; repeat split].
  unfold TikoApi.authenticate.
  unfold bind at 1. rewrite H1.
  unfold bind at 1. unfold get_world at 1.
  assert (A1 : api w1 = api w) by (rewrite E1; reflexivity).
  unfold login_request, request_of in H2. cbn [body] in H2. rewrite A1.
  unfold bind at 1. rewrite H2.
  unfold bind at 1. rewrite Gd. unfold lift at 1.
  unfold bind at 1. rewrite Gl. unfold lift at 1.
  rewrite Ht. reflexivity.
Qed.

Lemma login_without_data_is_refused_witness :
  let srv :=
    Scenario.service (Scenario.ok_json (JObj [("data", JObj [("logIn", JNull)])]))
      Scenario.expired Scenario.expired Scenario.expired in
  let run := TikoApi.authenticate srv Scenario.fresh in
  fst run = inl (Raise TikoAuthenticationError "Authentication failed")
  /\ api (snd run) = api Scenario.fresh.
Proof.
  intros srv run.
  destruct (TikoApi._make_request srv "GET" TikoApi.base_url None Scenario.fresh)
    as [[e | x] w1] eqn:H1; [vm_compute in H1; discriminate | ].
  destruct (TikoApi._make_request srv "POST" TikoApi.api_url
              (body (login_request Scenario.fresh)) w1)
    as [[e | result] w2] eqn:H2; [eval_run H1; vm_compute in H2; discriminate | ].
  assert (R : result = JObj [("data", JObj [("logIn", JNull)])])
    by (eval_run H1; eval_run H2; reflexivity).
  destruct (login_without_data_is_refused srv Scenario.fresh x w1 result w2
              (JObj [("logIn", JNull)]) JNull H1 H2) as (Hrun & Ha & _);
    try (rewrite R; reflexivity); try reflexivity.
  subst run. rewrite Hrun. split; [reflexivity | exact Ha].
Defined.

(** X7. A fetch of a client that has a property id sends the GetRooms
    request and then the GetDevices request, both for that property id and
    with the Authorization header of the client, and nothing else, whatever
    the replies are; a client without a property id sends nothing and the
    fetch raises AttributeError. *)
Theorem fetch_sends_rooms_then_devices (srv : server) (w : world) :
  (forall pid r w',
      property_id (api w) = Some pid ->
      Coordinator.fetch_both srv w = (r, w') ->
      w' = add_events w [post w (GetRooms pid); post w (GetDevices pid)])
  /\ (property_id (api w) = None ->
      Coordinator.fetch_both srv w
      = (inl (Raise AttributeError "'TikoAPI' object has no attribute 'property_id'"), w)).
Proof.
  split.
  - intros pid r w' Hpid H.
    unfold Coordinator.fetch_both, Coordinator.gather in H.
    destruct (TikoApi.get_rooms srv w) as [ra wa] eqn:Ea.
    destruct (TikoApi.get_devices srv wa) as [rb wb] eqn:Eb.
    assert (w' = wb) by (destruct ra, rb; inversion H; reflexivity). subst w'.
    unfold TikoApi.get_rooms in Ea. unfold bind at 1 in Ea.
    unfold TikoApi.get_property_id in Ea. rewrite Hpid in Ea.
    apply make_request_world in Ea. subst wa.
    unfold TikoApi.get_devices in Eb. unfold bind at 1 in Eb.
    unfold TikoApi.get_property_id in Eb. cbn [api add_events] in Eb. rewrite Hpid in Eb.
    apply make_request_world in Eb. subst wb.
    rewrite add_events_twice. reflexivity.
  - intros Hpid.
    unfold Coordinator.fetch_both, Coordinator.gather, TikoApi.get_rooms, TikoApi.get_devices.
    unfold bind at 1. unfold TikoApi.get_property_id at 1. rewrite Hpid.
    unfold bind at 1. unfold TikoApi.get_property_id at 1. rewrite Hpid.
    destruct (second_fails_first srv (trace w)); reflexivity.
Qed.

(* ===================================================================== *)
(** ** Further properties of the refresh cycle                            *)
(* ===================================================================== *)


Lemma get_error v k d e : get v k d = inl e -> builtin_error e.
Proof.
  destruct v; cbn; try (intros H; inversion H; exact I).
  destruct (dict_get kvs k); discriminate.
Qed.

Lemma slice_prefix_error v e : slice_prefix v = inl e -> builtin_error e.
Proof. destruct v; cbn; intros H; inversion H; exact I. Qed.

Lemma setters_raise_nothing (Q : exn -> Prop) :
  (forall v, raises_only Q (TikoApi.set_token v))
  /\ (forall v, raises_only Q (TikoApi.set_user_id v))
  /\ (forall v, raises_only Q (TikoApi.set_property_id v))
  /\ (forall h, raises_only Q (TikoApi.set_headers_Authorization h))
  /\ (forall d, raises_only Q (set_rooms d))
  /\ (forall d, raises_only Q (set_devices d)).
Proof. repeat (apply conj); intros v w e w' H; inversion H. Qed.

Lemma get_token_raises : raises_only from_below TikoApi.get_token.
Proof.
  intros w e w' H. unfold TikoApi.get_token in H.
  destruct (token (api w)); inversion H. exact I.
Qed.

Section CycleExceptions.

Variable srv : server.

Lemma authenticate_raises : raises_only from_below (TikoApi.authenticate srv).
Proof.
  destruct (setters_raise_nothing from_below) as (S1 & S2 & S3 & S4 & _ & _).
  pose proof (make_request_raises srv) as MR. pose proof get_token_raises as GT.
  unfold TikoApi.authenticate.
  repeat first
    [ raises_step
    | apply raises_lift; intros ? ?; apply builtin_from_below;
      first [ eapply get_error; eassumption | eapply slice_prefix_error; eassumption ] ].
Qed.





End CycleExceptions.



Section HandshakeTrace.

Variable srv : server.

(** Whatever its outcome, [authenticate] sends the first GET and at most
    the login request after it. *)
Lemma authenticate_trace w r w' :
  TikoApi.authenticate srv w = (r, w') ->
  trace w' = (trace w ++ [Sent (prime_request w)])%list
  \/ trace w' = (trace w ++ [Sent (prime_request w); Sent (login_request w)])%list.
Proof.
  intros H.
  destruct (TikoApi._make_request srv "GET" TikoApi.base_url None w) as [[e | x] w1] eqn:H1.
  - left. unfold TikoApi.authenticate in H. unfold bind at 1 in H. rewrite H1 in H.
    inversion H; subst. apply make_request_world in H1. subst w'. reflexivity.
  - right. eapply authenticate_sends_login; eassumption.
Qed.

End HandshakeTrace.

(** X9. When a client without a token fails to log in, for whatever
    reason (a network failure and a rate limit included), the cycle raises
    ConfigEntryAuthFailed, whose text is the text of the failure of the
    login; it sends nothing after the handshake and leaves the two maps as
    they were. *)
Theorem first_login_failure_is_auth_failed
    (srv : server) (w : world) (e : exn) (w1 : world) :
  token (api w) = None ->
  TikoApi.authenticate srv w = (inl e, w1) ->
  Coordinator._async_update_data srv w = (inl (Raise ConfigEntryAuthFailed (exn_str e)), w1)
  /\ rooms w1 = rooms w /\ devices w1 = devices w
  /\ (trace w1 = (trace w ++ [Sent (prime_request w)])%list
      \/ trace w1 = (trace w ++ [Sent (prime_request w); Sent (login_request w)])%list).
Proof.
  intros Htok Ha.
  destruct (authenticate_maps srv _ _ _ Ha) as [Hr Hd].
  pose proof (authenticate_trace srv _ _ _ Ha) as Ht.
  repeat split; try assumption.
  unfold Coordinator._async_update_data. unfold try_except at 1.
  unfold Coordinator.update_body. unfold bind at 1. unfold Coordinator.hasattr_token.
  rewrite Htok. unfold bind at 1. unfold try_except at 1. rewrite Ha. reflexivity.
Qed.

Lemma first_login_failure_is_auth_failed_witness :
  let srv :=
    Scenario.service
      (Scenario.ok_json (Scenario.error_reply "Limite de taux atteinte"))
      Scenario.expired Scenario.expired Scenario.expired in
  let run := Coordinator._async_update_data srv Scenario.fresh in
  fst run = inl (Raise ConfigEntryAuthFailed "Limite de taux atteinte")
  /\ List.length (trace (snd run)) = 2%nat.
Proof.
  intros srv run.
  destruct (TikoApi.authenticate srv Scenario.fresh) as [[e | []] w1] eqn:A;
    [ | vm_compute in A; discriminate].
  destruct (first_login_failure_is_auth_failed srv Scenario.fresh e w1 eq_refl A)
    as (Hrun & _ & _ & _).
  subst run. rewrite Hrun. cbn [fst snd]. eval_run A. split; reflexivity.
Defined.

Section DevicesKept.

Variable srv : server.

Lemma process_rooms_devices r : frame (fun w w' => devices w' = devices w)
                                   (Coordinator.process_rooms r).
Proof.
  intros w [e | []] w' H.
  - apply process_rooms_raises in H. subst. reflexivity.
  - apply process_rooms_returns in H. apply H.
Qed.

Lemma update_body_keeps_devices w e w' :
  Coordinator.update_body srv w = (inl e, w') -> devices w' = devices w.
Proof.
  unfold Coordinator.update_body. intros H.
  apply bind_inv in H. destruct H as [(e0 & H & _) | (has & w0 & Hh & H)].
  { unfold Coordinator.hasattr_token in H. inversion H. }
  unfold Coordinator.hasattr_token in Hh. inversion Hh; subst w0; clear Hh.
  apply bind_inv in H. destruct H as [(e0 & H & _) | (u & w1 & Hb1 & H)].
  { destruct has; [inversion H | ].
    unfold try_except in H.
    destruct (TikoApi.authenticate srv w) as [[e1 | []] w1] eqn:A; inversion H; subst.
    apply (authenticate_maps srv _ _ _ A). }
  assert (D1 : devices w1 = devices w).
  { destruct has; [inversion Hb1; reflexivity | ].
    unfold try_except in Hb1.
    destruct (TikoApi.authenticate srv w) as [[e1 | []] wa] eqn:A; inversion Hb1; subst.
    apply (authenticate_maps srv _ _ _ A). }
  rewrite <- D1. clear D1 Hb1.
  assert (F : frame (fun a b => devices b = devices a)
            (try_except (Coordinator.fetch_both srv)
               (fun err =>
                  if negb (str_contains "Authentication failed" (exn_str err)) then raise err
                  else TikoApi.authenticate srv ;; Coordinator.fetch_both srv))).
  { assert (Q : frame (fun a b => devices b = devices a) (Coordinator.fetch_both srv)).
    { intros a r b Hf. apply fetch_both_quiet in Hf. apply Hf. }
    assert (A : frame (fun a b => devices b = devices a) (TikoApi.authenticate srv)).
    { intros a r b Hf. apply authenticate_maps in Hf. apply Hf. }
    apply frame_try_except; [intros; congruence | exact Q | ].
    intros e0. destruct (negb (str_contains "Authentication failed" (exn_str e0))).
    - intros a r b Hf. inversion Hf. reflexivity.
    - apply frame_bind; [intros; congruence | exact A | intros _; exact Q]. }
  apply bind_inv in H. destruct H as [(e0 & H & _) | (results & w2 & Hb2 & H)].
  { exact (F _ _ _ H). }
  rewrite <- (F _ _ _ Hb2). clear F Hb2.
  apply bind_inv in H. destruct H as [(e0 & H & _) | (u1 & w3 & Hb3 & H)].
  { exact (process_rooms_devices _ _ _ _ H). }
  rewrite <- (process_rooms_devices _ _ _ _ Hb3).
  apply bind_inv in H. destruct H as [(e0 & H & _) | (u2 & w4 & Hb4 & H)].
  { apply process_devices_raises in H. subst. reflexivity. }
  unfold bind, get_world, ret in H. inversion H.
Qed.

End DevicesKept.

(** X10. A cycle that fails, at whatever point, leaves the devices map as
    it was. *)
Theorem failing_cycle_keeps_devices (srv : server) (w : world) (e : exn) (w' : world) :
  Coordinator._async_update_data srv w = (inl e, w') ->
  devices w' = devices w.
Proof.
  unfold Coordinator._async_update_data, try_except.
  destruct (Coordinator.update_body srv w) as [[e0 | x] w0] eqn:B; [ | discriminate].
  apply update_body_keeps_devices in B.
  destruct (is_ConfigEntryAuthFailed e0); unfold raise; intros H; inversion H; subst; exact B.
Qed.

Lemma failing_cycle_keeps_devices_witness :
  let run := Coordinator._async_update_data Scenario.torn_service Scenario.after_good_cycle in
  (exists e, fst run = inl e)
  /\ devices (snd run) = [("3", Scenario.heater)].
Proof.
  intros run. destruct run as [[e | x] w'] eqn:R; [ | vm_compute in R; discriminate].
  cbn [fst snd]. split; [exists e; reflexivity | ].
  rewrite (failing_cycle_keeps_devices _ _ _ _ R). reflexivity.
Defined.

(** X11. When a client that holds a token meets an error read as an
    expired token and the new login fails, the cycle raises UpdateFailed
    with the text of the login failure (not ConfigEntryAuthFailed), makes no
    second fetch and leaves the two maps as they were. *)
Theorem failed_relogin_is_update_failed
    (srv : server) (w : world) (e : exn) (w1 : world) (e' : exn) (w2 : world) :
  token (api w) <> None ->
  Coordinator.fetch_both srv w = (inl e, w1) ->
  str_contains "Authentication failed" (exn_str e) = true ->
  TikoApi.authenticate srv w1 = (inl e', w2) ->
  Coordinator._async_update_data srv w
  = (inl (Raise UpdateFailed ("Error communicating with API: " ++ exn_str e')), w2)
  /\ rooms w2 = rooms w /\ devices w2 = devices w.
Proof.
  intros Htok Hf Hs Ha.
  pose proof (fetch_both_quiet srv _ _ _ Hf) as [(_ & R1 & D1) _].
  pose proof (authenticate_maps srv _ _ _ Ha) as [R2 D2].
  pose proof (from_below_not_auth_failed _ (authenticate_raises srv _ _ _ Ha)) as Hc.
  repeat split; try congruence.
  unfold Coordinator._async_update_data. unfold try_except at 1.
  rewrite cycle_with_token by assumption.
  unfold bind at 1. unfold try_except at 1. rewrite Hf, Hs. cbn [negb].
  unfold bind at 1. rewrite Ha, Hc. reflexivity.
Qed.

Lemma failed_relogin_is_update_failed_witness :
  let srv :=
    Scenario.service
      (Scenario.ok_json (Scenario.error_reply "Invalid credentials"))
      Scenario.expired Scenario.expired Scenario.expired in
  let run := Coordinator._async_update_data srv Scenario.after_good_cycle in
  fst run = inl (Raise UpdateFailed "Error communicating with API: Invalid credentials")
  /\ rooms (snd run) = rooms Scenario.after_good_cycle.
Proof.
  intros srv run.
  assert (Htok : token (api Scenario.after_good_cycle) <> None) by discriminate.
  destruct (Coordinator.fetch_both srv Scenario.after_good_cycle) as [[e | rd] w1] eqn:F;
    [ | vm_compute in F; discriminate].
  destruct (TikoApi.authenticate srv w1) as [[e' | []] w2] eqn:A;
    [ | eval_run F; vm_compute in A; discriminate].
  assert (Hs : str_contains "Authentication failed" (exn_str e) = true)
    by (eval_run F; reflexivity).
  destruct (failed_relogin_is_update_failed srv _ e w1 e' w2 Htok F Hs A) as (Hrun & Hr & _).
  subst run. rewrite Hrun. cbn [fst snd]. split; [ | exact Hr].
  eval_run F. eval_run A. reflexivity.
Defined.

(* ===================================================================== *)
(** ** The maps that a cycle builds                                       *)
(* ===================================================================== *)

Section DictLaws.

Context {V : Type}.

Lemma dict_get_set_same (d : pydict V) k v : dict_get (dict_set d k v) k = Some v.
Proof.
  induction d as [ | [k' v'] d IH]; cbn.
  - rewrite String.eqb_refl. reflexivity.
  - destruct (String.eqb k' k) eqn:E; cbn; rewrite E; [reflexivity | exact IH].
Qed.

Lemma dict_get_set_other (d : pydict V) k v k' :
  k <> k' -> dict_get (dict_set d k v) k' = dict_get d k'.
Proof.
  intros Hne. induction d as [ | [k0 v0] d IH]; cbn.
  - destruct (String.eqb_spec k k'); [contradiction | reflexivity].
  - destruct (String.eqb_spec k0 k) as [-> | Hk]; cbn.
    + destruct (String.eqb_spec k k'); [contradiction | reflexivity].
    + destruct (String.eqb k0 k'); [reflexivity | exact IH].
Qed.

Lemma dict_keys_set_in (d : pydict V) k v k' :
  In k' (dict_keys (dict_set d k v)) <-> k' = k \/ In k' (dict_keys d).
Proof.
  unfold dict_keys. induction d as [ | [k0 v0] d IH]; cbn.
  - intuition.
  - destruct (String.eqb_spec k0 k) as [-> | Hk]; cbn; intuition.
Qed.

Lemma dict_keys_set_nodup (d : pydict V) k v :
  NoDup (dict_keys d) -> NoDup (dict_keys (dict_set d k v)).
Proof.
  unfold dict_keys. induction d as [ | [k0 v0] d IH]; cbn; intros H.
  - constructor; [intros [] | constructor].
  - inversion H as [ | ? ? Hn Hd]; subst.
    destruct (String.eqb_spec k0 k) as [-> | Hk]; cbn.
    + constructor; assumption.
    + constructor; [ | apply IH; exact Hd].
      intros Hin. apply (dict_keys_set_in d k v k0) in Hin.
      destruct Hin as [-> | Hin]; [apply Hk; reflexivity | apply Hn; exact Hin].
Qed.

Lemma dict_get_in_keys (d : pydict V) k v : dict_get d k = Some v -> In k (dict_keys d).
Proof.
  unfold dict_keys. induction d as [ | [k0 v0] d IH]; cbn; [discriminate | ].
  destruct (String.eqb_spec k0 k) as [-> | Hk]; [left; reflexivity | right; auto].
Qed.

End DictLaws.

Lemma dict_by_id_app l1 l2 acc :
  Coordinator.dict_by_id (l1 ++ l2)%list acc
  = match Coordinator.dict_by_id l1 acc with
    | inl e => inl e
    | inr a => Coordinator.dict_by_id l2 a
    end.
Proof.
  revert acc. induction l1 as [ | x l1 IH]; intros acc; cbn; [reflexivity | ].
  destruct (getitem x "id"); [reflexivity | apply IH].
Qed.

(** What the comprehension adds to [acc]: keys stay unique, and a value
    that was not in [acc] is an item stored under the text of its id. *)
Lemma dict_by_id_inv items acc d :
  Coordinator.dict_by_id items acc = inr d ->
  NoDup (dict_keys acc) ->
  NoDup (dict_keys d)
  /\ (forall k v, dict_get d k = Some v ->
        dict_get acc k = Some v
        \/ (In v items /\ exists i, getitem v "id" = inr i /\ py_str i = k))
  /\ (forall x, In x items -> exists i, getitem x "id" = inr i /\ In (py_str i) (dict_keys d))
  /\ (forall k, In k (dict_keys acc) -> In k (dict_keys d)).
Proof.
  revert acc. induction items as [ | x t IH]; intros acc H Hn; cbn in H.
  - inversion H; subst. repeat split; auto. intros x [].
  - destruct (getitem x "id") as [e | i] eqn:G; [discriminate | ].
    destruct (IH _ H (dict_keys_set_nodup acc (py_str i) x Hn)) as (N & K & A & S).
    repeat split.
    + exact N.
    + intros k v Hk. destruct (K k v Hk) as [Hacc | (Hin & j & Gj & Ej)].
      * destruct (String.eqb_spec (py_str i) k) as [<- | Hne].
        -- rewrite dict_get_set_same in Hacc. inversion Hacc; subst v.
           right. split; [left; reflexivity | exists i; split; [exact G | reflexivity]].
        -- rewrite dict_get_set_other in Hacc by exact Hne. left. exact Hacc.
      * right. split; [right; exact Hin | exists j; split; assumption].
    + intros y [<- | Hy].
      * exists i. split; [exact G | ]. apply S. apply dict_keys_set_in. left. reflexivity.
      * apply A. exact Hy.
    + intros k Hk. apply S. apply dict_keys_set_in. right. exact Hk.
Qed.

(** Items of other ids leave the entry of [k] as it is. *)
Lemma dict_by_id_other_ids items acc d k :
  Coordinator.dict_by_id items acc = inr d ->
  (forall y j, In y items -> getitem y "id" = inr j -> py_str j <> k) ->
  dict_get d k = dict_get acc k.
Proof.
  revert acc. induction items as [ | x t IH]; intros acc H Ho; cbn in H.
  - inversion H; reflexivity.
  - destruct (getitem x "id") as [e | i] eqn:G; [discriminate | ].
    rewrite (IH _ H) by (intros y j Hy; apply Ho; right; exact Hy).
    apply dict_get_set_other. apply (Ho x i); [left; reflexivity | exact G].
Qed.

(** X12. In the map that the comprehension of the cycle builds from the
    items of a reply, an id is looked up to the last item that carries it:
    a later item of the same id replaces the earlier one. *)
Theorem last_item_of_an_id_is_stored
    (before after : list json) (x i : json) (d : pydict json) :
  Coordinator.dict_by_id (before ++ x :: after)%list [] = inr d ->
  getitem x "id" = inr i ->
  (forall y j, In y after -> getitem y "id" = inr j -> py_str j <> py_str i) ->
  dict_get d (py_str i) = Some x.
Proof.
  intros H G Ho. rewrite dict_by_id_app in H.
  destruct (Coordinator.dict_by_id before []) as [e | a]; [discriminate | ].
  cbn in H. rewrite G in H.
  rewrite (dict_by_id_other_ids _ _ _ _ H Ho). apply dict_get_set_same.
Qed.

Lemma last_item_of_an_id_is_stored_witness :
  let renamed :=
    JObj [("id", JInt 42); ("name", JStr "Living room")] in
  exists d,
    Coordinator.dict_by_id [Scenario.lounge; Scenario.kitchen; renamed] [] = inr d
    /\ dict_get d "42" = Some renamed
    /\ dict_keys d = ["42"; "7"].
Proof.
  intros renamed.
  destruct (Coordinator.dict_by_id [Scenario.lounge; Scenario.kitchen; renamed] [])
    as [e | d] eqn:E; [vm_compute in E; discriminate | ].
  exists d. split; [reflexivity | ]. split.
  - apply (last_item_of_an_id_is_stored [Scenario.lounge; Scenario.kitchen] [] renamed
             (JInt 42) d E eq_refl).
    intros y j [].
  - vm_compute in E. inversion E. reflexivity.
Defined.

Section Assigned.

Variable srv : server.

(** A cycle that returns has assigned both maps from the replies of one
    fetch, and returns them. *)
Lemma cycle_returns_maps w snap w' :
  Coordinator._async_update_data srv w = (inr snap, w') ->
  exists wf r d w1 w2,
    Coordinator.fetch_both srv wf = (inr (r, d), w1)
    /\ Coordinator.process_rooms r w1 = (inr tt, w2)
    /\ Coordinator.process_devices d w2 = (inr tt, w')
    /\ rooms w' = rooms w2
    /\ snap = JObj [("rooms", JObj (rooms w')); ("devices", JObj (devices w'))].
Proof.
  intros H. destruct (cycle_returns_inv srv _ _ _ H) as (wf & r & d & w1 & Hf & Hp).
  returned_step Hp u w2 Hr. destruct u.
  returned_step Hp u w3 Hd. destruct u.
  unfold bind, get_world, ret in Hp. inversion Hp; subst w3 snap; clear Hp.
  exists wf, r, d, w1, w2. repeat split; try assumption.
  apply (process_devices_returns _ _ _ Hd).
Qed.

End Assigned.

(** X13. After a cycle that returns, the keys of the rooms map and of the
    devices map are unique, every value is stored under the text of its own
    id, and the value returned is the dict of these two maps. *)
Theorem returned_maps_are_keyed_by_id
    (srv : server) (w : world) (snap : json) (w' : world) :
  Coordinator._async_update_data srv w = (inr snap, w') ->
  NoDup (dict_keys (rooms w')) /\ NoDup (dict_keys (devices w'))
  /\ (forall k v, dict_get (rooms w') k = Some v ->
        exists i, getitem v "id" = inr i /\ py_str i = k)
  /\ (forall k v, dict_get (devices w') k = Some v ->
        exists i, getitem v "id" = inr i /\ py_str i = k)
  /\ snap = JObj [("rooms", JObj (rooms w')); ("devices", JObj (devices w'))].
Proof.
  intros H.
  destruct (cycle_returns_maps srv _ _ _ H) as (wf & r & d & w1 & w2 & _ & Hr & Hd & Er & Es).
  destruct (process_rooms_assigns _ _ _ Hr) as (? & ? & ? & ri & _ & _ & _ & _ & Br).
  destruct (process_devices_assigns _ _ _ Hd) as (? & ? & ? & di & _ & _ & _ & _ & Bd).
  destruct (dict_by_id_inv _ _ _ Br (NoDup_nil _)) as (Nr & Kr & _).
  destruct (dict_by_id_inv _ _ _ Bd (NoDup_nil _)) as (Nd & Kd & _).
  rewrite Er. repeat split; try assumption.
  - intros k v Hk. destruct (Kr k v Hk) as [Hn | (_ & i & Hi)]; [discriminate Hn | ].
    exists i. exact Hi.
  - intros k v Hk. destruct (Kd k v Hk) as [Hn | (_ & i & Hi)]; [discriminate Hn | ].
    exists i. exact Hi.
  - rewrite <- Er. exact Es.
Qed.

Lemma returned_maps_are_keyed_by_id_witness :
  let run := Coordinator._async_update_data Scenario.lounge_service Scenario.fresh in
  (exists snap, fst run = inr snap)
  /\ NoDup (dict_keys (rooms (snd run)))
  /\ dict_keys (rooms (snd run)) = ["42"] /\ dict_keys (devices (snd run)) = ["3"].
Proof.
  intros run. destruct run as [[e | snap] w'] eqn:R; [vm_compute in R; discriminate | ].
  destruct (returned_maps_are_keyed_by_id _ _ _ _ R) as (N & _).
  cbn [fst snd]. split; [exists snap; reflexivity | ]. split; [exact N | ].
  eval_run R. split; reflexivity.
Defined.

(* ===================================================================== *)
(** ** Cycles against a service with fixed replies                        *)
(* ===================================================================== *)

(** The inspection returns the value it was given, or raises. *)
Lemma check_errors_returns v w r w' :
  TikoApi.check_errors v w = (inr r, w') -> r = v /\ w' = w.
Proof.
  intros H. unfold TikoApi.check_errors in H.
  returned_step H has w0 G. unfold lift in G. inversion G as [[G' Ew]]; subst w0; clear G.
  destruct has.
  - returned_step H errors w0 G. unfold lift in G. inversion G as [[G1 Ew]]; subst w0; clear G.
    returned_step H first w0 G. unfold lift in G. inversion G as [[G2 Ew]]; subst w0; clear G.
    returned_step H msg w0 G. unfold lift in G. inversion G as [[G3 Ew]]; subst w0; clear G.
    returned_step H rate w0 G. unfold lift in G. inversion G as [[G4 Ew]]; subst w0; clear G.
    destruct rate; [discriminate H | ].
    returned_step H cred w0 G. unfold lift in G. inversion G as [[G5 Ew]]; subst w0; clear G.
    destruct cred; discriminate H.
  - unfold ret in H. inversion H. split; reflexivity.
Qed.

Section FixedReplies.

Variable srv : server.
Variables vr vd : json.
Hypothesis rooms_fixed : answers_rooms srv vr.
Hypothesis devices_fixed : answers_devices srv vd.

Lemma get_rooms_fixed w r w' : TikoApi.get_rooms srv w = (inr r, w') -> r = vr.
Proof.
  unfold TikoApi.get_rooms. unfold bind at 1.
  unfold TikoApi.get_property_id. destruct (property_id (api w)) as [pid | ].
  - destruct (rooms_fixed (trace w)
                (request_of w "POST" TikoApi.api_url (Some (GetRooms pid))) pid eq_refl)
      as (resp & Hr & Hd).
    rewrite (make_request_decoded _ _ _ _ _ _ _ Hr Hd eq_refl).
    intros H. apply check_errors_returns in H. apply H.
  - intros H. inversion H.
Qed.

Lemma get_devices_fixed w r w' : TikoApi.get_devices srv w = (inr r, w') -> r = vd.
Proof.
  unfold TikoApi.get_devices. unfold bind at 1.
  unfold TikoApi.get_property_id. destruct (property_id (api w)) as [pid | ].
  - destruct (devices_fixed (trace w)
                (request_of w "POST" TikoApi.api_url (Some (GetDevices pid))) pid eq_refl)
      as (resp & Hr & Hd).
    rewrite (make_request_decoded _ _ _ _ _ _ _ Hr Hd eq_refl).
    intros H. apply check_errors_returns in H. apply H.
  - intros H. inversion H.
Qed.

Lemma fetch_both_fixed w r d w' :
  Coordinator.fetch_both srv w = (inr (r, d), w') -> r = vr /\ d = vd.
Proof.
  unfold Coordinator.fetch_both, Coordinator.gather.
  destruct (TikoApi.get_rooms srv w) as [[e | r0] w1] eqn:E1;
    destruct (TikoApi.get_devices srv w1) as [[e' | d0] w2] eqn:E2;
    intros H; inversion H; subst.
  split; [eapply get_rooms_fixed | eapply get_devices_fixed]; eassumption.
Qed.

(** The maps of a returning cycle are those of the two fixed replies. *)
Lemma cycle_fixed w snap w' :
  Coordinator._async_update_data srv w = (inr snap, w') ->
  exists ri di,
    (exists data property rs,
       getitem vr "data" = inr data /\ getitem data "property" = inr property
       /\ getitem property "rooms" = inr rs /\ iter rs = inr ri)
    /\ (exists data property ds,
       getitem vd "data" = inr data /\ getitem data "property" = inr property
       /\ getitem property "devices" = inr ds /\ iter ds = inr di)
    /\ Coordinator.dict_by_id ri [] = inr (rooms w')
    /\ Coordinator.dict_by_id di [] = inr (devices w')
    /\ snap = JObj [("rooms", JObj (rooms w')); ("devices", JObj (devices w'))].
Proof.
  intros H.
  destruct (cycle_returns_maps srv _ _ _ H) as (wf & r & d & w1 & w2 & Hf & Hr & Hd & Er & Es).
  destruct (fetch_both_fixed _ _ _ _ Hf) as [-> ->].
  destruct (process_rooms_assigns _ _ _ Hr) as (a1 & a2 & a3 & ri & R1 & R2 & R3 & R4 & Br).
  destruct (process_devices_assigns _ _ _ Hd) as (b1 & b2 & b3 & di & D1 & D2 & D3 & D4 & Bd).
  exists ri, di. rewrite Er. repeat split; try assumption.
  - exists a1, a2, a3. repeat split; assumption.
  - exists b1, b2, b3. repeat split; assumption.
  - rewrite <- Er. exact Es.
Qed.

End FixedReplies.

(** X14. Against a service that answers every GetRooms call with one
    reply and every GetDevices call with one reply, two cycles that return
    leave the same rooms map and the same devices map and return the same
    value, whatever the maps, the session and the history they started
    from: the maps of a cycle are rebuilt from the replies alone. *)
Theorem returning_cycles_agree
    (srv : server) (vr vd : json) (wa wb : world) (sa sb : json) (wa' wb' : world) :
  answers_rooms srv vr ->
  answers_devices srv vd ->
  Coordinator._async_update_data srv wa = (inr sa, wa') ->
  Coordinator._async_update_data srv wb = (inr sb, wb') ->
  rooms wa' = rooms wb' /\ devices wa' = devices wb' /\ sa = sb.
Proof.
  intros Hr Hd Ha Hb.
  destruct (cycle_fixed srv vr vd Hr Hd _ _ _ Ha)
    as (ri & di & (a1 & a2 & a3 & A1 & A2 & A3 & A4) & (b1 & b2 & b3 & B1 & B2 & B3 & B4)
        & Ra & Da & Sa).
  destruct (cycle_fixed srv vr vd Hr Hd _ _ _ Hb)
    as (ri' & di' & (a1' & a2' & a3' & A1' & A2' & A3' & A4')
        & (b1' & b2' & b3' & B1' & B2' & B3' & B4') & Rb & Db & Sb).
  assert (ri' = ri) as -> by congruence.
  assert (di' = di) as -> by congruence.
  assert (Er : rooms wa' = rooms wb') by congruence.
  assert (Ed : devices wa' = devices wb') by congruence.
  repeat split; try assumption.
  rewrite Sa, Sb, Er, Ed. reflexivity.
Qed.

Lemma lounge_service_answers_devices :
  answers_devices Scenario.lounge_service (Scenario.devices_reply [Scenario.heater]).
Proof.
  intros hist req pid Hb. eexists. split.
  - cbn [respond Scenario.lounge_service Scenario.service]. rewrite Hb. reflexivity.
  - repeat split; reflexivity.
Qed.

Lemma returning_cycles_agree_witness :
  let first := Coordinator._async_update_data Scenario.lounge_service Scenario.fresh in
  let other :=
    Coordinator._async_update_data Scenario.lounge_service Scenario.after_good_cycle in
  rooms Scenario.fresh <> rooms Scenario.after_good_cycle
  /\ rooms (snd first) = rooms (snd other)
  /\ devices (snd first) = devices (snd other)
  /\ fst first = fst other.
Proof.
  intros first other. split; [discriminate | ].
  destruct first as [[e | sa] wa'] eqn:A; [vm_compute in A; discriminate | ].
  destruct other as [[e | sb] wb'] eqn:B; [vm_compute in B; discriminate | ].
  destruct (returning_cycles_agree _ _ _ _ _ _ _ _ _
              lounge_service_answers lounge_service_answers_devices A B) as (R & D & S).
  cbn [fst snd]. rewrite S. repeat split; assumption.
Defined.

(* ===================================================================== *)
(** ** The key of a room and the id of a command                          *)
(* ===================================================================== *)

Section IntText.

Lemma parse_uint d : forall acc b,
  d <> Decimal.Nil \/ b = true ->
  parse_digits acc b (list_ascii_of_string (NilEmpty.string_of_uint d))
  = Some (uint_value acc d).
Proof.
  induction d; intros acc b Hd;
    try (cbn [NilEmpty.string_of_uint list_ascii_of_string parse_digits uint_value];
         match goal with
         | |- context [is_digit ?c] => change (is_digit c) with true
         end;
         cbv iota;
         rewrite IHd by (right; reflexivity); f_equal; f_equal;
         match goal with
         | |- context [Z.of_nat (nat_of_ascii ?c)] =>
             let v := eval vm_compute in (Z.of_nat (nat_of_ascii c)) in
             change (Z.of_nat (nat_of_ascii c)) with v
         end; lia).
  destruct Hd as [Hd | ->]; [contradiction | reflexivity].
Qed.

Lemma uint_value_acc d : forall acc,
  Z.pos (Pos.of_uint_acc d acc) = uint_value (Z.pos acc) d.
Proof.
  induction d; intros acc; cbn [Pos.of_uint_acc uint_value];
    [reflexivity | rewrite IHd; f_equal; lia ..].
Qed.

Lemma uint_value_of_uint d : Z.of_N (Pos.of_uint d) = uint_value 0 d.
Proof.
  induction d; cbn [Pos.of_uint uint_value];
    [reflexivity | exact IHd | cbn [Z.of_N]; rewrite uint_value_acc; reflexivity ..].
Qed.

Lemma uint_value_to_uint p : uint_value 0 (Pos.to_uint p) = Z.pos p.
Proof. rewrite <- uint_value_of_uint, DecimalPos.Unsigned.of_to. reflexivity. Qed.

Lemma to_uint_not_nil p : Pos.to_uint p <> Decimal.Nil.
Proof.
  intros H. pose proof (DecimalPos.Unsigned.of_to p) as E. rewrite H in E. discriminate E.
Qed.

Lemma lstrip_id l :
  match l with c :: _ => is_space c = false | [] => True end -> lstrip l = l.
Proof. destruct l as [ | c t]; cbn; [reflexivity | intros ->; reflexivity]. Qed.

Lemma strip_id l : Forall (fun c => is_space c = false) l -> strip l = l.
Proof.
  intros H. unfold strip. rewrite (lstrip_id l).
  - rewrite lstrip_id; [apply rev_involutive | ].
    apply Forall_rev in H. destruct (rev l); [exact I | inversion H; assumption].
  - destruct l; [exact I | inversion H; assumption].
Qed.

Lemma uint_chars_no_space d :
  Forall (fun c => is_space c = false) (list_ascii_of_string (NilEmpty.string_of_uint d)).
Proof. induction d; cbn; constructor; solve [reflexivity | assumption]. Qed.

(** [int(str(n))] is [n]. *)
Lemma int_of_str_str_int n : int_of_str (str_int n) = inr n.
Proof.
  destruct n as [ | p | p]; [reflexivity | | ].
  - unfold str_int, int_of_str. cbn [Z.to_int NilZero.string_of_int].
    assert (E : NilZero.string_of_uint (Pos.to_uint p) = NilEmpty.string_of_uint (Pos.to_uint p)).
    { pose proof (to_uint_not_nil p). destruct (Pos.to_uint p); [contradiction | reflexivity ..]. }
    rewrite E, (strip_id _ (uint_chars_no_space _)).
    pose proof (parse_uint (Pos.to_uint p) 0 false (or_introl (to_uint_not_nil p))) as P.
    rewrite uint_value_to_uint in P.
    pose proof (to_uint_not_nil p) as N.
    destruct (Pos.to_uint p); [contradiction | ..];
      cbn [NilEmpty.string_of_uint list_ascii_of_string] in *;
      match goal with
      | |- context [Ascii.eqb ?c "-"] =>
          change (Ascii.eqb c "-") with false; change (Ascii.eqb c "+") with false
      end; cbv iota; rewrite P; reflexivity.
  - unfold str_int, int_of_str. cbn [Z.to_int NilZero.string_of_int].
    assert (E : NilZero.string_of_uint (Pos.to_uint p) = NilEmpty.string_of_uint (Pos.to_uint p)).
    { pose proof (to_uint_not_nil p). destruct (Pos.to_uint p); [contradiction | reflexivity ..]. }
    rewrite E.
    rewrite strip_id
      by (cbn [list_ascii_of_string]; constructor;
          [reflexivity | apply uint_chars_no_space]).
    cbn [list_ascii_of_string]. change (Ascii.eqb "-" "-") with true. cbv iota.
    rewrite (parse_uint (Pos.to_uint p) 0 false (or_introl (to_uint_not_nil p))).
    rewrite uint_value_to_uint. reflexivity.
Qed.

End IntText.

(* ===================================================================== *)
(** ** The commands of an entity                                          *)
(* ===================================================================== *)

Section EntityCommands.

Variable srv : server.

Lemma coordinator_set_mode_run w pid m :
  property_id (api w) = Some pid ->
  exists r,
    Coordinator.set_mode srv m w
    = (r, add_events w (post w (SetMode pid m)
                          :: match r with inr _ => [RefreshRequested] | inl _ => [] end)).
Proof.
  intros Hpid.
  destruct (TikoApi.set_heating_mode srv m w) as [[e | v] w1] eqn:E;
    pose proof (set_heating_mode_world srv w pid m _ _ Hpid E) as ->;
    unfold Coordinator.set_mode; unfold try_except at 1; unfold bind at 1; rewrite E.
  - exists (inl e). reflexivity.
  - exists (inr tt). rewrite refresh_after. reflexivity.
Qed.

Lemma coordinator_set_temperature_run w pid room_id n t :
  property_id (api w) = Some pid ->
  int_of_str room_id = inr n ->
  exists r,
    Coordinator.set_temperature srv room_id t w
    = (r, add_events w (post w (SetRoomAdjustTemperature pid n t)
                          :: match r with inr _ => [RefreshRequested] | inl _ => [] end)).
Proof.
  intros Hpid Hint.
  destruct (TikoApi.set_temperature srv n t w) as [[e | v] w1] eqn:E;
    pose proof (set_temperature_world srv w pid n t _ _ Hpid E) as ->;
    unfold Coordinator.set_temperature; unfold try_except at 1; unfold bind at 1;
    rewrite Hint; unfold lift at 1; unfold bind at 1; rewrite E.
  - exists (inl e). reflexivity.
  - exists (inr tt). rewrite refresh_after. reflexivity.
Qed.

(** The rooms map and the client after a cycle that returns. *)
Lemma cycle_rooms_inv w0 snap w :
  Coordinator._async_update_data srv w0 = (inr snap, w) ->
  NoDup (dict_keys (rooms w))
  /\ (forall k v, dict_get (rooms w) k = Some v ->
        exists i, getitem v "id" = inr i /\ py_str i = k)
  /\ exists pid, property_id (api w) = Some pid.
Proof.
  intros H.
  destruct (cycle_returns_maps srv _ _ _ H) as (wf & r & d & w1 & w2 & Hf & Hr & Hd & Er & Es).
  destruct (process_rooms_assigns _ _ _ Hr) as (? & ? & ? & ri & _ & _ & _ & _ & Br).
  destruct (dict_by_id_inv _ _ _ Br (NoDup_nil _)) as (Nr & Kr & _).
  rewrite Er. split; [exact Nr | split].
  - intros k v Hk. destruct (Kr k v Hk) as [Hn | (_ & i & Hi)]; [discriminate Hn | ].
    exists i. exact Hi.
  - destruct (process_rooms_returns _ _ _ Hr) as (A1 & _).
    destruct (process_devices_returns _ _ _ Hd) as (A2 & _).
    destruct (fetch_both_quiet srv _ _ _ Hf) as ((A3 & _) & _).
    rewrite A2, A1, A3.
    revert Hf. unfold Coordinator.fetch_both, Coordinator.gather.
    destruct (TikoApi.get_rooms srv wf) as [[e | r0] wr] eqn:G.
    { destruct (TikoApi.get_devices srv wr) as [[e' | d0] wd]; intros X; inversion X. }
    intros _. revert G. unfold TikoApi.get_rooms. unfold bind at 1.
    unfold TikoApi.get_property_id.
    destruct (property_id (api wf)) as [pid | ]; [exists pid; reflexivity | ].
    intros X; inversion X.
Qed.

End EntityCommands.

(** X15. After a cycle that returns, the temperature command of the entity
    of a room whose id is the integer [n] sends one
    SetRoomAdjustTemperature request, for the property of the client and
    with the room id [n]: the key that the cycle made of the id is read
    back to the same integer.  A refresh is asked for when the request
    returns, and not when it raises. *)
Theorem command_reaches_the_room_of_the_entity
    (srv : server) (w0 : world) (snap : json) (w : world)
    (self : ClimateEntity.TikoClimate) (room : json) (n : Z)
    (kwargs : pydict json) (t : json) :
  Coordinator._async_update_data srv w0 = (inr snap, w) ->
  dict_get (rooms w) (ClimateEntity._room_id self) = Some room ->
  getitem room "id" = inr (JInt n) ->
  dict_get kwargs ClimateEntity.ATTR_TEMPERATURE = Some t ->
  t <> JNull ->
  exists pid r,
    property_id (api w) = Some pid
    /\ ClimateEntity.async_set_temperature srv self kwargs w
       = (r, add_events w (post w (SetRoomAdjustTemperature pid n t)
                             :: match r with inr _ => [RefreshRequested] | inl _ => [] end)).
Proof.
  intros Hc Hroom Hid Ht Hn.
  destruct (cycle_rooms_inv srv _ _ _ Hc) as (_ & K & pid & Hpid).
  destruct (K _ _ Hroom) as (i & Gi & Ei).
  rewrite Hid in Gi. inversion Gi; subst i. cbn [py_str py_repr] in Ei.
  destruct (coordinator_set_temperature_run srv w pid (ClimateEntity._room_id self) n t Hpid)
    as (r & Hr).
  { rewrite <- Ei. apply int_of_str_str_int. }
  exists pid, r. split; [exact Hpid | ].
  unfold ClimateEntity.async_set_temperature. rewrite Ht.
  destruct t; try exact Hr. contradiction Hn; reflexivity.
Qed.

Lemma command_reaches_the_room_of_the_entity_witness :
  let w := snd (Coordinator._async_update_data Scenario.lounge_service Scenario.fresh) in
  let self :=
    {| ClimateEntity._room_id := "42"; ClimateEntity._attr_unique_id := "tiko_42";
       ClimateEntity._attr_name := JStr "Lounge" |} in
  exists r,
    trace (snd (ClimateEntity.async_set_temperature Scenario.lounge_service self
                  [("temperature", JFloat "20.5")] w))
    = (trace w ++ post w (SetRoomAdjustTemperature (JInt 5) 42 (JFloat "20.5")) :: r)%list.
Proof.
  intros w self.
  destruct (Coordinator._async_update_data Scenario.lounge_service Scenario.fresh)
    as [[e | snap] w1] eqn:R; [vm_compute in R; discriminate | ].
  assert (Hroom : dict_get (rooms w1) "42" = Some Scenario.lounge)
    by (eval_run R; reflexivity).
  assert (Hpid : property_id (api w1) = Some (JInt 5)) by (eval_run R; reflexivity).
  destruct (command_reaches_the_room_of_the_entity Scenario.lounge_service Scenario.fresh
              snap w1 self Scenario.lounge 42 [("temperature", JFloat "20.5")]
              (JFloat "20.5") R Hroom eq_refl eq_refl)
    as (pid & r & Hp & Hrun); [discriminate | ].
  rewrite Hpid in Hp. inversion Hp; subst pid.
  subst w. cbn [snd]. rewrite Hrun. cbn [snd add_events trace]. eexists. reflexivity.
Defined.



(** X17. The mode commands of an entity.  [async_set_hvac_mode] sends one
    SetMode request, with on for heat, off for off, frost for eco and
    absence for away, and does nothing at all for any other mode;
    [async_set_preset_mode] sends one SetMode request, with frost for eco,
    absence for away and faux for every other preset.  After a request that
    returns a refresh is asked for. *)
Theorem entity_mode_commands
    (srv : server) (w : world) (pid : json)
    (self : ClimateEntity.TikoClimate) (mode : string) :
  property_id (api w) = Some pid ->
  (forall m,
     In (mode, m) [("heat", "on"); ("off", "off"); ("eco", "frost"); ("away", "absence")] ->
     exists r,
       ClimateEntity.async_set_hvac_mode srv self mode w
       = (r, add_events w (post w (SetMode pid m)
                             :: match r with inr _ => [RefreshRequested] | inl _ => [] end)))
  /\ (~ In mode ["heat"; "off"; "eco"; "away"] ->
      ClimateEntity.async_set_hvac_mode srv self mode w = (inr tt, w))
  /\ (exists r,
       ClimateEntity.async_set_preset_mode srv self mode w
       = (r, add_events w
               (post w (SetMode pid (if String.eqb mode "eco" then "frost"
                                     else if String.eqb mode "away" then "absence"
                                     else "faux"))
                  :: match r with inr _ => [RefreshRequested] | inl _ => [] end))).
Proof.
  intros Hpid. split; [ | split].
  - intros m Hin. unfold ClimateEntity.async_set_hvac_mode. rewrite TIKO_MODE_MAP_items.
    cbn [In] in Hin.
    destruct Hin as [E | [E | [E | [E | []]]]]; inversion E; subst; cbn [dict_get String.eqb];
      apply coordinator_set_mode_run; exact Hpid.
  - intros Hn. unfold ClimateEntity.async_set_hvac_mode. rewrite TIKO_MODE_MAP_items.
    cbn [dict_get]. cbn [In] in Hn.
    repeat case_key; try reflexivity; exfalso; apply Hn; auto.
  - unfold ClimateEntity.async_set_preset_mode.
    destruct (String.eqb mode "eco"); [ | destruct (String.eqb mode "away")];
      apply coordinator_set_mode_run; exact Hpid.
Qed.

Lemma entity_mode_commands_witness :
  let self :=
    {| ClimateEntity._room_id := "42"; ClimateEntity._attr_unique_id := "tiko_42";
       ClimateEntity._attr_name := JStr "Lounge" |} in
  ClimateEntity.async_set_hvac_mode Scenario.lounge_service self "cool"
    Scenario.after_good_cycle
  = (inr tt, Scenario.after_good_cycle)
  /\ exists r,
       ClimateEntity.async_set_preset_mode Scenario.lounge_service self "none"
         Scenario.after_good_cycle
       = (r, add_events Scenario.after_good_cycle
               (post Scenario.after_good_cycle (SetMode (JInt 5) "faux")
                  :: match r with inr _ => [RefreshRequested] | inl _ => [] end)).
Proof.
  intros self.
  destruct (entity_mode_commands Scenario.lounge_service Scenario.after_good_cycle (JInt 5)
              self "cool" eq_refl) as (_ & Hc & _).
  destruct (entity_mode_commands Scenario.lounge_service Scenario.after_good_cycle (JInt 5)
              self "none" eq_refl) as (_ & _ & Hp).
  split.
  - apply Hc. cbn. intros [H | [H | [H | [H | []]]]]; discriminate H.
  - exact Hp.
Defined.

(* ===================================================================== *)
(** ** What an entity reads, and the entities of the platform             *)
(* ===================================================================== *)

Lemma dict_keys_get {V} (d : pydict V) k : In k (dict_keys d) -> exists v, dict_get d k = Some v.
Proof.
  unfold dict_keys. induction d as [ | [k' v] d IH]; cbn; [intros [] | ].
  destruct (String.eqb_spec k' k) as [-> | Hne]; [intros _; eexists; reflexivity | ].
  intros [E | Hin]; [contradiction | exact (IH Hin)].
Qed.

(** Only a dict has an entry under a string key. *)
Lemma getitem_is_dict v k x : getitem v k = inr x -> exists kvs, v = JObj kvs.
Proof. destruct v; cbn; try discriminate. intros _. eexists. reflexivity. Qed.

Lemma get_of_dict kvs k default : exists x, get (JObj kvs) k default = inr x.
Proof. cbn. destruct (dict_get kvs k); eexists; reflexivity. Qed.

(** X18. After a cycle that returns, reading the current and the target
    temperature of any room id raises nothing; for an id that is no key of
    the rooms map both are None, the mode is off and the action is idle. *)
Theorem temperatures_never_raise_after_a_cycle
    (srv : server) (w0 : world) (snap : json) (w : world) (room_id : string) :
  Coordinator._async_update_data srv w0 = (inr snap, w) ->
  (exists c t,
     Climate.current_temperature w room_id = inr c
     /\ Climate.target_temperature w room_id = inr t)
  /\ (dict_get (rooms w) room_id = None ->
      Climate.current_temperature w room_id = inr JNull
      /\ Climate.target_temperature w room_id = inr JNull
      /\ Climate.hvac_mode w room_id = inr Climate.OFF
      /\ Climate.hvac_action w room_id = inr Climate.IDLE).
Proof.
  intros Hc. destruct (cycle_rooms_inv srv _ _ _ Hc) as (_ & K & _).
  unfold Climate.current_temperature, Climate.target_temperature, Climate.hvac_mode,
    Climate.hvac_action, Climate.heating_operating, Climate.room_data.
  destruct (dict_get (rooms w) room_id) as [room | ] eqn:G.
  - split; [ | discriminate].
    destruct (K _ _ G) as (i & Gi & _). destruct (getitem_is_dict _ _ _ Gi) as (kvs & ->).
    destruct (get_of_dict kvs "currentTemperatureDegrees" JNull) as (c & ->).
    destruct (get_of_dict kvs "targetTemperatureDegrees" JNull) as (t & ->).
    exists c, t. split; reflexivity.
  - split; [exists JNull, JNull; split; reflexivity | ].
    intros _. repeat split.
Qed.

Lemma temperatures_never_raise_after_a_cycle_witness :
  let w := snd (Coordinator._async_update_data Scenario.lounge_service Scenario.fresh) in
  Climate.current_temperature w "7" = inr JNull
  /\ Climate.hvac_action w "7" = inr Climate.IDLE
  /\ exists c, Climate.current_temperature w "42" = inr c.
Proof.
  intros w.
  destruct (Coordinator._async_update_data Scenario.lounge_service Scenario.fresh)
    as [[e | snap] w1] eqn:R; [vm_compute in R; discriminate | ].
  subst w. cbn [snd].
  destruct (temperatures_never_raise_after_a_cycle _ _ _ _ "7" R) as (_ & Hnone).
  destruct (temperatures_never_raise_after_a_cycle _ _ _ _ "42" R) as ((c & _ & Hc & _) & _).
  destruct Hnone as (H1 & _ & _ & H4); [eval_run R; reflexivity | ].
  split; [exact H1 | split; [exact H4 | exists c; exact Hc]].
Defined.

(** X19. The mode and the action of an entity are read from the same
    entry: heat goes with heating, off with idle, and when one raises the
    other raises the same exception, an AttributeError of a room or a
    status that is no dict. *)
Theorem mode_and_action_agree (w : world) (room_id : string) :
  match Climate.hvac_mode w room_id, Climate.hvac_action w room_id with
  | inr Climate.HEAT, inr Climate.HEATING => True
  | inr Climate.OFF, inr Climate.IDLE => True
  | inl e, inl e' => e = e' /\ exn_cls e = AttributeError
  | _, _ => False
  end.
Proof.
  unfold Climate.hvac_mode, Climate.hvac_action, Climate.heating_operating.
  destruct (get (Climate.room_data w room_id) "status" (JObj [])) as [e | st] eqn:G.
  - split; [reflexivity | ].
    destruct (Climate.room_data w room_id); cbn in G; inversion G; try reflexivity.
    destruct (dict_get kvs "status"); discriminate.
  - destruct (get st "heatingOperating" JNull) as [e | h] eqn:G2.
    + split; [reflexivity | ].
      destruct st; cbn in G2; inversion G2; try reflexivity.
      destruct (dict_get kvs "heatingOperating"); discriminate.
    + destruct (truthy h); exact I.
Qed.

(** X20. A room whose status entry is no dict makes the mode and the
    action of its entity raise AttributeError, while its temperatures are
    still read. *)
Theorem status_that_is_no_dict_breaks_the_mode
    (w : world) (room_id : string) (kvs : list (string * json)) (st : json) :
  dict_get (rooms w) room_id = Some (JObj kvs) ->
  dict_get kvs "status" = Some st ->
  (forall l, st <> JObj l) ->
  let e := Raise AttributeError ("'" ++ type_name st ++ "' object has no attribute 'get'") in
  Climate.hvac_mode w room_id = inl e
  /\ Climate.hvac_action w room_id = inl e
  /\ exists c, Climate.current_temperature w room_id = inr c.
Proof.
  intros Hroom Hst Hn e.
  unfold Climate.hvac_mode, Climate.hvac_action, Climate.heating_operating,
    Climate.current_temperature, Climate.room_data.
  rewrite Hroom. cbn [get]. rewrite Hst.
  assert (G : get st "heatingOperating" JNull = inl e).
  { destruct st; try reflexivity. contradiction (Hn kvs0); reflexivity. }
  rewrite G. repeat split.
  destruct (dict_get kvs "currentTemperatureDegrees"); eexists; reflexivity.
Qed.

Lemma status_that_is_no_dict_breaks_the_mode_witness :
  let attic :=
    JObj [("id", JInt 9); ("name", JStr "Attic");
          ("currentTemperatureDegrees", JFloat "12.5"); ("status", JNull)] in
  let srv :=
    Scenario.service (Scenario.ok_json Scenario.one_property)
      (Scenario.ok_json (Scenario.rooms_reply [attic]))
      (Scenario.ok_json (Scenario.devices_reply []))
      (Scenario.ok_json (JObj [])) in
  let run := Coordinator._async_update_data srv Scenario.fresh in
  (exists snap, fst run = inr snap)
  /\ Climate.hvac_mode (snd run) "9"
     = inl (Raise AttributeError "'NoneType' object has no attribute 'get'")
  /\ Climate.current_temperature (snd run) "9" = inr (JFloat "12.5").
Proof.
  intros attic srv run.
  destruct run as [[e | snap] w] eqn:R; [vm_compute in R; discriminate | ].
  cbn [fst snd]. split; [exists snap; reflexivity | ].
  assert (Hroom : dict_get (rooms w) "9" = Some attic) by (eval_run R; reflexivity).
  destruct (status_that_is_no_dict_breaks_the_mode w "9" _ JNull Hroom eq_refl)
    as (Hm & _ & _); [discriminate | ].
  split; [exact Hm | ]. eval_run R. reflexivity.
Defined.

Section Setup.

Lemma entities_of_returns w ids es :
  ClimateEntity.entities_of w ids = inr es ->
  Forall2 (fun k en => ClimateEntity.__init__ w k = inr en) ids es.
Proof.
  revert es. induction ids as [ | k t IH]; intros es H; cbn in H.
  - inversion H. constructor.
  - destruct (ClimateEntity.__init__ w k) as [e | en] eqn:I; [discriminate | ].
    destruct (ClimateEntity.entities_of w t) as [e | es'] eqn:T; [discriminate | ].
    inversion H; subst es. constructor; [exact I | apply IH; reflexivity].
Qed.

Lemma entities_of_raises w ids e :
  ClimateEntity.entities_of w ids = inl e ->
  exists k, In k ids /\ ClimateEntity.__init__ w k = inl e.
Proof.
  induction ids as [ | k t IH]; intros H; cbn in H; [discriminate | ].
  destruct (ClimateEntity.__init__ w k) as [e' | en] eqn:I.
  - inversion H; subst e'. exists k. split; [left; reflexivity | exact I].
  - destruct (ClimateEntity.entities_of w t) as [e' | es'] eqn:T; [ | discriminate].
    inversion H; subst e'. destruct (IH eq_refl) as (k' & Hin & Hk).
    exists k'. split; [right; exact Hin | exact Hk].
Qed.

Lemma init_returns w k en :
  ClimateEntity.__init__ w k = inr en ->
  ClimateEntity._room_id en = k
  /\ ClimateEntity._attr_unique_id en = "tiko_" ++ k
  /\ exists room, dict_get (rooms w) k = Some room
                  /\ getitem room "name" = inr (ClimateEntity._attr_name en).
Proof.
  unfold ClimateEntity.__init__.
  destruct (dict_get (rooms w) k) as [room | ]; [ | discriminate].
  destruct (getitem room "name") as [e | name] eqn:G; [discriminate | ].
  intros H. inversion H; subst en. cbn. repeat split. exists room. split; [reflexivity | exact G].
Qed.

Lemma forall2_room_ids w ids es :
  Forall2 (fun k en => ClimateEntity.__init__ w k = inr en) ids es ->
  map ClimateEntity._room_id es = ids
  /\ map ClimateEntity._attr_unique_id es = map (fun k => "tiko_" ++ k) ids.
Proof.
  induction 1 as [ | k en ids es Hk _ IH]; [split; reflexivity | ].
  destruct (init_returns _ _ _ Hk) as (E1 & E2 & _). destruct IH as (I1 & I2).
  cbn [map]. rewrite E1, E2, I1, I2. split; reflexivity.
Qed.

Lemma forall2_entities w ids es :
  Forall2 (fun k en => ClimateEntity.__init__ w k = inr en) ids es ->
  Forall (fun en =>
       ClimateEntity._attr_unique_id en = "tiko_" ++ ClimateEntity._room_id en
       /\ exists room,
            dict_get (rooms w) (ClimateEntity._room_id en) = Some room
            /\ getitem room "name" = inr (ClimateEntity._attr_name en)) es.
Proof.
  induction 1 as [ | k en ids es' Hk _ IH]; constructor; [ | exact IH].
  destruct (init_returns _ _ _ Hk) as (E1 & E2 & room & Hr & Hn).
  rewrite E1. split; [exact E2 | exists room; split; assumption].
Qed.

Lemma nodup_prefixed p ids : NoDup ids -> NoDup (map (fun k => p ++ k) ids).
Proof.
  assert (J : forall a b, p ++ a = p ++ b -> a = b).
  { intros a b E. induction p as [ | c p IH]; cbn in E; [exact E | ].
    inversion E. apply IH. assumption. }
  induction 1 as [ | k ids Hn _ IH]; cbn [map]; constructor; [ | exact IH].
  intros Hin. apply in_map_iff in Hin. destruct Hin as (k' & E & Hk').
  apply J in E. subst k'. exact (Hn Hk').
Qed.

End Setup.

(** X21. After a cycle that returns, the entities that [async_setup_entry]
    hands over are one per key of the rooms map, in the order of the keys;
    their unique ids are the keys after the prefix of the domain and are
    pairwise different, and the name of each is the name entry of its
    room. *)
Theorem setup_makes_one_entity_per_room
    (srv : server) (w0 : world) (snap : json) (w : world)
    (es : list ClimateEntity.TikoClimate) :
  Coordinator._async_update_data srv w0 = (inr snap, w) ->
  ClimateEntity.async_setup_entry w = inr es ->
  map ClimateEntity._room_id es = dict_keys (rooms w)
  /\ NoDup (map ClimateEntity._attr_unique_id es)
  /\ Forall (fun en =>
       ClimateEntity._attr_unique_id en = "tiko_" ++ ClimateEntity._room_id en
       /\ exists room,
            dict_get (rooms w) (ClimateEntity._room_id en) = Some room
            /\ getitem room "name" = inr (ClimateEntity._attr_name en)) es.
Proof.
  intros Hc Hs. destruct (cycle_rooms_inv srv _ _ _ Hc) as (N & _ & _).
  apply entities_of_returns in Hs.
  destruct (forall2_room_ids _ _ _ Hs) as (E1 & E2).
  split; [exact E1 | split].
  - rewrite E2. apply nodup_prefixed. exact N.
  - exact (forall2_entities _ _ _ Hs).
Qed.

Lemma setup_makes_one_entity_per_room_witness :
  let srv :=
    Scenario.service (Scenario.ok_json Scenario.one_property)
      (Scenario.ok_json (Scenario.rooms_reply [Scenario.lounge; Scenario.kitchen]))
      (Scenario.ok_json (Scenario.devices_reply [Scenario.heater]))
      (Scenario.ok_json (JObj [])) in
  let w := snd (Coordinator._async_update_data srv Scenario.fresh) in
  exists es,
    ClimateEntity.async_setup_entry w = inr es
    /\ map ClimateEntity._room_id es = ["42"; "7"]
    /\ NoDup (map ClimateEntity._attr_unique_id es).
Proof.
  intros srv w.
  destruct (Coordinator._async_update_data srv Scenario.fresh)
    as [[e | snap] w1] eqn:R; [vm_compute in R; discriminate | ].
  subst w. cbn [snd].
  destruct (ClimateEntity.async_setup_entry w1) as [e | es] eqn:S;
    [eval_run R; vm_compute in S; discriminate | ].
  exists es. split; [reflexivity | ].
  destruct (setup_makes_one_entity_per_room srv _ _ _ _ R S) as (E & N & _).
  split; [ | exact N]. rewrite E. eval_run R. reflexivity.
Defined.

(** X22. After a cycle that returns, [async_setup_entry] raises exactly
    when some room of the map has no name entry, and what it raises is the
    KeyError of that entry: the cycle accepts such a room, and the lookup of
    the room itself never fails. *)
Theorem room_without_name_fails_setup
    (srv : server) (w0 : world) (snap : json) (w : world) :
  Coordinator._async_update_data srv w0 = (inr snap, w) ->
  ((exists e, ClimateEntity.async_setup_entry w = inl e)
   <-> (exists k kvs, dict_get (rooms w) k = Some (JObj kvs) /\ dict_get kvs "name" = None))
  /\ (forall e, ClimateEntity.async_setup_entry w = inl e -> e = Raise KeyError "'name'").
Proof.
  intros Hc. destruct (cycle_rooms_inv srv _ _ _ Hc) as (_ & K & _).
  assert (F : forall k e, In k (dict_keys (rooms w)) -> ClimateEntity.__init__ w k = inl e ->
              e = Raise KeyError "'name'"
              /\ exists kvs, dict_get (rooms w) k = Some (JObj kvs)
                             /\ dict_get kvs "name" = None).
  { intros k e Hin. unfold ClimateEntity.__init__.
    destruct (dict_keys_get _ _ Hin) as (room & G). rewrite G.
    destruct (K _ _ G) as (i & Gi & _). destruct (getitem_is_dict _ _ _ Gi) as (kvs & ->).
    cbn [getitem]. destruct (dict_get kvs "name") eqn:Gn; [discriminate | ].
    intros H. inversion H. split; [reflexivity | ]. exists kvs. split; [reflexivity | exact Gn]. }
  split; [split | ].
  - intros (e & He). unfold ClimateEntity.async_setup_entry in He.
    destruct (entities_of_raises _ _ _ He) as (k & Hin & Hk).
    destruct (F _ _ Hin Hk) as (_ & kvs & G & Gn). exists k, kvs. split; assumption.
  - intros (k & kvs & G & Gn).
    destruct (ClimateEntity.async_setup_entry w) as [e | es] eqn:S; [exists e; reflexivity | ].
    exfalso. unfold ClimateEntity.async_setup_entry in S. apply entities_of_returns in S.
    pose proof (dict_get_in_keys _ _ _ G) as Hin.
    clear F. remember (dict_keys (rooms w)) as ids0 eqn:Ei. clear Ei.
    induction S as [ | k' en ids' es' Hk _ IH]; [contradiction | ].
    destruct Hin as [-> | Hin]; [ | exact (IH Hin)].
    unfold ClimateEntity.__init__ in Hk. rewrite G in Hk. cbn [getitem] in Hk.
    rewrite Gn in Hk. discriminate Hk.
  - intros e He. unfold ClimateEntity.async_setup_entry in He.
    destruct (entities_of_raises _ _ _ He) as (k & Hin & Hk).
    apply (F _ _ Hin Hk).
Qed.

Lemma room_without_name_fails_setup_witness :
  let nameless := JObj [("id", JInt 8); ("currentTemperatureDegrees", JFloat "17.0")] in
  let srv :=
    Scenario.service (Scenario.ok_json Scenario.one_property)
      (Scenario.ok_json (Scenario.rooms_reply [Scenario.lounge; nameless]))
      (Scenario.ok_json (Scenario.devices_reply []))
      (Scenario.ok_json (JObj [])) in
  let run := Coordinator._async_update_data srv Scenario.fresh in
  (exists snap, fst run = inr snap)
  /\ ClimateEntity.async_setup_entry (snd run) = inl (Raise KeyError "'name'").
Proof.
  intros nameless srv run.
  destruct run as [[e | snap] w] eqn:R; [vm_compute in R; discriminate | ].
  cbn [fst snd]. split; [exists snap; reflexivity | ].
  destruct (room_without_name_fails_setup srv _ _ _ R) as ((_ & Hex) & Hke).
  destruct Hex as (e & He).
  { exists "8", [("id", JInt 8); ("currentTemperatureDegrees", JFloat "17.0")].
    split; [eval_run R; reflexivity | reflexivity]. }
  rewrite He. rewrite (Hke e He). reflexivity.
Defined.

(* ===================================================================== *)
(** ** The test of the credentials                                        *)
(* ===================================================================== *)

Section CredentialsTest.

Variable srv : server.

(** A reply that passes the inspection has no errors entry. *)
Lemma check_errors_no_errors v w r w' :
  TikoApi.check_errors v w = (inr r, w') -> contains "errors" r = inr false.
Proof.
  intros H. pose proof (check_errors_returns _ _ _ _ H) as (-> & _).
  unfold TikoApi.check_errors in H.
  returned_step H has w0 G. unfold lift in G. inversion G as [[G' Ew]]; subst w0; clear G.
  destruct has; [ | exact G'].
  returned_step H errors w0 G. unfold lift in G. inversion G as [[G1 Ew]]; subst w0; clear G.
  returned_step H first w0 G. unfold lift in G. inversion G as [[G2 Ew]]; subst w0; clear G.
  returned_step H msg w0 G. unfold lift in G. inversion G as [[G3 Ew]]; subst w0; clear G.
  returned_step H rate w0 G. unfold lift in G. inversion G as [[G4 Ew]]; subst w0; clear G.
  destruct rate; [discriminate H | ].
  returned_step H cred w0 G. unfold lift in G. inversion G as [[G5 Ew]]; subst w0; clear G.
  destruct cred; discriminate H.
Qed.

Lemma make_request_no_errors m u b w r w' :
  TikoApi._make_request srv m u b w = (inr r, w') -> contains "errors" r = inr false.
Proof.
  intros H. unfold TikoApi._make_request in H.
  returned_step H resp w0 G. clear G.
  returned_step H u0 w1 G. clear G.
  destruct (String.eqb m "GET" && String.eqb u TikoApi.base_url).
  - unfold ret in H. inversion H. reflexivity.
  - destruct (negb _); [discriminate H | ].
    returned_step H result w2 G. clear G.
    exact (check_errors_no_errors _ _ _ _ H).
Qed.

Lemma get_rooms_no_errors w r w' :
  TikoApi.get_rooms srv w = (inr r, w') -> contains "errors" r = inr false.
Proof.
  intros H. unfold TikoApi.get_rooms in H.
  returned_step H pid w0 G. clear G.
  exact (make_request_no_errors _ _ _ _ _ _ H).
Qed.

(** The body of the test returns one of two results. *)
Lemma test_body_returns w res w' :
  ConfigFlow.test_body srv w = (inr res, w') ->
  res = (true, None) \/ res = (false, Some "no_rooms").
Proof.
  intros H. unfold ConfigFlow.test_body in H.
  returned_step H u w0 G. clear G.
  returned_step H result w1 G. apply get_rooms_no_errors in G.
  returned_step H has w2 G2. unfold lift in G2. rewrite G in G2.
  inversion G2; subst has w2; clear G2.
  returned_step H data w2 G2. clear G2.
  returned_step H property w3 G2. clear G2.
  returned_step H rs w4 G2. clear G2.
  destruct (negb (truthy rs)); unfold ret in H; inversion H; auto.
Qed.

End CredentialsTest.

(** X23. The test of the credentials of the configuration flow ends in
    one of three results: success, the error no_rooms, or the error
    unknown.  It never reports rate_limit, invalid_auth or cannot_connect:
    a reply with an errors entry has been turned into an exception by the
    client before the test looks at it. *)
Theorem credentials_test_outcomes
    (srv : server) (email' : string) (password' : Urllib.pystr) :
  In (ConfigFlow._test_credentials srv email' password')
     [(true, None); (false, Some "no_rooms"); (false, Some "unknown")].
Proof.
  unfold ConfigFlow._test_credentials.
  destruct (TikoApi.__init__ email' password') as [e | a]; [cbn; auto | ].
  destruct (ConfigFlow.test_body srv _) as [[e | res] w'] eqn:T; [cbn; auto | ].
  destruct (test_body_returns srv _ _ _ T) as [-> | ->]; cbn; auto.
Qed.

(** X24. Whatever makes the login of the test fail, a rate limit and
    refused credentials included, the result is the error unknown. *)
Theorem failed_login_of_the_test_is_unknown
    (srv : server) (email' : string) (password' : Urllib.pystr)
    (a : TikoAPI) (e : exn) (w' : world) :
  TikoApi.__init__ email' password' = inr a ->
  TikoApi.authenticate srv {| api := a; rooms := []; devices := []; trace := [] |}
  = (inl e, w') ->
  ConfigFlow._test_credentials srv email' password' = (false, Some "unknown").
Proof.
  intros Hi Ha. unfold ConfigFlow._test_credentials. rewrite Hi.
  unfold ConfigFlow.test_body. unfold bind at 1. rewrite Ha. reflexivity.
Qed.

Lemma failed_login_of_the_test_is_unknown_witness :
  let limited :=
    Scenario.service
      (Scenario.ok_json (Scenario.error_reply "Limite de taux atteinte, veuillez patienter"))
      Scenario.expired Scenario.expired Scenario.expired in
  let refused :=
    Scenario.service (Scenario.ok_json (Scenario.error_reply "Invalid credentials"))
      Scenario.expired Scenario.expired Scenario.expired in
  ConfigFlow._test_credentials limited "user@example.org" (Urllib.of_ascii "secret")
  = (false, Some "unknown")
  /\ ConfigFlow._test_credentials refused "user@example.org" (Urllib.of_ascii "secret")
     = (false, Some "unknown").
Proof.
  intros limited refused. split.
  - destruct (TikoApi.__init__ "user@example.org" (Urllib.of_ascii "secret"))
      as [e | a] eqn:I; [vm_compute in I; discriminate | ].
    destruct (TikoApi.authenticate limited
                {| api := a; rooms := []; devices := []; trace := [] |})
      as [[e | []] w'] eqn:A.
    + exact (failed_login_of_the_test_is_unknown limited _ _ a e w' I A).
    + vm_compute in I. inversion I; subst a. vm_compute in A. discriminate A.
  - destruct (TikoApi.__init__ "user@example.org" (Urllib.of_ascii "secret"))
      as [e | a] eqn:I; [vm_compute in I; discriminate | ].
    destruct (TikoApi.authenticate refused
                {| api := a; rooms := []; devices := []; trace := [] |})
      as [[e | []] w'] eqn:A.
    + exact (failed_login_of_the_test_is_unknown refused _ _ a e w' I A).
    + vm_compute in I. inversion I; subst a. vm_compute in A. discriminate A.
Defined.
